(** * Caesar cipher cracker: shallow embedding and verified properties

    The development follows the Python sources:
    - [crypto/caesar.py]      the shift transform ([Caesar]),
    - [crypto/bruteforce.py]  the candidate generator ([Bruteforce]),
    - [crypto/frequency.py]   the frequency attack ([Frequency]),
    - [crypto/scoring.py]     the feature extractors ([Scoring]),
    - [app.py]                the scoring engine, ranking and the HTTP
                              boundary ([App]).

    Python [str] values are sequences of Unicode code points and are kept
    as lists of integers; Python [int] is [Z]; Python [float] is an
    IEEE 754 binary64 number, kept as a [spec_float] with the operations
    of [SpecFloat] at precision 53 and maximal exponent 1024. *)

From Stdlib Require Import ZArith List Bool Lia Ascii String.
From Stdlib Require Import SpecFloat Sorted Permutation.
From stdpp Require Import base option list gmap.

Local Open Scope Z_scope.

(** ** Python strings *)

(** A character is its code point; [ord] and [chr] are the conversions
    between a one-character string and its code point.  [chr] raises
    outside [0, 0x10FFFF]; every call below is on a value in [65, 122]
    (see [Caesar.shift_char_range]). *)
Definition char := Z.
Definition str := list char.

Definition ord (c : char) : Z := c.
Definition chr (n : Z) : char := n.

(** ASCII literals, for the examples taken from the test-suite. *)
Definition lit (s : string) : str :=
  List.map (fun a => Z.of_N (N_of_ascii a)) (list_ascii_of_string s).

(** [range(lo, hi)]. *)
Definition range (lo hi : Z) : list Z :=
  List.map (fun i => lo + Z.of_nat i) (seq 0 (Z.to_nat (hi - lo))).

(** ** crypto/caesar.py *)
Module Caesar.

Definition _shift_char (c : char) (k : Z) : char :=
  if (65 <=? c) && (c <=? 90) then
    let base := ord 65 in
    chr ((ord c - base + k) mod 26 + base)
  else if (97 <=? c) && (c <=? 122) then
    let base := ord 97 in
    chr ((ord c - base + k) mod 26 + base)
  else c.

Definition encrypt (plaintext : str) (k : Z) : str :=
  let k := k mod 26 in
  List.map (fun c => _shift_char c k) plaintext.

Definition decrypt (ciphertext : str) (k : Z) : str :=
  encrypt ciphertext (- k).

End Caesar.

(** ** crypto/bruteforce.py *)
Module Bruteforce.
Import Caesar.

(** The loop appends one pair per key to the list it returns. *)
Definition brute_force_caesar (ciphertext : str) : list (Z * str) :=
  fold_left
    (fun candidates k =>
       let plaintext := decrypt ciphertext k in
       candidates ++ [(k, plaintext)])
    (range 0 26) [].

(** [text[:length]]: the slice stops at [length], counted from the end
    of the text when it is negative, and clipped to the text. *)
Definition excerpt (text : str) (length : Z) : str :=
  let n := Z.of_nat (List.length text) in
  let stop := if length <? 0 then Z.max (n + length) 0 else Z.min length n in
  firstn (Z.to_nat stop) text.

End Bruteforce.

(** ** Python floats *)

(** Binary64 arithmetic with round-to-nearest-even, as CPython's [float]
    performs it.  A decimal literal of the source denotes the double
    nearest to it; [fl] obtains that double as the correctly rounded
    quotient of the literal's digits by a power of ten (both are below
    [2^53], hence exact). *)
Module Float.

Abbreviation float := spec_float.

Definition prec : Z := 53.
Definition emax : Z := 1024.

Definition add : float -> float -> float := SFadd prec emax.
Definition sub : float -> float -> float := SFsub prec emax.
Definition mul : float -> float -> float := SFmul prec emax.
Definition div : float -> float -> float := SFdiv prec emax.
Definition neg : float -> float := SFopp.
Definition abs : float -> float := SFabs.
Definition ltb : float -> float -> bool := SFltb.
Definition leb : float -> float -> bool := SFleb.
Definition eqb : float -> float -> bool := SFeqb.

(** [float(z)] for a Python [int]. *)
Definition of_int (z : Z) : float := binary_normalize prec emax z 0 false.

Definition zero : float := S754_zero false.
Definition one : float := of_int 1.

(** A Python [int] as a binary number that is exact, whatever its
    size (the mantissa is not rounded to 53 bits). *)
Definition int_float (z : Z) : float :=
  match z with
  | Z0 => S754_zero false
  | Z.pos p => S754_finite false p 0
  | Z.neg p => S754_finite true p 0
  end.

(** [a / b] on two Python [int]s: the quotient of the two integers,
    rounded once.  A zero divisor raises in Python; the divisors of this
    program are lengths and counts that are checked to be positive. *)
Definition truediv (a b : Z) : float := div (int_float a) (int_float b).

Definition isnan (x : float) : bool :=
  match x with S754_nan => true | _ => false end.

Definition isinf (x : float) : bool :=
  match x with S754_infinity _ => true | _ => false end.

(** The two-argument built-ins [min(a, b)] and [max(a, b)]: the first
    argument is kept unless the second one compares strictly below
    (respectively above) it. *)
Definition py_min (a b : float) : float := if ltb b a then b else a.
Definition py_max (a b : float) : float := if ltb a b then b else a.

Fixpoint digits_value (acc : Z) (s : string) : Z :=
  match s with
  | EmptyString => acc
  | String a s' => digits_value (10 * acc + (Z.of_N (N_of_ascii a) - 48)) s'
  end.

Fixpoint split_dot (s : string) : string * string :=
  match s with
  | EmptyString => (EmptyString, EmptyString)
  | String a s' =>
      if Ascii.eqb a "."%char then (EmptyString, s')
      else let '(i, f) := split_dot s' in (String a i, f)
  end.

(** The double denoted by an unsigned decimal literal. *)
Definition fl (s : string) : float :=
  let '(i, f) := split_dot s in
  truediv (digits_value 0 (String.append i f)) (10 ^ Z.of_nat (String.length f)).

(** [round(x, ndigits)] for [ndigits >= 0]: the double nearest to the
    decimal that is the exact value of [x] rounded half-to-even at
    [ndigits] places (CPython goes through its shortest-decimal
    conversion and back).  Zeros, infinities, NaN and integral values
    are returned unchanged. *)
Definition round_half_even (num den : Z) : Z :=
  let q := num / den in
  let r := num mod den in
  match 2 * r ?= den with
  | Lt => q
  | Gt => q + 1
  | Eq => if Z.even q then q else q + 1
  end.

Definition round (x : float) (ndigits : Z) : float :=
  match x with
  | S754_finite s m e =>
      if 0 <=? e then x
      else
        let d := round_half_even (Z.pos m * 10 ^ ndigits) (2 ^ (- e)) in
        match d with
        | Z.pos p => div (S754_finite s p 0) (of_int (10 ^ ndigits))
        | _ => S754_zero s
        end
  | _ => x
  end.

End Float.
Import Float.

(** ** The Python runtime

    The parts of the interpreter and of its libraries that the program
    calls and that are no code of the repository: the Unicode tables
    behind [str] methods, the regular expression engine, the C library
    behind [math], and the order in which a [set] is iterated (which the
    language leaves unspecified). *)
Class PyRuntime := {
  (** [c.isalpha()] *)
  isalpha : char -> bool;
  (** the white space of [s.split()] and [s.strip()] *)
  isspace : char -> bool;
  (** membership in the class [\w] of [re] *)
  isword : char -> bool;
  (** [s.lower()] and [s.upper()] *)
  lower : str -> str;
  upper : str -> str;
  (** [re.findall(r'\b[a-z\u0080-\uFFFF]+\b', s)] *)
  findall_words : str -> list str;
  (** [math.exp], [math.log2] and [x ** y] on floats *)
  math_exp : float -> float;
  math_log2 : float -> float;
  float_pow : float -> float -> float;
  (** [for ch in s] on a set of strings *)
  set_iter : gset str -> list str;
}.

(** ** Built-in string and container operations *)
Section Builtins.
Context {rt : PyRuntime}.

(** [s.split()] *)
Fixpoint split_from (cur : str) (s : str) : list str :=
  match s with
  | [] => match cur with [] => [] | _ => [rev cur] end
  | c :: s' =>
      if isspace c then
        match cur with
        | [] => split_from [] s'
        | _ => rev cur :: split_from [] s'
        end
      else split_from (c :: cur) s'
  end.

Definition split (s : str) : list str := split_from [] s.

(** [s.strip()] *)
Fixpoint lstrip (s : str) : str :=
  match s with
  | [] => []
  | c :: s' => if isspace c then lstrip s' else s
  end.

Definition rstrip (s : str) : str := rev (lstrip (rev s)).
Definition strip (s : str) : str := rstrip (lstrip s).

(** [re.match(r'^[\w\u0080-\uFFFF]+$', s, re.UNICODE)] on a stripped
    string. *)
Definition match_word_token (s : str) : bool :=
  match s with
  | [] => false
  | _ => forallb (fun c => isword c || ((128 <=? c) && (c <=? 65535))) s
  end.

End Builtins.

(** [p in t] on strings. *)
Fixpoint is_prefix (p t : str) : bool :=
  match p, t with
  | [], _ => true
  | _ :: _, [] => false
  | a :: p', b :: t' => (a =? b) && is_prefix p' t'
  end.

Fixpoint contains (t p : str) : bool :=
  is_prefix p t ||
  match t with
  | [] => false
  | _ :: t' => contains t' p
  end.

(** [a <= b] on strings: lexicographic on code points. *)
Fixpoint str_leb (a b : str) : bool :=
  match a, b with
  | [], _ => true
  | _ :: _, [] => false
  | x :: a', y :: b' => (x <? y) || ((x =? y) && str_leb a' b')
  end.

(** [collections.Counter]: the counts of the elements of a sequence,
    in the order of their first occurrence. *)
Section Counter.
Context {A : Type} `{EqDecision A}.

Fixpoint counter_add (x : A) (c : list (A * Z)) : list (A * Z) :=
  match c with
  | [] => [(x, 1)]
  | (y, n) :: c' =>
      if decide (x = y) then (y, n + 1) :: c' else (y, n) :: counter_add x c'
  end.

Definition Counter (l : list A) : list (A * Z) :=
  fold_left (fun c x => counter_add x c) l [].

Fixpoint counter_get (c : list (A * Z)) (x : A) (d : Z) : Z :=
  match c with
  | [] => d
  | (y, n) :: c' => if decide (x = y) then n else counter_get c' x d
  end.

Definition counter_keys (c : list (A * Z)) : list A := List.map fst c.
Definition counter_values (c : list (A * Z)) : list Z := List.map snd c.

End Counter.

Definition sum_Z (l : list Z) : Z := fold_left Z.add l 0.
Definition len {A} (l : list A) : Z := Z.of_nat (List.length l).

(** ** crypto/scoring.py *)
Module Scoring.

Record Resources := {
  vocab : gset str;
  stopwords : gset str;
  bigrams : gmap str float;
  trigrams : gmap str float;
}.

(** Truth value of a set and of a dictionary: non-empty. *)
Definition set_truth (s : gset str) : bool := negb (bool_decide (s = ∅)).
Definition dict_truth (d : gmap str float) : bool := negb (bool_decide (d = ∅)).

Definition ENGLISH_LETTER_FREQ : gmap str float :=
  list_to_map
    [ (lit "a", fl "0.08167"); (lit "b", fl "0.01492"); (lit "c", fl "0.02782");
      (lit "d", fl "0.04253"); (lit "e", fl "0.12702"); (lit "f", fl "0.02228");
      (lit "g", fl "0.02015"); (lit "h", fl "0.06094"); (lit "i", fl "0.06966");
      (lit "j", fl "0.00153"); (lit "k", fl "0.00772"); (lit "l", fl "0.04025");
      (lit "m", fl "0.02406"); (lit "n", fl "0.06749"); (lit "o", fl "0.07507");
      (lit "p", fl "0.01929"); (lit "q", fl "0.00095"); (lit "r", fl "0.05987");
      (lit "s", fl "0.06327"); (lit "t", fl "0.09056"); (lit "u", fl "0.02758");
      (lit "v", fl "0.00978"); (lit "w", fl "0.02360"); (lit "x", fl "0.00150");
      (lit "y", fl "0.01974"); (lit "z", fl "0.00074") ].

Definition FRENCH_LETTER_FREQ : gmap str float :=
  list_to_map
    [ (lit "a", fl "0.07636"); (lit "b", fl "0.00901"); (lit "c", fl "0.03260");
      (lit "d", fl "0.03669"); (lit "e", fl "0.14715"); (lit "f", fl "0.01066");
      (lit "g", fl "0.00866"); (lit "h", fl "0.00737"); (lit "i", fl "0.07529");
      (lit "j", fl "0.00613"); (lit "k", fl "0.00049"); (lit "l", fl "0.05456");
      (lit "m", fl "0.02968"); (lit "n", fl "0.07110"); (lit "o", fl "0.05796");
      (lit "p", fl "0.02521"); (lit "q", fl "0.01362"); (lit "r", fl "0.06693");
      (lit "s", fl "0.07948"); (lit "t", fl "0.07244"); (lit "u", fl "0.06311");
      (lit "v", fl "0.01629"); (lit "w", fl "0.00074"); (lit "x", fl "0.00427");
      (lit "y", fl "0.00128"); (lit "z", fl "0.00326") ].

Definition common_patterns : list str :=
  List.map lit
    [ "th"; "he"; "in"; "er"; "an"; "re"; "ed"; "nd"; "ou"; "to"; "en"; "at";
      "it"; "is"; "or"; "ti"; "as"; "of"; "st"; "le"; "de"; "et"; "la"; "un";
      "es"; "nt"; "on"; "te" ]%string.

Section WithRuntime.
Context {rt : PyRuntime}.

(** *** Features *)

Definition stopwords_count (text : str) (stopwords : gset str) : Z :=
  if negb (set_truth stopwords) then 0
  else
    let words := findall_words (lower text) in
    len (List.filter (fun w => bool_decide (w ∈ stopwords)) words).

Definition valid_word_ratio (text : str) (vocabulary : gset str) : float :=
  if negb (set_truth vocabulary) then zero
  else
    let words := findall_words (lower text) in
    match words with
    | [] => zero
    | _ =>
        let valid := len (List.filter (fun w => bool_decide (w ∈ vocabulary)) words) in
        let ratio := truediv valid (len words) in
        if eqb ratio (fl "1.0") && (len words >? 0)
        then py_min (fl "1.0") (add ratio (fl "0.05"))
        else ratio
    end.

Definition ngram_likelihood (text : str) (ngrams : gmap str float) (n : Z) : float :=
  let text := lower text in
  fold_left
    (fun score i =>
       let g := firstn (Z.to_nat n) (skipn (Z.to_nat i) text) in
       add score (default (neg (fl "15.0")) (ngrams !! g)))
    (range 0 (len text - n + 1)) zero.

Definition character_entropy (text : str) : float :=
  let counts := Counter text in
  let total := sum_Z (counter_values counts) in
  fold_left
    (fun entropy c =>
       let p := truediv c total in
       sub entropy (mul p (math_log2 p)))
    (counter_values counts) zero.

(** *** Letter frequency / chi-squared *)

Definition detect_language_alphabet (text : str) : str :=
  let letters := List.filter isalpha text in
  match letters with
  | [] => lit "latin"
  | _ =>
      let latin_count :=
        len (List.filter
               (fun c => str_leb (lit "A") (upper [c]) && str_leb (upper [c]) (lit "Z"))
               letters) in
      lit "latin"
  end.

Definition get_letter_frequencies_for_alphabet (alphabet : str) : gmap str float :=
  ENGLISH_LETTER_FREQ.

(** The body of the loop over [all_letters]: the value of [chi2] after
    the iteration on [ch]. *)
Definition chi2_step (counts : list (str * Z)) (expected : gmap str float) (n : Z)
    (chi2 : float) (ch : str) : float :=
  let observed := counter_get counts ch 0 in
  let exp_freq := default zero (expected !! ch) in
  if ltb (of_int 0) exp_freq then
    let expected_count := mul exp_freq (of_int n) in
    if ltb (fl "0.01") expected_count then
      add chi2 (div (float_pow (sub (of_int observed) expected_count) (of_int 2))
                    expected_count)
    else if observed >? 0 then
      add chi2 (of_int (observed * 10))
    else chi2
  else chi2.

(** The lower-cased letters of the text and the set iterated upon. *)
Definition letters_of (text : str) : list str :=
  List.map (fun c => lower [c]) (List.filter isalpha text).

Definition all_letters_of (counts : list (str * Z)) (expected : gmap str float)
  : gset str :=
  list_to_set (counter_keys counts) ∪ dom expected.

(** [normalized_chi2], for a text that has letters. *)
Definition normalized_chi2_of (text : str) (expected : gmap str float) : float :=
  let letters := letters_of text in
  let n := len letters in
  let counts := Counter letters in
  let all_letters := all_letters_of counts expected in
  let chi2 := fold_left (chi2_step counts expected n) (set_iter all_letters) zero in
  let degrees_of_freedom := Z.max (Z.of_nat (size all_letters) - 1) 1 in
  if degrees_of_freedom >? 0 then div chi2 (of_int degrees_of_freedom) else chi2.

(** The map from the normalized statistic to the score before clamping. *)
Definition chi2_to_score (normalized_chi2 : float) : float :=
  if ltb normalized_chi2 (of_int 1) then fl "1.0"
  else if ltb normalized_chi2 (of_int 50) then
    math_exp (div (neg normalized_chi2) (fl "10.0"))
  else
    div (fl "1.0") (add (fl "1.0") (div normalized_chi2 (fl "100.0"))).

Definition chi_squared_letter_score (text : str) (expected : option (gmap str float))
  : float :=
  let expected :=
    match expected with
    | None =>
        let alphabet := detect_language_alphabet text in
        get_letter_frequencies_for_alphabet alphabet
    | Some e => e
    end in
  let letters := letters_of text in
  let n := len letters in
  if n =? 0 then fl "0.01"
  else
    let normalized_chi2 := normalized_chi2_of text expected in
    let score := chi2_to_score normalized_chi2 in
    py_max (fl "0.01") (py_min (fl "1.0") score).

Definition extract_features (text : str) (resources : Resources)
  : Z * float * float * float * float :=
  (stopwords_count text (stopwords resources),
   valid_word_ratio text (vocab resources),
   ngram_likelihood text (bigrams resources) 2,
   ngram_likelihood text (trigrams resources) 3,
   character_entropy text).

(** *** heuristic_score *)

(** Step 2 of [heuristic_score]: [ng_norm], on the lower-cased text. *)
Definition ng_norm_of (text : str) (bigrams trigrams : gmap str float) : float :=
  if dict_truth trigrams && (len text >=? 3) then
    let ng := ngram_likelihood text trigrams 3 in
    let num_trigrams := Z.max (len text - 2) 1 in
    let ng_avg := div ng (of_int num_trigrams) in
    if ltb (of_int (-3)) ng_avg then fl "1.0"
    else if ltb (of_int (-10)) ng_avg then
      py_max zero (add (fl "1.0") (div (add ng_avg (of_int 3)) (fl "7.0")))
    else zero
  else if dict_truth bigrams && (len text >=? 2) then
    let ng := ngram_likelihood text bigrams 2 in
    let num_bigrams := Z.max (len text - 1) 1 in
    let ng_avg := div ng (of_int num_bigrams) in
    if ltb (of_int (-2)) ng_avg then fl "1.0"
    else if ltb (of_int (-8)) ng_avg then
      py_max zero (add (fl "1.0") (div (add ng_avg (of_int 2)) (fl "6.0")))
    else zero
  else zero.

(** Step 3: [freq_score], on the lower-cased text. *)
Definition freq_score_of (text : str) : float :=
  chi_squared_letter_score text None.

(** Step 4: [ent_score]. *)
Definition ent_score_of (text : str) : float :=
  let letters_only := List.filter isalpha text in
  if len letters_only >? 0 then
    let ent := character_entropy letters_only in
    py_max zero (sub (fl "1.0") (div (abs (sub ent (fl "4.0"))) (fl "2.0")))
  else zero.

(** Step 5: [pattern_count] and [pattern_score]; [text] is the
    lower-cased text and [length] is [max(len(text), 1)]. *)
Definition pattern_count_of (text : str) : Z :=
  let text_lower := lower text in
  len (List.filter (fun pattern => contains text_lower pattern) common_patterns).

Definition pattern_score_of (text : str) (length : Z) : float :=
  let pattern_count := pattern_count_of text in
  if length >? 0 then
    py_min (fl "1.0")
           (div (of_int pattern_count) (py_max (truediv length 20) (of_int 1)))
  else zero.

(** The local variables of [heuristic_score] before the weighting. *)
Record signals := {
  h_vr : float;
  h_sw_norm : float;
  h_ng_norm : float;
  h_freq_score : float;
  h_ent_score : float;
  h_pattern_score : float;
  h_is_single_word : bool;
  h_is_short : bool;
}.

(** Steps 1 to 5. *)
Definition heuristic_signals (text : str) (resources : Resources) : signals :=
  let text := lower text in
  let length := Z.max (len text) 1 in
  let words := split text in
  let word_count := len words in
  let vocab := vocab resources in
  let bigrams := bigrams resources in
  let trigrams := trigrams resources in
  let stopwords := stopwords resources in
  (* 1: word-based features *)
  let vr := if set_truth vocab then valid_word_ratio text vocab else zero in
  let sw := stopwords_count text stopwords in
  let sw_norm :=
    if word_count >? 0
    then py_min (truediv sw (Z.max word_count 1)) (fl "1.0")
    else zero in
  {| h_vr := vr;
     h_sw_norm := sw_norm;
     (* 2: n-gram likelihood *)
     h_ng_norm := ng_norm_of text bigrams trigrams;
     (* 3: letter frequency score *)
     h_freq_score := freq_score_of text;
     (* 4: entropy score *)
     h_ent_score := ent_score_of text;
     (* 5: pattern recognition *)
     h_pattern_score := pattern_score_of text length;
     h_is_single_word := word_count =? 1;
     h_is_short := length <? 30 |}.

(** Step 6: the length-aware weighting and the final clamp. *)
Definition weighted_score (s : signals) : float :=
  let freq_score := h_freq_score s in
  let vr := h_vr s in
  let pattern_score := h_pattern_score s in
  let ent_score := h_ent_score s in
  let ng_norm := h_ng_norm s in
  let sw_norm := h_sw_norm s in
  let score :=
    if h_is_single_word s then
      add (add (add (mul (fl "0.50") freq_score) (mul (fl "0.30") vr))
               (mul (fl "0.15") pattern_score))
          (mul (fl "0.05") ent_score)
    else if h_is_short s then
      add (add (add (add (mul (fl "0.35") freq_score) (mul (fl "0.30") vr))
                    (mul (fl "0.20") ng_norm))
               (mul (fl "0.10") sw_norm))
          (mul (fl "0.05") ent_score)
    else
      add (add (add (add (mul (fl "0.40") vr) (mul (fl "0.30") ng_norm))
                    (mul (fl "0.15") freq_score))
               (mul (fl "0.10") sw_norm))
          (mul (fl "0.05") ent_score) in
  py_min (fl "1.0") (py_max (fl "0.01") score).

Definition heuristic_score (text : str) (resources : Resources) : float :=
  weighted_score (heuristic_signals text resources).

End WithRuntime.
End Scoring.

(** ** app.py *)
Module App.
Import Caesar Bruteforce Scoring.

(** The JSON body of a request: the two fields that [analyze] reads,
    each a string when present. *)
Record request := {
  cipherText : option str;
  lang : option str;
}.

Record candidate := {
  key : Z;
  plaintext : str;
  score : float;
}.

(** The JSON response with its HTTP status (200 for [Ok]). *)
Inductive response :=
| Ok (cipher : str) (best_key : Z) (plainText : str) (best_score : float)
     (candidates : list candidate)
| Error (message : str) (status : Z).

(** The lines that [analyze] prints with the prefix DEBUG (lines 144,
    193 and 232). *)
Inductive event :=
| DebugScores (k : Z) (h_score word_score freq_score : float)
| DebugFinal (k : Z) (final_score : float)
| DebugTop5 (scores : list (Z * float)).

Definition COMMON_WORDS (lang : str) : gset str :=
  if bool_decide (lang = lit "fr") then
    list_to_set
      (List.map lit
         [ "le"; "la"; "et"; "de"; "un"; "bonjour"; "je"; "tu"; "il"; "elle";
           "nous"; "vous"; "message"; "secret"; "mot"; "texte"; "code" ]%string)
  else
    list_to_set
      (List.map lit
         [ "the"; "and"; "is"; "to"; "of"; "you"; "hello"; "that"; "in"; "it";
           "dog"; "cat"; "this"; "message"; "secret"; "word"; "text"; "code" ]%string).

(** [candidates.sort(key=lambda x: x['score'], reverse=True)]: the
    stable sort of the list, highest score first.  [insert_desc x l]
    puts [x], which precedes the elements of [l] in the original list,
    after the elements of [l] whose score is strictly above its own. *)
Fixpoint insert_desc (x : candidate) (l : list candidate) : list candidate :=
  match l with
  | [] => [x]
  | y :: l' => if ltb (score x) (score y) then y :: insert_desc x l' else x :: l
  end.

Definition sort_desc (l : list candidate) : list candidate :=
  fold_right insert_desc [] l.

(** Lines 150-177: the score of a candidate from its three signals. *)
Definition combine_scores (is_single_word is_dict_match : bool)
    (h_score word_score freq_score : float) : float :=
  if is_single_word then
    if is_dict_match then
      add (fl "0.95") (mul freq_score (fl "0.05"))
    else
      let score := add (mul freq_score (fl "0.65")) (mul h_score (fl "0.35")) in
      if ltb score (fl "0.2") then mul score (fl "0.3") else score
  else
    if ltb (fl "0.7") word_score then
      add (add (mul word_score (fl "0.55")) (mul h_score (fl "0.30")))
          (mul freq_score (fl "0.15"))
    else if ltb (fl "0.4") word_score then
      add (add (mul word_score (fl "0.45")) (mul h_score (fl "0.35")))
          (mul freq_score (fl "0.20"))
    else if ltb (of_int 0) word_score then
      add (add (mul word_score (fl "0.30")) (mul h_score (fl "0.40")))
          (mul freq_score (fl "0.30"))
    else
      add (mul freq_score (fl "0.55")) (mul h_score (fl "0.45")).

(** Lines 179-189: from the computed score to the score that is output. *)
Definition final_score_of (score : float) : float :=
  let score :=
    if isnan score || isinf score || ltb score (of_int 0)
    then fl "0.01" else score in
  let score := py_max (fl "0.01") score in
  let final_score := round score 4 in
  if leb final_score zero then fl "0.0001" else final_score.

(** Lines 223-229 and 234-236: a score that is not positive is replaced
    before it is sent. *)
Definition sent_score (score_val : float) : float :=
  if leb score_val zero then fl "0.0001" else score_val.

Section WithRuntime.
Context {rt : PyRuntime}.

(** The body of the loop over the candidates (no operation of the body
    raises, so the handler of the loop is never entered). *)
Definition score_candidate (resources : Resources) (augmented_vocab : gset str)
    (expected_freq : gmap str float) (is_single_word : bool)
    (k : Z) (plaintext : str) : candidate * list event :=
  let h_score := heuristic_score plaintext resources in
  let word_score :=
    if set_truth augmented_vocab
    then valid_word_ratio plaintext augmented_vocab else zero in
  let freq_score := chi_squared_letter_score plaintext (Some expected_freq) in
  let out1 := if k =? 0 then [DebugScores k h_score word_score freq_score] else [] in
  let plaintext_lower := lower (strip plaintext) in
  let is_dict_match := bool_decide (plaintext_lower ∈ augmented_vocab) in
  let score := combine_scores is_single_word is_dict_match h_score word_score freq_score in
  let final_score := final_score_of score in
  let out2 := if k =? 0 then [DebugFinal k final_score] else [] in
  ({| key := k; plaintext := plaintext; score := final_score |}, out1 ++ out2).

(** [analyze]: the response and the DEBUG lines printed while it is
    computed.  [get_resources] is the cache of lexical resources, read
    per language; the line that it prints itself when a load fails
    (lines 63-65) is no DEBUG line and is not in the list. *)
Definition analyze (get_resources : str -> Resources) (req : request)
  : response * list event :=
  let cipher_text := strip (default [] (cipherText req)) in
  let lang := default (lit "en") (lang req) in
  match cipher_text with
  | [] => (Error (lit "Empty cipher text") 400, [])
  | _ =>
      let lang :=
        if bool_decide (lang = lit "en") || bool_decide (lang = lit "fr")
        then lang else lit "en" in
      let resources := get_resources lang in
      let vocab := vocab resources in
      let words := split cipher_text in
      let is_single_word := (len words =? 1) && match_word_token cipher_text in
      let detected_alphabet := detect_language_alphabet cipher_text in
      let common_aug := COMMON_WORDS lang in
      let augmented_vocab : gset str := set_map lower vocab ∪ common_aug in
      let expected_freq :=
        if bool_decide (lang = lit "fr")
        then FRENCH_LETTER_FREQ else ENGLISH_LETTER_FREQ in
      let '(candidates, out) :=
        fold_left
          (fun '(candidates, out) '(k, plaintext) =>
             let '(c, o) :=
               score_candidate resources augmented_vocab expected_freq
                               is_single_word k plaintext in
             (candidates ++ [c], out ++ o))
          (brute_force_caesar cipher_text) ([], []) in
      match candidates with
      | [] => (Error (lit "No candidates generated") 500, out)
      | _ =>
          let candidates := sort_desc candidates in
          let top_5 :=
            List.map
              (fun c => {| key := key c; plaintext := plaintext c;
                           score := sent_score (score c) |})
              (firstn 5 candidates) in
          let out := out ++ [DebugTop5 (List.map (fun c => (key c, score c)) top_5)] in
          match top_5 with
          | [] => (Error (lit "list index out of range") 500, out)
          | best :: _ =>
              let best_score := sent_score (score best) in
              (Ok (firstn 500 cipher_text) (key best) (firstn 500 (plaintext best))
                  best_score top_5, out)
          end
      end
  end.

End WithRuntime.
End App.

(** ** crypto/frequency.py *)
Module Frequency.
Import Caesar.

(** [max(freqs, key=freqs.get)] after the first key: a later key
    replaces the best one only when its value is strictly above. *)
Fixpoint argmax (best : char * float) (l : list (char * float)) : char :=
  match l with
  | [] => fst best
  | x :: l' => if ltb (snd best) (snd x) then argmax x l' else argmax best l'
  end.

Section WithRuntime.
Context {rt : PyRuntime}.

(** The dictionary [freqs], its keys in the order in which the letters
    first occur. *)
Definition letter_frequency (text : str) (alphabet_only : bool)
  : list (char * float) :=
  let text := upper text in
  let text := if alphabet_only then List.filter isalpha text else text in
  let total := len text in
  let counts := Counter text in
  if total >? 0
  then List.map (fun cn => (fst cn, truediv (snd cn) total)) counts
  else [].

Definition best_key_by_frequency (ciphertext : str) (language : str) : Z :=
  let freqs := letter_frequency ciphertext true in
  match freqs with
  | [] => 0
  | first :: rest =>
      let Lmax := argmax first rest in
      let ref_letter :=
        if bool_decide (upper language = lit "EN")
           || bool_decide (upper language = lit "FR")
        then 69 else 69 in
      (ord Lmax - ord ref_letter) mod 26
  end.

Definition decrypt_with_frequency (ciphertext : str) (language : str)
  : str * Z :=
  let k := best_key_by_frequency ciphertext language in
  (decrypt ciphertext k, k).

End WithRuntime.
End Frequency.

(** ** A runtime for the examples

    A concrete [PyRuntime] on which the definitions above can be run.
    Its character tables are CPython's on the code points below 256,
    which the examples stay within; [exp] and [log2] are evaluated by
    their series in binary64 (close to, but not bit for bit, the C
    library's results); sets are iterated in the order of [elements]. *)
Module ExampleRuntime.

Definition between (lo hi c : Z) : bool := (lo <=? c) && (c <=? hi).

Definition ex_isalpha (c : char) : bool :=
  between 65 90 c || between 97 122 c || (c =? 170) || (c =? 181) || (c =? 186)
  || between 192 214 c || between 216 246 c || between 248 255 c.

Definition ex_isspace (c : char) : bool :=
  between 9 13 c || between 28 32 c || (c =? 133) || (c =? 160).

Definition ex_isword (c : char) : bool :=
  ex_isalpha c || between 48 57 c || (c =? 95)
  || (c =? 178) || (c =? 179) || (c =? 185) || between 188 190 c.

Definition lower_char (c : char) : char :=
  if between 65 90 c || between 192 214 c || between 216 222 c then c + 32 else c.

Definition upper_char (c : char) : str :=
  if between 97 122 c || between 224 246 c || between 248 254 c then [c - 32]
  else if c =? 255 then [376]
  else if c =? 181 then [924]
  else if c =? 223 then [83; 83]
  else [c].

Definition ex_lower (s : str) : str := List.map lower_char s.
Definition ex_upper (s : str) : str := List.flat_map upper_char s.

(** [re.findall(r'\b[a-z\u0080-\uFFFF]+\b', s)]: from the left, the
    longest run of characters of the class that starts and ends at a
    word boundary. *)
Definition in_class (c : char) : bool := between 97 122 c || between 128 65535 c.

Definition is_word_opt (c : option char) : bool :=
  match c with Some c => ex_isword c | None => false end.

(** The longest non-empty prefix of [s] made of class characters that
    ends at a word boundary, with what follows it; [last] is the
    character before [s]. *)
Fixpoint longest_token (last : option char) (s : str) : option (str * str) :=
  match s with
  | [] => None
  | c :: s' =>
      if in_class c then
        match longest_token (Some c) s' with
        | Some (tok, rest) => Some (c :: tok, rest)
        | None =>
            if xorb (ex_isword c) (is_word_opt (head s')) then Some ([c], s') else None
        end
      else None
  end.

Fixpoint findall_from (fuel : nat) (prev : option char) (s : str) : list str :=
  match fuel, s with
  | O, _ | _, [] => []
  | S fuel', c :: s' =>
      let skip := findall_from fuel' (Some c) s' in
      if xorb (is_word_opt prev) (ex_isword c) then
        match longest_token prev s with
        | Some (tok, rest) => tok :: findall_from fuel' (last tok) rest
        | None => skip
        end
      else skip
  end.

Definition ex_findall_words (s : str) : list str :=
  findall_from (List.length s) None s.

(** [exp x] as the sum of sixty terms of its series. *)
Fixpoint exp_series (n : nat) (k : Z) (term acc : float) (x : float) : float :=
  match n with
  | O => acc
  | S n' =>
      let term' := div (mul term x) (of_int k) in
      exp_series n' (k + 1) term' (add acc term') x
  end.

Definition ex_exp (x : float) : float :=
  match x with
  | S754_nan => S754_nan
  | S754_infinity true => zero
  | S754_infinity false => x
  | _ => exp_series 60 1 one one x
  end.

(** [log2 x] for a positive finite [x = y * 2^k] with [y] in [[1/2, 1)]:
    [k + 2 * atanh ((y - 1) / (y + 1)) / ln 2], by the series of
    [atanh]. *)
Fixpoint atanh_series (n : nat) (k : Z) (pow z2 acc : float) : float :=
  match n with
  | O => acc
  | S n' =>
      let pow' := mul pow z2 in
      atanh_series n' (k + 2) pow' z2 (add acc (div pow' (of_int k)))
  end.

Definition ln2 : float := fl "0.6931471805599453".

Definition ex_log2 (x : float) : float :=
  match x with
  | S754_finite false m e =>
      let d := Z.pos (digits2_pos m) in
      let y := S754_finite false m (- d) in
      let z := div (sub y one) (add y one) in
      let a := atanh_series 40 3 z (mul z z) z in
      add (of_int (e + d)) (div (mul (of_int 2) a) ln2)
  | S754_zero _ => S754_infinity true
  | S754_infinity false => x
  | _ => S754_nan
  end.

(** [x ** y]; the program only squares. *)
Definition ex_pow (x y : float) : float :=
  if eqb y (of_int 2) then mul x x else S754_nan.

#[export] Instance example_runtime : PyRuntime := {|
  isalpha := ex_isalpha;
  isspace := ex_isspace;
  isword := ex_isword;
  lower := ex_lower;
  upper := ex_upper;
  findall_words := ex_findall_words;
  math_exp := ex_exp;
  math_log2 := ex_log2;
  float_pow := ex_pow;
  set_iter := elements;
|}.

End ExampleRuntime.


(** ** Notions used in the statements

    The order and the sign of binary64 numbers read off their
    representation, the reading of the pattern feature that the
    specification words, and names for the stages of [analyze]. *)
Module Spec.
Import Scoring App.

(** A number that is not NaN is ranked by its class, then its exponent,
    then its mantissa; [SFcompare] is the lexicographic comparison of
    the ranks. *)
Definition rank (x : float) : option (Z * Z * Z) :=
  match x with
  | S754_nan => None
  | S754_infinity true => Some (-2, 0, 0)
  | S754_finite true m e => Some (-1, - e, Z.neg m)
  | S754_zero _ => Some (0, 0, 0)
  | S754_finite false m e => Some (1, e, Z.pos m)
  | S754_infinity false => Some (2, 0, 0)
  end.

Definition lex3 (a b : Z * Z * Z) : comparison :=
  let '(a1, a2, a3) := a in
  let '(b1, b2, b3) := b in
  match a1 ?= b1 with
  | Eq => match a2 ?= b2 with Eq => a3 ?= b3 | c => c end
  | c => c
  end.

(** The sign bit is clear, or the number is NaN. *)
Definition sign_clear (x : float) : bool :=
  match x with
  | S754_zero s | S754_infinity s | S754_finite s _ _ => negb s
  | S754_nan => true
  end.

(** *** Rounding *)

(** The exponent of the format for a number of a given magnitude. *)
Definition fexp64 (e : Z) : Z := SpecFloat.fexp prec emax e.


(** A shifted mantissa that lost no bit. *)
Definition exact_record (r : shr_record) : bool := negb (shr_r r) && negb (shr_s r).


(** What [binary_round_aux] returns, from the mantissa [m2] it settles
    on at the exponent [E1]: a mantissa of 54 bits is [2^53] and moves
    to the next exponent. *)
Definition round_result (s : bool) (m2 E1 : Z) : float :=
  if m2 =? 0 then S754_zero s
  else if m2 <? 2 ^ 53 then
    if E1 <=? 971 then S754_finite s (Z.to_pos m2) E1 else S754_infinity s
  else
    if E1 + 1 <=? 971 then S754_finite s (Z.to_pos (2 ^ 52)) (E1 + 1)
    else S754_infinity s.

(** The mantissa of a rounded result fits 53 bits. *)
Definition fits (x : float) : bool :=
  match x with
  | S754_finite _ m _ => Z.pos m <? 2 ^ 53
  | _ => true
  end.

(** A normal positive number of the format. *)
Definition normal (x : float) : bool :=
  match x with
  | S754_finite false m e =>
      (2 ^ 52 <=? Z.pos m) && (Z.pos m <? 2 ^ 53) && (-1074 <=? e) && (e <=? 971)
  | _ => false
  end.

(** [x] is NaN, or it is at least 0, at most [B], and its mantissa
    fits. *)
Definition bounded_by (B x : float) : Prop :=
  x = S754_nan \/ (sign_clear x = true /\ fits x = true /\ leb x B = true).

(** The exact sum of [A] and [B] is at most [C]. *)
Definition sum_le (A B C : float) : bool :=
  match A, B, C with
  | S754_finite false mA eA, S754_finite false mB eB, S754_finite false mC eC =>
      let j := Z.min eA eB in
      (eA <=? eC) && (eB <=? eC)
      && (Z.pos mA * 2 ^ (eA - j) + Z.pos mB * 2 ^ (eB - j) <=? Z.pos mC * 2 ^ (eC - j))
  | _, _, _ => false
  end.

Definition one_f : float := S754_finite false 4503599627370496 (-52).

(** 1.0 and the next number of the format. *)
Definition one_up : float := S754_finite false 4503599627370497 (-52).

(** A score in the half-open unit interval. *)
Definition unit_score (x : float) : bool := ltb zero x && leb x (fl "1.0").

(** The quotients by 10000 that [round] can return for a score: all
    those of 1 to 10000 are in (0, 1], and those from 9500 on are at
    least 0.95. *)
Definition rounded_quotient (p : positive) : float :=
  div (S754_finite false p 0) (of_int (10 ^ 4)).

Definition quotient_ok (z : Z) : bool :=
  match z with
  | Z.pos p =>
      unit_score (rounded_quotient p)
      && ((z <? 9500) || leb (fl "0.95") (rounded_quotient p))
  | _ => true
  end.

(** The final clamp of [chi_squared_letter_score]. *)
Definition clamp (score : float) : float :=
  py_max (fl "0.01") (py_min (fl "1.0") score).

(** The table a call works with. *)
Definition table_of (expected : option (gmap str float)) : gmap str float :=
  match expected with None => ENGLISH_LETTER_FREQ | Some e => e end.

(** *** The pattern feature *)

(** The number of positions of [t] at which [p] occurs. *)
Fixpoint occurrences (t p : str) : Z :=
  (if is_prefix p t then 1 else 0) +
  match t with
  | [] => 0
  | _ :: t' => occurrences t' p
  end.

(** The count as the specification words it: the occurrences of every
    entry of the list, added up. *)
Definition total_occurrences (t : str) : Z :=
  sum_Z (List.map (occurrences t) common_patterns).

(** The count as the code takes it: the entries that occur. *)
Definition entries_present (t : str) : Z :=
  len (List.filter (fun p => 0 <? occurrences t p) common_patterns).


(** *** The stages of [analyze] *)

Section WithRuntime.
Context {rt : PyRuntime}.

(** The stripped [cipherText] of a request and the language that
    [analyze] settles on. *)
Definition request_text (req : request) : str :=
  strip (default [] (cipherText req)).

Definition request_lang (req : request) : str :=
  let lang := default (lit "en") (lang req) in
  if bool_decide (lang = lit "en") || bool_decide (lang = lit "fr")
  then lang else lit "en".

(** The candidates as the loop of [analyze] scores them, before the
    sort. *)
Definition scored_candidates (get_resources : str -> Resources) (req : request)
  : list candidate :=
  let cipher_text := request_text req in
  let lang := request_lang req in
  let resources := get_resources lang in
  List.map
    (fun kp =>
       fst (score_candidate resources
              (set_map lower (vocab resources) ∪ COMMON_WORDS lang)
              (if bool_decide (lang = lit "fr")
               then FRENCH_LETTER_FREQ else ENGLISH_LETTER_FREQ)
              ((len (split cipher_text) =? 1) && match_word_token cipher_text)
              (fst kp) (snd kp)))
    (Bruteforce.brute_force_caesar cipher_text).

(** What the proofs ask of the C library: [math.exp] returns a number
    whose mantissa fits the 53 bits of the format. *)
Definition exp_returns_double : Prop := forall x, fits (math_exp x) = true.

End WithRuntime.

(** The score with which a ranked candidate is sent. *)
Definition sent (c : candidate) : candidate :=
  {| key := key c; plaintext := plaintext c; score := sent_score (score c) |}.

(** The relations of the ranking: [a] may stand before [b]. *)
Definition score_desc (a b : candidate) : Prop := leb (score b) (score a) = true.
Definition ties_by_key (a b : candidate) : Prop :=
  eqb (score a) (score b) = true -> key a < key b.



(** Empty lexical resources and a request, for the examples. *)
Definition no_resources (lang : str) : Resources :=
  {| vocab := ∅; stopwords := ∅; bigrams := ∅; trigrams := ∅ |}.

Definition example_request : request :=
  {| cipherText := Some (lit "Khoor"); lang := None |}.

(** A single token that ends in a full stop, and resources whose word
    list has the entry "message." (a line of the word list is kept as
    it is, apart from its case and the white space around it). *)
Definition punctuated_resources (lang : str) : Resources :=
  {| vocab := {[ lit "message." ]}; stopwords := ∅; bigrams := ∅; trigrams := ∅ |}.

Definition punctuated_request : request :=
  {| cipherText := Some (lit "phvvdjh."); lang := None |}.

End Spec.
(** * Properties of the shift transform *)
Module CaesarFacts.
Import Caesar.

Example test_simple_shift :
  encrypt (lit "abc") 3 = lit "def" /\ decrypt (lit "def") 3 = lit "abc".
Proof. split; reflexivity. Qed.

Example test_punctuation_unchanged :
  encrypt (lit "Hello, world! 123.") 5 = lit "Mjqqt, btwqi! 123.".
Proof. reflexivity. Qed.

Example test_upper_and_lower_case :
  encrypt (lit "AbC xYz") 2 = lit "CdE zAb".
Proof. reflexivity. Qed.

(** The shifted character of a letter is a letter of the same case, so
    the argument of [chr] is always a valid code point. *)
Lemma shift_char_range c k :
  ((65 <=? c) && (c <=? 90) = true -> 65 <= _shift_char c k <= 90) /\
  ((97 <=? c) && (c <=? 122) = true -> 97 <= _shift_char c k <= 122).
Proof.
  unfold _shift_char, ord, chr.
  destruct ((65 <=? c) && (c <=? 90)) eqn:Hu;
    destruct ((97 <=? c) && (c <=? 122)) eqn:Hl; split; intros H;
    try discriminate; cbv zeta;
    pose proof (Z.mod_pos_bound (c - 65 + k) 26 ltac:(lia));
    pose proof (Z.mod_pos_bound (c - 97 + k) 26 ltac:(lia)); lia.
Qed.

Lemma shift_upper c k :
  65 <= c <= 90 -> _shift_char c k = (c - 65 + k) mod 26 + 65.
Proof.
  intros H. unfold _shift_char, ord, chr.
  replace ((65 <=? c) && (c <=? 90)) with true by lia. reflexivity.
Qed.

Lemma shift_lower c k :
  97 <= c <= 122 -> _shift_char c k = (c - 97 + k) mod 26 + 97.
Proof.
  intros H. unfold _shift_char, ord, chr.
  replace ((65 <=? c) && (c <=? 90)) with false by lia.
  replace ((97 <=? c) && (c <=? 122)) with true by lia. reflexivity.
Qed.

Lemma shift_other c k :
  ~ 65 <= c <= 90 -> ~ 97 <= c <= 122 -> _shift_char c k = c.
Proof.
  intros Hu Hl. unfold _shift_char.
  replace ((65 <=? c) && (c <=? 90)) with false by lia.
  replace ((97 <=? c) && (c <=? 122)) with false by lia. reflexivity.
Qed.

Lemma mod26_compose a k j :
  (((a + k) mod 26 + j) mod 26) = (a + (k + j) mod 26) mod 26.
Proof.
  rewrite Zplus_mod_idemp_l, Zplus_mod_idemp_r. f_equal. lia.
Qed.

(** Shifting by [k] and then by [j] is shifting by [k + j]. *)
Lemma shift_char_compose c k j :
  _shift_char (_shift_char c k) j = _shift_char c ((k + j) mod 26).
Proof.
  destruct (shift_char_range c k) as [Hu Hl].
  destruct (Z_le_dec 65 c) as [H1|H1], (Z_le_dec c 90) as [H2|H2];
    try (destruct (Z_le_dec 97 c) as [H3|H3], (Z_le_dec c 122) as [H4|H4]);
    try lia.
  all: try (rewrite (shift_other c k), !shift_other by lia; reflexivity).
  - specialize (Hu ltac:(lia)).
    rewrite (shift_upper (_shift_char c k)) by lia.
    rewrite !(shift_upper c) by lia.
    replace ((c - 65 + k) mod 26 + 65 - 65 + j) with ((c - 65 + k) mod 26 + j) by lia.
    rewrite mod26_compose. reflexivity.
  - specialize (Hl ltac:(lia)).
    rewrite (shift_lower (_shift_char c k)) by lia.
    rewrite !(shift_lower c) by lia.
    replace ((c - 97 + k) mod 26 + 97 - 97 + j) with ((c - 97 + k) mod 26 + j) by lia.
    rewrite mod26_compose. reflexivity.
Qed.

Lemma shift_char_zero c : _shift_char c 0 = c.
Proof.
  unfold _shift_char, ord, chr.
  destruct ((65 <=? c) && (c <=? 90)) eqn:Eu;
    [| destruct ((97 <=? c) && (c <=? 122)) eqn:El]; cbv zeta; trivial.
  - rewrite Z.add_0_r, Z.mod_small; lia.
  - rewrite Z.add_0_r, Z.mod_small; lia.
Qed.

Lemma encrypt_zero x : encrypt x 0 = x.
Proof.
  unfold encrypt. cbv zeta. change (0 mod 26) with 0.
  induction x as [|c x IH]; simpl; [reflexivity|].
  rewrite shift_char_zero. f_equal. exact IH.
Qed.

(** [decrypt] undoes [encrypt] for every integer key, in particular the
    negative keys and the keys above 26 that [encrypt] accepts. *)
Lemma decrypt_encrypt_any x k : decrypt (encrypt x k) k = x.
Proof.
  unfold decrypt, encrypt. cbv zeta.
  rewrite List.map_map.
  induction x as [|c x IH]; simpl; [reflexivity|].
  rewrite IH. f_equal.
  rewrite shift_char_compose.
  replace ((k mod 26 + (- k) mod 26) mod 26) with 0.
  - apply shift_char_zero.
  - rewrite <- Zplus_mod. replace (k + - k) with 0 by lia. reflexivity.
Qed.

(** C1.  For every text [x] and every key [k] in [0,25], decrypting the
    encryption of [x] under [k] gives [x] back, and encrypting with the
    key 0 leaves [x] unchanged. *)
Theorem caesar_round_trip (x : str) (k : Z) :
  0 <= k <= 25 ->
  decrypt (encrypt x k) k = x /\ encrypt x 0 = x.
Proof.
  intros _. split; [apply decrypt_encrypt_any | apply encrypt_zero].
Qed.

Lemma caesar_round_trip_witness :
  0 <= 5 <= 25 /\
  (decrypt (encrypt (lit "Hello, world! 123.") 5) 5 = lit "Hello, world! 123." /\
   encrypt (lit "Hello, world! 123.") 0 = lit "Hello, world! 123.").
Proof.
  split; [lia | apply (caesar_round_trip (lit "Hello, world! 123.") 5); lia].
Defined.

End CaesarFacts.

(** * Properties of the candidate generator *)
Module BruteforceFacts.
Import Caesar Bruteforce.

Lemma append_loop {A B} (f : A -> B) (ks : list A) (acc : list B) :
  fold_left (fun candidates k => candidates ++ [f k]) ks acc = acc ++ List.map f ks.
Proof.
  revert acc. induction ks as [|k ks IH]; intros acc; simpl.
  - symmetry. apply app_nil_r.
  - rewrite IH, <- app_assoc. reflexivity.
Qed.

Lemma brute_force_caesar_map ciphertext :
  brute_force_caesar ciphertext
  = List.map (fun k => (k, decrypt ciphertext k)) (range 0 26).
Proof.
  unfold brute_force_caesar.
  apply (append_loop (fun k => (k, decrypt ciphertext k))).
Qed.

(** C2.  For every input, the empty string included, the generator
    returns exactly 26 pairs, their keys are 0, 1, ..., 25 in this order,
    and the plaintext of each pair is the ciphertext decrypted with the
    key of the pair. *)
Theorem brute_force_caesar_spec (ciphertext : str) :
  List.length (brute_force_caesar ciphertext) = 26%nat /\
  List.map fst (brute_force_caesar ciphertext)
  = [0; 1; 2; 3; 4; 5; 6; 7; 8; 9; 10; 11; 12; 13; 14; 15; 16; 17; 18; 19;
     20; 21; 22; 23; 24; 25] /\
  List.Forall (fun c => snd c = decrypt ciphertext (fst c))
              (brute_force_caesar ciphertext).
Proof.
  rewrite brute_force_caesar_map. split; [|split].
  - reflexivity.
  - rewrite List.map_map. reflexivity.
  - apply List.Forall_forall. intros [k p] Hin.
    apply List.in_map_iff in Hin. destruct Hin as [k' [E _]].
    inversion E; subst. reflexivity.
Qed.

Example brute_force_empty :
  brute_force_caesar [] = List.map (fun k => (k, [])) (range 0 26).
Proof. reflexivity. Qed.

End BruteforceFacts.
(** * The order of binary64 numbers *)
Module FloatOrder.
Import Spec.

Lemma compare_rank x y :
  SFcompare x y =
  match rank x, rank y with
  | Some a, Some b => Some (lex3 a b)
  | _, _ => None
  end.
Proof.
  destruct x as [[]|[]| |[] mx ex], y as [[]|[]| |[] my ey]; try reflexivity;
    cbn [SFcompare rank lex3]; f_equal.
  change (-1 ?= -1) with Eq. cbv iota.
  rewrite Z.compare_opp, (Z.compare_antisym ex ey).
  destruct (ex ?= ey); reflexivity.
Qed.

Lemma lex3_refl a : lex3 a a = Eq.
Proof. destruct a as [[a1 a2] a3]. cbn. rewrite !Z.compare_refl. reflexivity. Qed.

Lemma lex3_eq a b : lex3 a b = Eq -> a = b.
Proof.
  destruct a as [[a1 a2] a3], b as [[b1 b2] b3]. cbn.
  destruct (Z.compare_spec a1 b1); try discriminate.
  destruct (Z.compare_spec a2 b2); try discriminate.
  destruct (Z.compare_spec a3 b3); try discriminate.
  intros _. congruence.
Qed.

Lemma lex3_antisym a b : lex3 b a = CompOpp (lex3 a b).
Proof.
  destruct a as [[a1 a2] a3], b as [[b1 b2] b3]. cbn.
  rewrite (Z.compare_antisym a1 b1), (Z.compare_antisym a2 b2),
    (Z.compare_antisym a3 b3).
  destruct (a1 ?= b1), (a2 ?= b2), (a3 ?= b3); reflexivity.
Qed.

Lemma lex3_lt_trans a b c : lex3 a b = Lt -> lex3 b c <> Gt -> lex3 a c = Lt.
Proof.
  destruct a as [[a1 a2] a3], b as [[b1 b2] b3], c as [[c1 c2] c3]. cbn.
  destruct (Z.compare_spec a1 b1), (Z.compare_spec b1 c1),
    (Z.compare_spec a2 b2), (Z.compare_spec b2 c2),
    (Z.compare_spec a3 b3), (Z.compare_spec b3 c3);
    intros Hab Hbc; try discriminate; try congruence;
    destruct (Z.compare_spec a1 c1); try lia;
    destruct (Z.compare_spec a2 c2); try lia;
    destruct (Z.compare_spec a3 c3); try lia; reflexivity.
Qed.

Lemma lex3_le_trans a b c : lex3 a b <> Gt -> lex3 b c <> Gt -> lex3 a c <> Gt.
Proof.
  intros H1 H2. destruct (lex3 a b) eqn:E; try congruence.
  - apply lex3_eq in E. subst. exact H2.
  - rewrite (lex3_lt_trans a b c E H2). discriminate.
Qed.

(** [x < y], [x <= y] and [x == y] in terms of the ranks. *)
Lemma ltb_rank x y :
  ltb x y = true <-> exists a b, rank x = Some a /\ rank y = Some b /\ lex3 a b = Lt.
Proof.
  unfold ltb, SFltb. rewrite compare_rank.
  destruct (rank x) as [a|], (rank y) as [b|]; split;
    try (intros H; discriminate H);
    try (intros (a' & b' & H1 & H2 & _); discriminate).
  - intros H. exists a, b. repeat split. destruct (lex3 a b); congruence.
  - intros (a' & b' & H1 & H2 & H3).
    inversion H1; inversion H2; subst. rewrite H3. reflexivity.
Qed.

Lemma leb_rank x y :
  leb x y = true <-> exists a b, rank x = Some a /\ rank y = Some b /\ lex3 a b <> Gt.
Proof.
  unfold leb, SFleb. rewrite compare_rank.
  destruct (rank x) as [a|], (rank y) as [b|]; split;
    try (intros H; discriminate H);
    try (intros (a' & b' & H1 & H2 & _); discriminate).
  - intros H. exists a, b. repeat split. destruct (lex3 a b); congruence.
  - intros (a' & b' & H1 & H2 & H3).
    inversion H1; inversion H2; subst. destruct (lex3 a' b'); congruence.
Qed.

Lemma eqb_rank x y :
  eqb x y = true <-> exists a, rank x = Some a /\ rank y = Some a.
Proof.
  unfold eqb, SFeqb. rewrite compare_rank.
  destruct (rank x) as [a|], (rank y) as [b|]; split;
    try (intros H; discriminate H);
    try (intros (a' & H1 & H2); discriminate).
  - intros H. exists a. split; [reflexivity|].
    destruct (lex3 a b) eqn:E; try discriminate.
    apply lex3_eq in E. congruence.
  - intros (a' & H1 & H2). inversion H1; inversion H2; subst.
    rewrite lex3_refl. reflexivity.
Qed.

Lemma rank_not_nan x : isnan x = false -> exists a, rank x = Some a.
Proof. destruct x as [[]|[]| |[] m e]; intros H; try discriminate; eexists; reflexivity. Qed.

Lemma ltb_leb x y : ltb x y = true -> leb x y = true.
Proof.
  rewrite ltb_rank, leb_rank. intros (a & b & Ha & Hb & H).
  exists a, b. repeat split; trivial. congruence.
Qed.

Lemma ltb_irrefl x : ltb x x = false.
Proof.
  destruct (ltb x x) eqn:E; [|reflexivity].
  apply ltb_rank in E. destruct E as (a & b & Ha & Hb & H).
  assert (a = b) by congruence. subst. rewrite lex3_refl in H. discriminate.
Qed.

Lemma leb_refl x : isnan x = false -> leb x x = true.
Proof.
  intros H. destruct (rank_not_nan x H) as [a Ha].
  apply leb_rank. exists a, a. repeat split; trivial. rewrite lex3_refl. discriminate.
Qed.

Lemma leb_trans x y z : leb x y = true -> leb y z = true -> leb x z = true.
Proof.
  rewrite !leb_rank. intros (a & b & Ha & Hb & H1) (b' & c & Hb' & Hc & H2).
  assert (b' = b) by congruence. subst.
  exists a, c. repeat split; trivial. eapply lex3_le_trans; eassumption.
Qed.

(** On numbers that are not NaN the order is total. *)
Lemma not_ltb_leb x y :
  isnan x = false -> isnan y = false -> ltb x y = false -> leb y x = true.
Proof.
  intros Hx Hy H.
  destruct (rank_not_nan x Hx) as [a Ha], (rank_not_nan y Hy) as [b Hb].
  apply leb_rank. exists b, a. repeat split; trivial.
  rewrite lex3_antisym. intros E.
  assert (ltb x y = true); [|congruence].
  apply ltb_rank. exists a, b. repeat split; trivial.
  destruct (lex3 a b); try discriminate. reflexivity.
Qed.

Lemma leb_not_ltb x y : leb x y = true -> ltb y x = false.
Proof.
  rewrite leb_rank. intros (a & b & Ha & Hb & H).
  destruct (ltb y x) eqn:E; [|reflexivity].
  apply ltb_rank in E. destruct E as (b' & a' & Hb' & Ha' & H').
  assert (a' = a) by congruence. assert (b' = b) by congruence. subst.
  rewrite lex3_antisym, H' in H. cbn in H. congruence.
Qed.

Lemma ltb_not_nan x y : ltb x y = true -> isnan x = false /\ isnan y = false.
Proof. destruct x as [[]|[]| |[] mx ex], y as [[]|[]| |[] my ey]; intros H; try discriminate; split; reflexivity. Qed.

Lemma leb_not_nan x y : leb x y = true -> isnan x = false /\ isnan y = false.
Proof. destruct x as [[]|[]| |[] mx ex], y as [[]|[]| |[] my ey]; intros H; try discriminate; split; reflexivity. Qed.

(** Equal numbers are related alike to a third one. *)
Lemma eqb_ltb_l x x' y : eqb x x' = true -> ltb x y = ltb x' y.
Proof.
  rewrite eqb_rank. intros (a & Ha & Ha').
  unfold ltb, SFltb. rewrite !compare_rank, Ha, Ha'. reflexivity.
Qed.

Lemma eqb_trans_r x y v : eqb x y = true -> eqb x v = eqb y v.
Proof.
  rewrite eqb_rank. intros (a & Ha & Ha').
  unfold eqb, SFeqb. rewrite !compare_rank, Ha, Ha'. reflexivity.
Qed.

Lemma ltb_not_eqb x y : ltb x y = true -> eqb x y = false.
Proof.
  unfold ltb, eqb, SFltb, SFeqb. destruct (SFcompare x y) as [[]|]; congruence.
Qed.

(** [min] and [max] keep their result between their arguments. *)
Lemma py_min_le_l a b : isnan a = false -> leb (py_min a b) a = true.
Proof.
  intros Ha. unfold py_min. destruct (ltb b a) eqn:E.
  - apply ltb_leb, E.
  - apply leb_refl, Ha.
Qed.

Lemma py_max_ge_l a b : isnan a = false -> leb a (py_max a b) = true.
Proof.
  intros Ha. unfold py_max. destruct (ltb a b) eqn:E.
  - apply ltb_leb, E.
  - apply leb_refl, Ha.
Qed.

Lemma py_max_le a b c :
  leb a c = true -> leb b c = true -> leb (py_max a b) c = true.
Proof. intros Ha Hb. unfold py_max. destruct (ltb a b); assumption. Qed.

Lemma py_min_ge a b c :
  leb c a = true -> leb c b = true -> leb c (py_min a b) = true.
Proof. intros Ha Hb. unfold py_min. destruct (ltb b a); assumption. Qed.

Lemma py_min_not_nan a b : isnan a = false -> isnan (py_min a b) = false.
Proof.
  intros Ha. unfold py_min. destruct (ltb b a) eqn:E; [|exact Ha].
  apply ltb_not_nan in E. tauto.
Qed.

Lemma py_max_not_nan a b : isnan a = false -> isnan (py_max a b) = false.
Proof.
  intros Ha. unfold py_max. destruct (ltb a b) eqn:E; [|exact Ha].
  apply ltb_not_nan in E. tauto.
Qed.

(** The clamp [max(lo, min(hi, x))] lands in [[lo, hi]] whatever [x]
    is, NaN included. *)
Lemma clamp_bounds lo hi x :
  leb lo hi = true ->
  leb lo (py_max lo (py_min hi x)) = true /\
  leb (py_max lo (py_min hi x)) hi = true.
Proof.
  intros H. destruct (leb_not_nan _ _ H) as [Hlo Hhi]. split.
  - apply py_max_ge_l, Hlo.
  - apply py_max_le; [exact H|]. apply py_min_le_l, Hhi.
Qed.

End FloatOrder.
(** * Properties of the letter-frequency score *)
Module ChiSquaredFacts.
Import Scoring Spec FloatOrder.

Section WithRuntime.
Context {rt : PyRuntime}.

Lemma letters_of_nil text :
  Forall (fun c => isalpha c = false) text -> letters_of text = [].
Proof.
  unfold letters_of. induction 1 as [|c text Hc _ IH]; [reflexivity|].
  cbn [List.filter]. rewrite Hc. exact IH.
Qed.

Lemma chi_squared_no_letters text expected :
  letters_of text = [] -> chi_squared_letter_score text expected = fl "0.01".
Proof.
  intros H. unfold chi_squared_letter_score. rewrite H. reflexivity.
Qed.

Lemma chi_squared_with_letters text expected :
  letters_of text <> [] ->
  chi_squared_letter_score text expected
  = clamp (chi2_to_score (normalized_chi2_of text (table_of expected))).
Proof.
  intros H. unfold chi_squared_letter_score, clamp.
  destruct (letters_of text) as [|l ls] eqn:E; [congruence|].
  replace (len (l :: ls) =? 0) with false
    by (symmetry; apply Z.eqb_neq; unfold len; cbn [List.length]; lia).
  destruct expected; reflexivity.
Qed.

Lemma chi_squared_bounds text expected :
  leb (fl "0.01") (chi_squared_letter_score text expected) = true /\
  leb (chi_squared_letter_score text expected) (fl "1.0") = true.
Proof.
  destruct (letters_of text) as [|l ls] eqn:E.
  - rewrite chi_squared_no_letters by exact E. split; reflexivity.
  - rewrite chi_squared_with_letters by congruence.
    apply clamp_bounds. reflexivity.
Qed.

(** C4.  On a string without letters (the empty string included) the
    score is exactly 0.01; on every input it lies in [0.01, 1.0]; and on
    a string with letters it is the clamp to [0.01, 1.0] of the
    three-tier map of the normalized statistic: 1.0 below 1,
    [exp(-stat/10)] from 1 to below 50, [1/(1 + stat/100)] from 50 on. *)
Theorem chi_squared_letter_score_spec (text : str)
    (expected : option (gmap str float)) :
  let stat := normalized_chi2_of text (table_of expected) in
  let result := chi_squared_letter_score text expected in
  (Forall (fun c => isalpha c = false) text -> result = fl "0.01") /\
  (leb (fl "0.01") result = true /\ leb result (fl "1.0") = true) /\
  (Exists (fun c => isalpha c = true) text ->
   (ltb stat (of_int 1) = true -> result = fl "1.0") /\
   (leb (of_int 1) stat = true /\ ltb stat (of_int 50) = true ->
    result = clamp (math_exp (div (neg stat) (fl "10.0")))) /\
   (leb (of_int 50) stat = true ->
    result = clamp (div (fl "1.0") (add (fl "1.0") (div stat (fl "100.0")))))).
Proof.
  cbv zeta. split; [|split].
  - intros H. apply chi_squared_no_letters, letters_of_nil, H.
  - apply chi_squared_bounds.
  - intros H.
    assert (Hl : letters_of text <> []).
    { unfold letters_of. induction H as [c text Hc|c text _ IH].
      - cbn [List.filter]. rewrite Hc. discriminate.
      - cbn [List.filter]. destruct (isalpha c); [discriminate|exact IH]. }
    rewrite (chi_squared_with_letters text expected Hl).
    unfold chi2_to_score. split; [|split].
    + intros H1. rewrite H1. vm_compute. reflexivity.
    + intros [H1 H2]. rewrite (leb_not_ltb _ _ H1), H2. reflexivity.
    + intros H1.
      rewrite (leb_not_ltb _ _ H1).
      replace (ltb (normalized_chi2_of text (table_of expected)) (of_int 1))
        with false.
      * reflexivity.
      * symmetry. apply leb_not_ltb.
        apply (leb_trans _ (of_int 50)); [vm_compute; reflexivity|exact H1].
Qed.

(** *** The penalty for unexpected letters *)

(** A letter whose expected frequency is zero, or that the table does
    not list, leaves [chi2] as it is, observed or not. *)
Lemma chi2_step_zero_frequency counts expected n chi2 ch :
  default zero (expected !! ch) = zero ->
  chi2_step counts expected n chi2 ch = chi2.
Proof. intros H. unfold chi2_step. rewrite H. reflexivity. Qed.

(** The penalty is what an observed letter adds when its expected
    frequency is positive and its expected count is at most 0.01. *)
Lemma chi2_step_penalty counts expected n chi2 ch :
  ltb (of_int 0) (default zero (expected !! ch)) = true ->
  ltb (fl "0.01") (mul (default zero (expected !! ch)) (of_int n)) = false ->
  counter_get counts ch 0 > 0 ->
  chi2_step counts expected n chi2 ch
  = add chi2 (of_int (counter_get counts ch 0 * 10)).
Proof.
  intros H1 H2 H3. unfold chi2_step. rewrite H1, H2.
  replace (counter_get counts ch 0 >? 0) with true by lia. reflexivity.
Qed.

(** *** The default table *)

Lemma detect_language_alphabet_latin text :
  detect_language_alphabet text = lit "latin".
Proof. unfold detect_language_alphabet. destruct (List.filter isalpha text); reflexivity. Qed.

(** C10.  Without a table, [chi_squared_letter_score] is the call with
    the English profile: the detection of the alphabet answers "latin"
    on every text, the lookup of the profile answers the English table
    for every alphabet, and so the letter-frequency signal of
    [heuristic_score] is computed against the English table whatever
    resources, hence whatever language, it is called with. *)
Theorem default_profile_is_english (text : str) :
  detect_language_alphabet text = lit "latin" /\
  (forall alphabet, get_letter_frequencies_for_alphabet alphabet = ENGLISH_LETTER_FREQ) /\
  chi_squared_letter_score text None
  = chi_squared_letter_score text (Some ENGLISH_LETTER_FREQ) /\
  (forall resources,
     h_freq_score (heuristic_signals text resources)
     = chi_squared_letter_score (lower text) (Some ENGLISH_LETTER_FREQ)).
Proof.
  split; [apply detect_language_alphabet_latin|].
  split; [reflexivity|].
  split; [reflexivity|].
  intros resources. reflexivity.
Qed.

End WithRuntime.

(** *** On the example runtime *)
Import ExampleRuntime.

Lemma chi_squared_letter_score_witness :
  chi_squared_letter_score (lit "123 !?") None = fl "0.01" /\
  chi_squared_letter_score (lit "hello") None = fl "1.0" /\
  chi_squared_letter_score (lit "zzzzzzzz") None
  = clamp (math_exp (div (neg (normalized_chi2_of (lit "zzzzzzzz") ENGLISH_LETTER_FREQ))
                         (fl "10.0"))) /\
  chi_squared_letter_score (lit "zzzzzzzzzzzzzzzzzzzzzzzzzzzz") None
  = clamp (div (fl "1.0")
               (add (fl "1.0")
                    (div (normalized_chi2_of (lit "zzzzzzzzzzzzzzzzzzzzzzzzzzzz")
                                             ENGLISH_LETTER_FREQ)
                         (fl "100.0")))).
Proof.
  split; [|split; [|split]].
  - refine (proj1 (chi_squared_letter_score_spec (lit "123 !?") None) _).
    vm_compute. repeat constructor.
  - refine (proj1 (proj2 (proj2 (chi_squared_letter_score_spec (lit "hello") None)) _) _).
    + vm_compute. constructor. reflexivity.
    + vm_compute. reflexivity.
  - refine (proj1 (proj2 (proj2 (proj2
              (chi_squared_letter_score_spec (lit "zzzzzzzz") None)) _)) _).
    + vm_compute. constructor. reflexivity.
    + vm_compute. split; reflexivity.
  - refine (proj2 (proj2 (proj2 (proj2
              (chi_squared_letter_score_spec (lit "zzzzzzzzzzzzzzzzzzzzzzzzzzzz") None)) _)) _).
    + vm_compute. constructor. reflexivity.
    + vm_compute. reflexivity.
Defined.

(** The text "é" has one letter, observed once and absent from the
    English table: its turn in the loop leaves [chi2] unchanged, and the
    statistic is that of the 26 letters of the table alone.  The letter
    "z", expected but rare, does receive the penalty. *)
Example unexpected_letter_not_penalized :
  let text := [233] in
  let counts := Counter (letters_of text) in
  letters_of text = [[233]] /\
  counter_get counts [233] 0 = 1 /\
  ENGLISH_LETTER_FREQ !! [233] = None /\
  (forall chi2, chi2_step counts ENGLISH_LETTER_FREQ 1 chi2 [233] = chi2) /\
  chi2_step counts ENGLISH_LETTER_FREQ 1 zero [233] <> add zero (of_int 10) /\
  chi2_step (Counter (letters_of (lit "z"))) ENGLISH_LETTER_FREQ 1 zero (lit "z")
  = add zero (of_int 10).
Proof.
  cbv zeta. split; [vm_compute; reflexivity|]. split; [vm_compute; reflexivity|].
  split; [vm_compute; reflexivity|].
  split; [intros chi2; apply chi2_step_zero_frequency; vm_compute; reflexivity|].
  split; [vm_compute; discriminate | vm_compute; reflexivity].
Qed.

End ChiSquaredFacts.
(** * Signs of binary64 results *)
Module FloatSign.
Import Spec FloatOrder.

Lemma round_aux_sign s m e l :
  sign_clear (binary_round_aux prec emax s m e l) = negb s
  \/ binary_round_aux prec emax s m e l = S754_nan.
Proof.
  unfold binary_round_aux.
  destruct (shr_fexp prec emax m e l) as [mrs' e'].
  destruct (shr_fexp prec emax _ e' loc_Exact) as [mrs'' e''].
  destruct (shr_m mrs''); [left; reflexivity| |right; reflexivity].
  destruct (e'' <=? emax - prec); left; reflexivity.
Qed.

Lemma of_int_sign z : 0 <= z -> sign_clear (of_int z) = true.
Proof.
  intros H. unfold of_int, binary_normalize.
  destruct z as [|p|p]; [reflexivity| |lia].
  unfold binary_round.
  destruct (shl_align p 0 _) as [mz ez].
  destruct (round_aux_sign false (Z.pos mz) ez loc_Exact) as [E|E]; rewrite E; reflexivity.
Qed.

Lemma int_float_sign z : 0 <= z -> sign_clear (int_float z) = true.
Proof. destruct z; intros H; [reflexivity|reflexivity|lia]. Qed.

Lemma div_sign x y :
  sign_clear x = true -> sign_clear y = true -> sign_clear (div x y) = true.
Proof.
  destruct x as [sx|sx| |sx mx ex], y as [sy|sy| |sy my ey]; cbn [sign_clear];
    intros Hx Hy; try reflexivity;
    try (apply negb_true_iff in Hx); try (apply negb_true_iff in Hy); subst;
    try reflexivity.
  unfold div, SFdiv.
  destruct (SFdiv_core_binary prec emax (Z.pos mx) ex (Z.pos my) ey) as [[mz ez] lz].
  destruct (round_aux_sign (xorb false false) mz ez lz) as [E|E]; rewrite E; reflexivity.
Qed.

Lemma py_max_sign a b :
  sign_clear a = true -> sign_clear b = true -> sign_clear (py_max a b) = true.
Proof. intros Ha Hb. unfold py_max. destruct (ltb a b); assumption. Qed.

(** A number below another one and with a clear sign is at least 0. *)
Lemma sign_clear_ge_zero x y :
  sign_clear x = true -> ltb x y = true -> leb zero x = true.
Proof.
  destruct x as [[]|[]| |[] mx ex]; cbn [sign_clear]; intros Hs Hlt;
    try discriminate; try reflexivity.
Qed.

(** [min(1.0, q)] of a quotient with a clear sign lies in [0, 1]. *)
Lemma min_one_unit q :
  sign_clear q = true ->
  leb zero (py_min (fl "1.0") q) = true /\ leb (py_min (fl "1.0") q) (fl "1.0") = true.
Proof.
  intros Hq. unfold py_min. destruct (ltb q (fl "1.0")) eqn:E.
  - split; [eapply sign_clear_ge_zero; eassumption | apply ltb_leb, E].
  - split; vm_compute; reflexivity.
Qed.

End FloatSign.

(** * Properties of the pattern feature *)
Module PatternFacts.
Import Scoring Spec FloatOrder FloatSign.

Lemma occurrences_nonneg t p : 0 <= occurrences t p.
Proof.
  induction t as [|c t IH]; cbn [occurrences].
  - destruct (is_prefix p []); lia.
  - destruct (is_prefix p (c :: t)); lia.
Qed.

(** [p in t] holds exactly when [p] occurs at some position of [t]. *)
Lemma contains_occurrences t p : contains t p = (0 <? occurrences t p).
Proof.
  induction t as [|c t IH]; cbn [contains occurrences].
  - destruct (is_prefix p []); reflexivity.
  - pose proof (occurrences_nonneg t p).
    destruct (is_prefix p (c :: t)); cbn [orb].
    + symmetry. apply Z.ltb_lt. lia.
    + rewrite IH. reflexivity.
Qed.

Lemma filter_length_le {A} (f : A -> bool) l :
  (List.length (List.filter f l) <= List.length l)%nat.
Proof.
  induction l as [|x l IH]; cbn [List.filter List.length]; [lia|].
  destruct (f x); cbn [List.length]; lia.
Qed.

Section WithRuntime.
Context {rt : PyRuntime}.

Lemma pattern_count_present text :
  pattern_count_of text = entries_present (lower text).
Proof.
  unfold pattern_count_of, entries_present. f_equal.
  apply List.filter_ext. intros p. apply contains_occurrences.
Qed.

Lemma pattern_count_range text : 0 <= pattern_count_of text <= 28.
Proof.
  unfold pattern_count_of, len.
  pose proof (filter_length_le
                (fun pattern => contains (lower text) pattern) common_patterns) as H.
  change (List.length common_patterns) with 28%nat in H. lia.
Qed.

(** C6, as the code has it.  The pattern feature counts the entries of
    the fixed list that occur at least once in the lower-cased text (an
    entry counts once, however often it occurs; there are at most 28),
    divides the count by [max(length / 20, 1)], where [length] is the
    length of the lower-cased text and at least 1, and keeps the smaller
    of 1.0 and the quotient, which lies in [0, 1]. *)
Theorem pattern_score_spec (text : str) (resources : Resources) :
  let text_lower := lower text in
  let length := Z.max (len text_lower) 1 in
  let count := entries_present (lower text_lower) in
  let pattern_score := h_pattern_score (heuristic_signals text resources) in
  0 <= count <= 28 /\
  pattern_score
  = py_min (fl "1.0") (div (of_int count) (py_max (truediv length 20) (of_int 1))) /\
  leb zero pattern_score = true /\
  leb pattern_score (fl "1.0") = true.
Proof.
  cbv zeta.
  rewrite <- pattern_count_present.
  pose proof (pattern_count_range (lower text)) as Hc.
  split; [exact Hc|].
  assert (E : h_pattern_score (heuristic_signals text resources)
              = py_min (fl "1.0")
                  (div (of_int (pattern_count_of (lower text)))
                       (py_max (truediv (Z.max (len (lower text)) 1) 20) (of_int 1)))).
  { unfold heuristic_signals. cbn [h_pattern_score]. unfold pattern_score_of.
    replace (Z.max (len (lower text)) 1 >? 0) with true by lia. reflexivity. }
  split; [exact E|]. rewrite E.
  apply min_one_unit.
  apply div_sign; [apply of_int_sign; lia|].
  apply py_max_sign; [|apply of_int_sign; lia].
  unfold truediv. apply div_sign; apply int_float_sign; lia.
Qed.

End WithRuntime.

Import ExampleRuntime.

(** In "the theme" two entries of the list occur, "th" and "he", each
    twice: the code counts 2 where the occurrences add up to 4. *)
Lemma pattern_count_not_occurrences :
  pattern_count_of (lower (lit "the theme")) = 2 /\
  total_occurrences (lower (lower (lit "the theme"))) = 4 /\
  pattern_count_of (lower (lit "the theme"))
  <> total_occurrences (lower (lower (lit "the theme"))).
Proof.
  split; [vm_compute; reflexivity|]. split; [vm_compute; reflexivity|].
  vm_compute. discriminate.
Qed.

End PatternFacts.
(** * Properties of the ranking *)
Module RankingFacts.
Import Scoring App Spec FloatOrder.

Lemma insert_desc_perm x l : Permutation (insert_desc x l) (x :: l).
Proof.
  induction l as [|y l IH]; cbn [insert_desc]; [reflexivity|].
  destruct (ltb (score x) (score y)); [|reflexivity].
  rewrite IH. apply perm_swap.
Qed.

Lemma sort_desc_perm l : Permutation (sort_desc l) l.
Proof.
  induction l as [|x l IH]; cbn [sort_desc fold_right]; [reflexivity|].
  fold (sort_desc l). rewrite insert_desc_perm, IH. reflexivity.
Qed.

Lemma insert_desc_Forall (P : candidate -> Prop) x l :
  P x -> List.Forall P l -> List.Forall P (insert_desc x l).
Proof.
  intros Hx Hl.
  eapply Permutation_Forall; [symmetry; apply insert_desc_perm|].
  constructor; assumption.
Qed.

Lemma insert_desc_sorted x l :
  isnan (score x) = false ->
  List.Forall (fun c => isnan (score c) = false) l ->
  StronglySorted score_desc l ->
  StronglySorted score_desc (insert_desc x l).
Proof.
  intros Hx Hl Hs. induction Hs as [|y l Hs IH Hy]; cbn [insert_desc].
  - repeat constructor.
  - inversion Hl as [|? ? Hny Hl']; subst.
    destruct (ltb (score x) (score y)) eqn:E.
    + constructor; [apply IH, Hl'|].
      apply insert_desc_Forall; [|exact Hy].
      apply ltb_leb, E.
    + constructor; [constructor; assumption|].
      assert (Hyx : leb (score y) (score x) = true)
        by (apply not_ltb_leb; assumption).
      constructor; [exact Hyx|].
      eapply List.Forall_impl; [|exact Hy].
      intros z Hz. unfold score_desc in *.
      eapply leb_trans; eassumption.
Qed.

Lemma sort_desc_sorted l :
  List.Forall (fun c => isnan (score c) = false) l ->
  StronglySorted score_desc (sort_desc l).
Proof.
  induction 1 as [|x l Hx Hl IH]; cbn [sort_desc fold_right]; [constructor|].
  fold (sort_desc l). apply insert_desc_sorted; [exact Hx| |exact IH].
  eapply Permutation_Forall; [symmetry; apply sort_desc_perm|exact Hl].
Qed.



Lemma eqb_sym x y : eqb x y = eqb y x.
Proof.
  unfold eqb, SFeqb. rewrite !compare_rank.
  destruct (rank x) as [a|], (rank y) as [b|]; try reflexivity.
  rewrite (lex3_antisym a b). destruct (lex3 a b); reflexivity.
Qed.

Lemma insert_desc_ties x l :
  List.Forall (fun c => key x < key c) l ->
  StronglySorted ties_by_key l ->
  StronglySorted ties_by_key (insert_desc x l).
Proof.
  intros Hk Hs. induction Hs as [|y l Hs IH Hy]; cbn [insert_desc].
  - repeat constructor.
  - inversion Hk as [|? ? Hxy Hk']; subst.
    destruct (ltb (score x) (score y)) eqn:E.
    + constructor; [apply IH, Hk'|].
      apply insert_desc_Forall; [|exact Hy].
      intros Heq. rewrite eqb_sym, (ltb_not_eqb _ _ E) in Heq. discriminate.
    + constructor; [constructor; assumption|].
      constructor; [intros _; exact Hxy|].
      eapply List.Forall_impl; [|exact Hk']. intros z Hz _. exact Hz.
Qed.

Lemma sort_desc_ties l :
  StronglySorted Z.lt (List.map key l) ->
  StronglySorted ties_by_key (sort_desc l).
Proof.
  induction l as [|x l IH]; cbn [sort_desc fold_right List.map]; intros Hs;
    [constructor|].
  fold (sort_desc l). inversion Hs as [|? ? Hs' Hx]; subst.
  apply insert_desc_ties; [|apply IH, Hs'].
  eapply Permutation_Forall; [symmetry; apply sort_desc_perm|].
  apply List.Forall_forall. intros c Hc.
  rewrite List.Forall_forall in Hx. apply Hx, List.in_map, Hc.
Qed.



End RankingFacts.

(** * Properties of the HTTP boundary *)
Module AnalyzeFacts.
Import Scoring App Spec.

Section WithRuntime.
Context {rt : PyRuntime}.

Lemma lstrip_blank s : List.Forall (fun c => isspace c = true) s -> lstrip s = [].
Proof.
  induction 1 as [|c s Hc _ IH]; [reflexivity|].
  cbn [lstrip]. rewrite Hc. exact IH.
Qed.

Lemma strip_blank s : List.Forall (fun c => isspace c = true) s -> strip s = [].
Proof. intros H. unfold strip, rstrip. rewrite (lstrip_blank s H). reflexivity. Qed.

(** C9.  A request whose [cipherText] is empty or made of white space
    only (or is missing) is answered by the error "Empty cipher text"
    with the client-error status 400, and nothing is printed: the
    candidates are neither generated nor scored. *)
Theorem analyze_rejects_blank (get_resources : str -> Resources) (req : request) :
  List.Forall (fun c => isspace c = true) (default [] (cipherText req)) ->
  analyze get_resources req = (Error (lit "Empty cipher text") 400, []).
Proof.
  intros H. unfold analyze. rewrite (strip_blank _ H). reflexivity.
Qed.

End WithRuntime.

Import ExampleRuntime.

Lemma analyze_rejects_blank_witness :
  let req := {| cipherText := Some (lit "   "); lang := Some (lit "fr") |} in
  let get_resources := fun _ : str =>
    {| vocab := ∅; stopwords := ∅; bigrams := ∅; trigrams := ∅ |} in
  List.Forall (fun c => isspace c = true) (default [] (cipherText req)) /\
  analyze get_resources req = (Error (lit "Empty cipher text") 400, []).
Proof.
  cbv zeta.
  assert (H : List.Forall (fun c => isspace c = true)
                (default [] (cipherText {| cipherText := Some (lit "   ");
                                           lang := Some (lit "fr") |})))
    by (repeat constructor).
  split; [exact H|].
  exact (analyze_rejects_blank _ _ H).
Defined.

End AnalyzeFacts.
Module FloatRounding.
Import Spec FloatOrder FloatSign.

Lemma fexp64_eq e : fexp64 e = Z.max (e - 53) (-1074).
Proof. reflexivity. Qed.

(** *** Digits *)

Lemma digits2_size p : digits2_pos p = Pos.size p.
Proof. induction p as [p IH|p IH|]; cbn; rewrite ?IH; reflexivity. Qed.

Lemma digits_bounds p :
  2 ^ (Z.pos (digits2_pos p) - 1) <= Z.pos p < 2 ^ Z.pos (digits2_pos p).
Proof.
  rewrite digits2_size. split.
  - pose proof (Pos.size_le p) as H.
    assert (H' : 2 ^ Z.pos (Pos.size p) <= 2 * Z.pos p).
    { change (2 ^ Z.pos (Pos.size p)) with (Z.pos 2 ^ Z.pos (Pos.size p)).
      rewrite <- Pos2Z.inj_pow. change (2 * Z.pos p) with (Z.pos (2 * p)).
      apply Pos2Z.pos_le_pos. exact H. }
    replace (Z.pos (Pos.size p)) with (Z.pos (Pos.size p) - 1 + 1) in H' by lia.
    rewrite Z.pow_add_r in H' by lia. lia.
  - pose proof (Pos.size_gt p) as H.
    change (2 ^ Z.pos (Pos.size p)) with (Z.pos 2 ^ Z.pos (Pos.size p)).
    rewrite <- Pos2Z.inj_pow. apply Pos2Z.pos_lt_pos. exact H.
Qed.

(** A number below [2^k] has at most [k] digits; one from [2^k] on has
    more than [k]. *)
Lemma digits_le p k : 0 <= k -> Z.pos p < 2 ^ k -> Z.pos (digits2_pos p) <= k.
Proof.
  intros Hk H. destruct (digits_bounds p) as [Hl _].
  destruct (Z_le_gt_dec (Z.pos (digits2_pos p)) k) as [|Hgt]; [assumption|].
  assert (2 ^ k <= 2 ^ (Z.pos (digits2_pos p) - 1))
    by (apply Z.pow_le_mono_r; lia).
  lia.
Qed.

Lemma digits_gt p k : 0 <= k -> 2 ^ k <= Z.pos p -> k < Z.pos (digits2_pos p).
Proof.
  intros Hk H. destruct (digits_bounds p) as [_ Hu].
  destruct (Z_lt_le_dec k (Z.pos (digits2_pos p))) as [|Hle]; [assumption|].
  assert (2 ^ Z.pos (digits2_pos p) <= 2 ^ k)
    by (apply Z.pow_le_mono_r; lia).
  lia.
Qed.

(** *** Shifting a mantissa to the right *)

Lemma iter_pos_nat {A} (f : A -> A) p x :
  SpecFloat.iter_pos f p x = Nat.iter (Pos.to_nat p) f x.
Proof.
  revert x. induction p as [p IH|p IH|]; intros x; cbn [SpecFloat.iter_pos].
  - rewrite !IH, Pos2Nat.inj_xI.
    replace (S (2 * Pos.to_nat p)) with (Pos.to_nat p + (Pos.to_nat p + 1))%nat by lia.
    rewrite !Nat.iter_add. reflexivity.
  - rewrite !IH, Pos2Nat.inj_xO.
    replace (2 * Pos.to_nat p)%nat with (Pos.to_nat p + Pos.to_nat p)%nat by lia.
    rewrite Nat.iter_add. reflexivity.
  - reflexivity.
Qed.

Lemma shr_1_m r : 0 <= shr_m r -> shr_m (shr_1 r) = shr_m r / 2.
Proof.
  destruct r as [m r s]. cbn [shr_m shr_1]. intros H.
  destruct m as [|[p|p|]|p]; cbn [shr_m]; try (exfalso; lia).
  - reflexivity.
  - apply Z.div_unique with 1; lia.
  - apply Z.div_unique with 0; lia.
  - reflexivity.
Qed.

Lemma shr_1_exact r :
  0 <= shr_m r -> exact_record r = true -> shr_m r mod 2 = 0 ->
  exact_record (shr_1 r) = true.
Proof.
  destruct r as [m [] []]; cbn [shr_m exact_record shr_r shr_s negb andb];
    intros H He Hm; try discriminate.
  destruct m as [|[p|p|]|p]; try reflexivity; try lia.
  - rewrite Pos2Z.inj_xI in Hm.
    replace (2 * Z.pos p + 1) with (1 + Z.pos p * 2) in Hm by lia.
    rewrite Z.mod_add in Hm by lia. discriminate.
  - discriminate.
Qed.

Lemma shr_nat_m n r :
  0 <= shr_m r -> shr_m (Nat.iter n shr_1 r) = shr_m r / 2 ^ Z.of_nat n.
Proof.
  intros H. induction n as [|n IH].
  - change (Nat.iter 0 shr_1 r) with r. change (2 ^ Z.of_nat 0) with 1.
    rewrite Z.div_1_r. reflexivity.
  - change (Nat.iter (S n) shr_1 r) with (shr_1 (Nat.iter n shr_1 r)).
    rewrite shr_1_m.
    + rewrite IH, Nat2Z.inj_succ, Z.pow_succ_r by lia.
      rewrite Z.div_div by lia. f_equal. lia.
    + rewrite IH. apply Z.div_pos; lia.
Qed.

Lemma shr_nat_exact n r :
  0 <= shr_m r -> exact_record r = true -> shr_m r mod 2 ^ Z.of_nat n = 0 ->
  exact_record (Nat.iter n shr_1 r) = true.
Proof.
  intros H He. induction n as [|n IH]; intros Hm.
  - exact He.
  - change (Nat.iter (S n) shr_1 r) with (shr_1 (Nat.iter n shr_1 r)).
    rewrite Nat2Z.inj_succ, Z.pow_succ_r in Hm by lia.
    assert (Hd : (2 ^ Z.of_nat n * 2 | shr_m r)).
    { apply Z.mod_divide; [lia|]. rewrite Z.mul_comm. exact Hm. }
    destruct Hd as [c Hc].
    apply shr_1_exact.
    + rewrite shr_nat_m by exact H. apply Z.div_pos; lia.
    + apply IH. rewrite Hc.
      replace (c * (2 ^ Z.of_nat n * 2)) with (c * 2 * 2 ^ Z.of_nat n) by lia.
      apply Z.mod_mul. lia.
    + rewrite shr_nat_m by exact H. rewrite Hc.
      replace (c * (2 ^ Z.of_nat n * 2)) with (c * 2 * 2 ^ Z.of_nat n) by lia.
      rewrite Z.div_mul by lia. apply Z.mod_mul. lia.
Qed.

(** [shr] leaves the record alone when the shift is not positive. *)
Lemma shr_spec r e n :
  0 <= shr_m r ->
  let k := Z.max n 0 in
  let '(r', e') := shr r e n in
  e' = e + k /\ shr_m r' = shr_m r / 2 ^ k /\
  (exact_record r = true -> shr_m r mod 2 ^ k = 0 -> exact_record r' = true).
Proof.
  intros H. cbv zeta. unfold shr. destruct n as [|p|p].
  - cbn [Z.max Z.compare]. change (2 ^ 0) with 1.
    rewrite Z.div_1_r. repeat split; [lia|tauto].
  - replace (Z.max (Z.pos p) 0) with (Z.pos p) by lia.
    rewrite iter_pos_nat, <- (positive_nat_Z p).
    repeat split.
    + apply shr_nat_m, H.
    + intros He Hm. apply shr_nat_exact; assumption.
  - replace (Z.max (Z.neg p) 0) with 0 by lia. change (2 ^ 0) with 1.
    rewrite Z.div_1_r. repeat split; [lia|tauto].
Qed.

Lemma round_nearest_even_range m l :
  m <= round_nearest_even m l <= m + 1.
Proof.
  unfold round_nearest_even. destruct l as [|[]]; try lia.
  destruct (Z.even m); lia.
Qed.

Lemma loc_of_exact r : exact_record r = true -> loc_of_shr_record r = loc_Exact.
Proof. destruct r as [m [] []]; cbn; intros H; try discriminate; reflexivity. Qed.

Lemma exact_of_loc m l : l = loc_Exact -> exact_record (shr_record_of_loc m l) = true.
Proof. intros ->. reflexivity. Qed.

Lemma shr_m_of_loc m l : shr_m (shr_record_of_loc m l) = m.
Proof. destruct l as [|[]]; reflexivity. Qed.

(** *** The result of a rounding *)

Lemma shr_nonpos r e n : n <= 0 -> shr r e n = (r, e).
Proof. intros H. unfold shr. destruct n; [reflexivity|lia|reflexivity]. Qed.

Lemma Zdigits2_pos p : Zdigits2 (Z.pos p) = Z.pos (digits2_pos p).
Proof. reflexivity. Qed.

Lemma pow2_pos k : 0 < 2 ^ k \/ (k < 0 /\ 2 ^ k = 0).
Proof.
  destruct (Z_lt_le_dec k 0) as [H|H].
  - right. split; [exact H|]. apply Z.pow_neg_r, H.
  - left. apply Z.pow_pos_nonneg; lia.
Qed.

Lemma round_aux_cases s m0 e0 l :
  0 <= m0 ->
  let E1 := Z.max e0 (fexp64 (Zdigits2 m0 + e0)) in
  let m1 := m0 / 2 ^ (E1 - e0) in
  exists m2,
    m1 <= m2 <= m1 + 1 /\ 0 <= m1 < 2 ^ 53 /\
    (l = loc_Exact -> m0 mod 2 ^ (E1 - e0) = 0 -> m2 = m1) /\
    binary_round_aux prec emax s m0 e0 l = round_result s m2 E1.
Proof.
  intros Hm0. cbv zeta.
  set (E1 := Z.max e0 (fexp64 (Zdigits2 m0 + e0))).
  assert (HE1 : e0 <= E1 /\ -1074 <= E1 /\ Zdigits2 m0 + e0 - 53 <= E1).
  { subst E1. rewrite fexp64_eq. lia. }
  assert (Hk : 0 < 2 ^ (E1 - e0)) by (apply Z.pow_pos_nonneg; lia).
  assert (Hm1 : 0 <= m0 / 2 ^ (E1 - e0) < 2 ^ 53).
  { split; [apply Z.div_pos; lia|].
    apply Z.div_lt_upper_bound; [exact Hk|].
    destruct m0 as [|p|p]; [lia| |lia].
    rewrite Zdigits2_pos in HE1.
    destruct (digits_bounds p) as [_ Hu].
    rewrite <- Z.pow_add_r by lia.
    eapply Z.lt_le_trans; [exact Hu|].
    apply Z.pow_le_mono_r; lia. }
  unfold binary_round_aux, shr_fexp.
  change (SpecFloat.fexp prec emax) with fexp64.
  pose proof (shr_spec (shr_record_of_loc m0 l) e0
                (fexp64 (Zdigits2 m0 + e0) - e0)) as Hs.
  rewrite shr_m_of_loc in Hs. specialize (Hs Hm0). cbv zeta in Hs.
  replace (Z.max (fexp64 (Zdigits2 m0 + e0) - e0) 0) with (E1 - e0) in Hs
    by (subst E1; lia).
  destruct (shr (shr_record_of_loc m0 l) e0 (fexp64 (Zdigits2 m0 + e0) - e0))
    as [r' e'].
  destruct Hs as (He' & Hr' & Hex).
  replace e' with E1 by lia. clear He'.
  set (m2 := round_nearest_even (shr_m r') (loc_of_shr_record r')).
  pose proof (round_nearest_even_range (shr_m r') (loc_of_shr_record r')) as Hrange.
  fold m2 in Hrange. rewrite Hr' in Hrange.
  exists m2. split; [exact Hrange|]. split; [exact Hm1|]. split.
  { intros Hl Hmod. subst m2.
    rewrite (loc_of_exact r') by (apply Hex; [apply exact_of_loc, Hl|exact Hmod]).
    cbn [round_nearest_even]. exact Hr'. }
  unfold round_result.
  destruct (Z.eqb_spec m2 0) as [Hz|Hnz].
  - rewrite Hz. cbn [Zdigits2].
    rewrite shr_nonpos by (rewrite fexp64_eq; lia). reflexivity.
  - assert (Hpos : 0 < m2) by lia.
    destruct m2 as [|p|p] eqn:Ep; try lia.
    rewrite Zdigits2_pos.
    destruct (Z.ltb_spec (Z.pos p) (2 ^ 53)) as [Hlt|Hge].
    + pose proof (digits_le p 53 ltac:(lia) Hlt) as Hd.
      rewrite shr_nonpos by (rewrite fexp64_eq; lia).
      cbn [shr_m shr_record_of_loc]. rewrite Pos2Z.id. reflexivity.
    + assert (Hp : Z.pos p = 2 ^ 53) by lia.
      assert (Hpp : p = Z.to_pos (2 ^ 53)) by (rewrite <- Hp; reflexivity).
      rewrite Hpp.
      change (Z.pos (digits2_pos (Z.to_pos (2 ^ 53)))) with 54.
      replace (fexp64 (54 + E1) - E1) with 1 by (rewrite fexp64_eq; lia).
      cbn [shr SpecFloat.iter_pos shr_record_of_loc shr_1 shr_m Z.to_pos].
      replace (E1 + 1 <=? emax - prec) with (E1 + 1 <=? 971) by reflexivity.
      reflexivity.
Qed.

Lemma round_result_fits s m2 E1 : 0 <= m2 <= 2 ^ 53 -> fits (round_result s m2 E1) = true.
Proof.
  intros H. unfold round_result.
  destruct (Z.eqb_spec m2 0); [reflexivity|].
  destruct (Z.ltb_spec m2 (2 ^ 53)).
  - destruct (E1 <=? 971); [|reflexivity].
    cbn [fits]. rewrite Z2Pos.id by lia. apply Z.ltb_lt. assumption.
  - destruct (E1 + 1 <=? 971); reflexivity.
Qed.

Lemma round_aux_fits s m0 e0 l :
  0 <= m0 -> fits (binary_round_aux prec emax s m0 e0 l) = true.
Proof.
  intros H. destruct (round_aux_cases s m0 e0 l H) as (m2 & H1 & H2 & _ & ->).
  apply round_result_fits. lia.
Qed.

(** *** The results of the operations fit *)

Lemma binary_round_fits s m e : fits (binary_round prec emax s m e) = true.
Proof.
  unfold binary_round. destruct (shl_align m e _) as [mz ez].
  apply round_aux_fits. lia.
Qed.

Lemma binary_normalize_fits m e sz : fits (binary_normalize prec emax m e sz) = true.
Proof. destruct m; cbn [binary_normalize]; [reflexivity| |]; apply binary_round_fits. Qed.

Lemma mul_fits x y : fits (mul x y) = true.
Proof.
  destruct x as [sx|sx| |sx mx ex], y as [sy|sy| |sy my ey]; try reflexivity.
  unfold mul, SFmul. apply round_aux_fits. lia.
Qed.

Lemma div_fits x y : fits (div x y) = true.
Proof.
  destruct x as [sx|sx| |sx mx ex], y as [sy|sy| |sy my ey]; try reflexivity.
  unfold div, SFdiv, SFdiv_core_binary.
  set (m' := match _ with Z.pos _ => _ | _ => _ end).
  assert (Hm' : 0 <= m').
  { subst m'. destruct (_ - _ - _); [lia| |lia]. apply Z.shiftl_nonneg. lia. }
  pose proof (Z.div_pos m' (Z.pos my) Hm' ltac:(lia)) as Hq.
  unfold Z.div in Hq.
  destruct (Z.div_eucl m' (Z.pos my)) as [q r]. cbn [fst] in Hq.
  apply round_aux_fits, Hq.
Qed.

Lemma add_fits x y : fits x = true -> fits y = true -> fits (add x y) = true.
Proof.
  destruct x as [sx|sx| |sx mx ex], y as [sy|sy| |sy my ey]; intros Hx Hy;
    try reflexivity; try assumption;
    try (destruct sx, sy; reflexivity).
  unfold add, SFadd. apply binary_normalize_fits.
Qed.

(** *** Comparing positive finite numbers *)

Lemma leb_finite m1 e1 m2 e2 :
  leb (S754_finite false m1 e1) (S754_finite false m2 e2) = true
  <-> e1 < e2 \/ (e1 = e2 /\ Z.pos m1 <= Z.pos m2).
Proof.
  unfold leb, SFleb. rewrite compare_rank. cbn [rank lex3].
  change (1 ?= 1) with Eq. cbv iota.
  destruct (Z.compare_spec e1 e2) as [He|He|He].
  - destruct (Z.compare_spec (Z.pos m1) (Z.pos m2)); split; intros Hc;
      try reflexivity; try discriminate; lia.
  - split; [intros _; lia|reflexivity].
  - split; [discriminate|lia].
Qed.

Lemma leb_round_result m2 E1 mB eB :
  0 <= m2 <= 2 ^ 53 -> 2 ^ 52 <= Z.pos mB -> eB <= 971 ->
  (E1 < eB \/ (E1 = eB /\ m2 <= Z.pos mB /\ m2 < 2 ^ 53)) ->
  leb (round_result false m2 E1) (S754_finite false mB eB) = true.
Proof.
  intros Hm HB HeB H. unfold round_result.
  destruct (Z.eqb_spec m2 0); [reflexivity|].
  destruct (Z.ltb_spec m2 (2 ^ 53)).
  - replace (E1 <=? 971) with true by lia.
    apply leb_finite. rewrite Z2Pos.id by lia. lia.
  - replace (E1 + 1 <=? 971) with true by lia.
    apply leb_finite. rewrite Z2Pos.id by lia. lia.
Qed.

(** Rounding from above a number of the format: when the exact value
    [m0 * 2^e0] is at most the normal number [mB * 2^eB], so is the
    rounded result. *)
Lemma round_aux_le m0 e0 mB eB :
  0 <= m0 -> 2 ^ 52 <= Z.pos mB < 2 ^ 53 -> -1074 <= eB <= 971 ->
  e0 <= eB -> m0 <= Z.pos mB * 2 ^ (eB - e0) ->
  leb (binary_round_aux prec emax false m0 e0 loc_Exact) (S754_finite false mB eB)
  = true.
Proof.
  intros Hm0 HmB HeB He Hv.
  destruct (round_aux_cases false m0 e0 loc_Exact Hm0)
    as (m2 & Hr & Hm1 & Hex & ->).
  set (E1 := Z.max e0 (fexp64 (Zdigits2 m0 + e0))) in *.
  assert (Hp : 0 < 2 ^ (eB - e0)) by (apply Z.pow_pos_nonneg; lia).
  assert (HE1 : e0 <= E1 <= eB).
  { subst E1. rewrite fexp64_eq. split; [lia|].
    destruct m0 as [|p|p]; [cbn [Zdigits2]; lia| |lia].
    rewrite Zdigits2_pos.
    assert (Z.pos (digits2_pos p) <= 53 + (eB - e0)); [|lia].
    apply digits_le; [lia|].
    rewrite Z.pow_add_r by lia. nia. }
  apply leb_round_result; [lia|lia|lia|].
  destruct (Z_lt_le_dec E1 eB) as [Hlt|Hge]; [left; exact Hlt|right].
  assert (HEq : E1 = eB) by lia. split; [exact HEq|].
  rewrite HEq in *.
  assert (Hle : m0 / 2 ^ (eB - e0) <= Z.pos mB)
    by (apply Z.div_le_upper_bound; [exact Hp|lia]).
  destruct (Z_lt_le_dec (m0 / 2 ^ (eB - e0)) (Z.pos mB)) as [Hs|Hs]; [lia|].
  assert (Hm : m0 / 2 ^ (eB - e0) = Z.pos mB) by lia.
  pose proof (Z.div_mod m0 (2 ^ (eB - e0)) ltac:(lia)) as Hdm.
  pose proof (Z.mod_pos_bound m0 (2 ^ (eB - e0)) Hp) as Hmb.
  rewrite Hm in Hdm.
  assert (Hz : m0 mod 2 ^ (eB - e0) = 0) by lia.
  rewrite (Hex eq_refl Hz). lia.
Qed.

(** *** Bounds that the operations keep *)

Lemma normal_inv x :
  normal x = true ->
  exists m e, x = S754_finite false m e /\
              2 ^ 52 <= Z.pos m < 2 ^ 53 /\ -1074 <= e <= 971.
Proof.
  destruct x as [| | |[] m e]; try discriminate. cbn [normal].
  intros H. exists m, e. split; [reflexivity|]. lia.
Qed.

Lemma bounded_by_inv B x :
  bounded_by B x -> normal B = true ->
  x = S754_nan \/ x = S754_zero false \/
  exists m e, x = S754_finite false m e /\ Z.pos m < 2 ^ 53
              /\ leb (S754_finite false m e) B = true.
Proof.
  intros [->|(Hs & Hf & Hl)] HB; [left; reflexivity|right].
  apply normal_inv in HB. destruct HB as (mB & eB & -> & _).
  destruct x as [[]|[]| |[] m e]; try discriminate.
  - left. reflexivity.
  - right. exists m, e. repeat split; [|exact Hl].
    cbn [fits] in Hf. lia.
Qed.

Lemma bounded_zero B : normal B = true -> bounded_by B (S754_zero false).
Proof.
  intros HB. apply normal_inv in HB. destruct HB as (mB & eB & -> & _).
  right. repeat split.
Qed.

Lemma round_result_sign m2 E1 : sign_clear (round_result false m2 E1) = true.
Proof.
  unfold round_result.
  destruct (m2 =? 0); [reflexivity|].
  destruct (m2 <? 2 ^ 53); [destruct (E1 <=? 971)|destruct (E1 + 1 <=? 971)];
    reflexivity.
Qed.

Lemma round_aux_sign_clear m0 e0 l :
  0 <= m0 -> sign_clear (binary_round_aux prec emax false m0 e0 l) = true.
Proof.
  intros H. destruct (round_aux_cases false m0 e0 l H) as (m2 & _ & _ & _ & ->).
  apply round_result_sign.
Qed.

(** A number at most 1.0 multiplied by a normal constant is at most the
    constant. *)
Lemma mul_bounded x c :
  bounded_by one_f x -> normal c = true -> bounded_by c (mul x c).
Proof.
  intros Hx Hc.
  destruct (bounded_by_inv _ _ Hx eq_refl) as [->|[->|(m & e & -> & Hm & Hl)]].
  - left. reflexivity.
  - apply normal_inv in Hc. destruct Hc as (mc & ec & -> & _).
    right. repeat split.
  - pose proof Hc as Hc'.
    apply normal_inv in Hc. destruct Hc as (mc & ec & -> & Hmc & Hec).
    unfold one_f in Hl. apply leb_finite in Hl.
    right. unfold mul, SFmul. cbn [xorb].
    split; [apply round_aux_sign_clear; lia|].
    split; [apply round_aux_fits; lia|].
    apply round_aux_le; [lia|exact Hmc|exact Hec|lia|].
    replace (ec - (e + ec)) with (- e) by lia.
    rewrite Pos2Z.inj_mul.
    assert (Z.pos m <= 2 ^ (- e)); [|nia].
    destruct Hl as [Hlt|[-> Hle]]; [|exact Hle].
    assert (2 ^ 53 <= 2 ^ (- e)) by (apply Z.pow_le_mono_r; lia). lia.
Qed.

(** *** Addition of positive numbers *)

Lemma pos_iter_xO m d : Z.pos (Pos.iter xO m d) = Z.pos m * 2 ^ Z.pos d.
Proof.
  induction d as [|d IH] using Pos.peano_ind.
  - cbn [Pos.iter]. lia.
  - rewrite Pos.iter_succ, Pos2Z.inj_xO, IH, Pos2Z.inj_succ, Z.pow_succ_r by lia. lia.
Qed.

Lemma shl_align_spec m e e' :
  let '(m', e'') := shl_align m e e' in
  e'' = Z.min e e' /\ Z.pos m' = Z.pos m * 2 ^ (e - e'').
Proof.
  unfold shl_align. destruct (e' - e) as [|d|d] eqn:E.
  - split; [lia|]. replace (e - e) with 0 by lia. lia.
  - split; [lia|]. replace (e - e) with 0 by lia. lia.
  - split; [lia|]. rewrite pos_iter_xO. f_equal. f_equal. lia.
Qed.

Lemma digits_shift m k :
  0 <= k -> Zdigits2 (Z.pos m * 2 ^ k) = Z.pos (digits2_pos m) + k.
Proof.
  intros Hk.
  assert (Hp : 0 < 2 ^ k) by (apply Z.pow_pos_nonneg; lia).
  destruct (Z.pos m * 2 ^ k) as [|p|p] eqn:E; try lia.
  rewrite Zdigits2_pos.
  destruct (digits_bounds m) as [Hl Hu], (digits_bounds p) as [Hl' Hu'].
  rewrite <- E in Hl', Hu'.
  assert (H1 : Z.pos (digits2_pos p) - 1 < Z.pos (digits2_pos m) + k).
  { apply (Z.pow_lt_mono_r_iff 2); [lia|lia|].
    rewrite (Z.pow_add_r 2 (Z.pos (digits2_pos m)) k) by lia. nia. }
  assert (H2 : Z.pos (digits2_pos m) - 1 + k < Z.pos (digits2_pos p)).
  { apply (Z.pow_lt_mono_r_iff 2); [lia|lia|].
    rewrite (Z.pow_add_r 2 (Z.pos (digits2_pos m) - 1) k) by lia. nia. }
  lia.
Qed.

(** The sum of two positive numbers is the rounding of their exact sum,
    written at an exponent below those of both. *)
Lemma add_finite ma ea mb eb :
  exists mz e0,
    e0 <= ea /\ e0 <= eb /\
    Z.pos mz = Z.pos ma * 2 ^ (ea - e0) + Z.pos mb * 2 ^ (eb - e0) /\
    e0 <= fexp64 (Z.pos (digits2_pos mz) + e0) /\
    add (S754_finite false ma ea) (S754_finite false mb eb)
    = binary_round_aux prec emax false (Z.pos mz) e0 loc_Exact.
Proof.
  unfold add, SFadd. cbn [cond_Zopp].
  set (ez := Z.min ea eb).
  pose proof (shl_align_spec ma ea ez) as Ha.
  pose proof (shl_align_spec mb eb ez) as Hb.
  destruct (shl_align ma ea ez) as [ma' ea'], (shl_align mb eb ez) as [mb' eb'].
  destruct Ha as [Ea Ha], Hb as [Eb Hb]. cbn [fst].
  replace ea' with ez in Ha by (subst ez; lia).
  replace eb' with ez in Hb by (subst ez; lia).
  change (Z.pos ma' + Z.pos mb') with (Z.pos (ma' + mb')).
  cbn [binary_normalize]. unfold binary_round.
  change (SpecFloat.fexp prec emax) with fexp64.
  set (M := (ma' + mb')%positive).
  pose proof (shl_align_spec M ez (fexp64 (Z.pos (digits2_pos M) + ez))) as Hz.
  destruct (shl_align M ez (fexp64 (Z.pos (digits2_pos M) + ez))) as [mz e0].
  destruct Hz as [E0 Hz].
  exists mz, e0.
  assert (Hd : Z.pos (digits2_pos mz) + e0 = Z.pos (digits2_pos M) + ez).
  { rewrite <- Zdigits2_pos, Hz, digits_shift by lia. lia. }
  split; [subst ez; lia|]. split; [subst ez; lia|]. split.
  - rewrite Hz. subst M. rewrite Pos2Z.inj_add, Ha, Hb.
    rewrite Z.mul_add_distr_r, <- !Z.mul_assoc, <- !Z.pow_add_r by (subst ez; lia).
    f_equal; f_equal; f_equal; lia.
  - split; [|reflexivity]. rewrite Hd. lia.
Qed.

(** A value at most that of a normal number stays so at any finer
    scale. *)
Lemma leb_scaled m e mB eB k :
  leb (S754_finite false m e) (S754_finite false mB eB) = true ->
  Z.pos m < 2 ^ 53 -> 2 ^ 52 <= Z.pos mB -> k <= e ->
  e <= eB /\ Z.pos m * 2 ^ (e - k) <= Z.pos mB * 2 ^ (eB - k).
Proof.
  intros Hl Hm HB Hk. apply leb_finite in Hl.
  assert (Hp : 0 < 2 ^ (e - k)) by (apply Z.pow_pos_nonneg; lia).
  destruct Hl as [Hlt|[-> Hle]]; [|split; [lia|nia]].
  split; [lia|].
  replace (eB - k) with (eB - e - 1 + (1 + (e - k))) by lia.
  rewrite Z.pow_add_r, (Z.pow_add_r 2 1) by lia.
  assert (0 < 2 ^ (eB - e - 1)) by (apply Z.pow_pos_nonneg; lia).
  change (2 ^ 1) with 2.
  assert (Z.pos m <= 2 * Z.pos mB) by lia.
  apply Z.le_trans with (2 * Z.pos mB * 2 ^ (e - k)); [nia|].
  set (P := 2 ^ (e - k)) in *. set (Q := 2 ^ (eB - e - 1)) in *.
  replace (Z.pos mB * (Q * (2 * P))) with (Q * (2 * Z.pos mB * P)) by ring.
  assert (0 <= 2 * Z.pos mB * P) by nia. nia.
Qed.

Lemma leb_of_sum_le A B C :
  normal A = true -> normal B = true -> normal C = true ->
  sum_le A B C = true -> leb A C = true /\ leb B C = true.
Proof.
  intros HA HB HC H.
  apply normal_inv in HA, HB, HC.
  destruct HA as (mA & eA & -> & HmA & HeA), HB as (mB & eB & -> & HmB & HeB),
    HC as (mC & eC & -> & HmC & HeC).
  cbn [sum_le] in H. cbv zeta in H.
  apply andb_prop in H. destruct H as [H H3]. apply andb_prop in H.
  destruct H as [H1 H2].
  apply Z.leb_le in H1, H2, H3.
  set (j := Z.min eA eB) in *.
  assert (0 < 2 ^ (eA - j)) by (apply Z.pow_pos_nonneg; lia).
  assert (0 < 2 ^ (eB - j)) by (apply Z.pow_pos_nonneg; lia).
  split; apply leb_finite.
  - destruct (Z_lt_le_dec eA eC); [left; lia|right].
    assert (eA = eC) by lia. subst eC. split; [reflexivity|]. nia.
  - destruct (Z_lt_le_dec eB eC); [left; lia|right].
    assert (eB = eC) by lia. subst eC. split; [reflexivity|]. nia.
Qed.

(** The sum of two bounded numbers is bounded by any normal number that
    is at least the exact sum of the bounds. *)
Lemma add_bounded A B C a b :
  normal A = true -> normal B = true -> normal C = true ->
  sum_le A B C = true ->
  bounded_by A a -> bounded_by B b -> bounded_by C (add a b).
Proof.
  intros HA HB HC Hsum Ha Hb.
  destruct (leb_of_sum_le A B C HA HB HC Hsum) as [HAC HBC].
  destruct (bounded_by_inv _ _ Ha HA) as [->|[->|(ma & ea & -> & Hma & Hla)]];
    [left; reflexivity| |];
    (destruct (bounded_by_inv _ _ Hb HB) as [->|[->|(mb & eb & -> & Hmb & Hlb)]];
     [left; reflexivity| |]).
  - apply bounded_zero, HC.
  - right. cbn [add SFadd sign_clear fits negb].
    split; [reflexivity|]. split; [apply Z.ltb_lt, Hmb|].
    eapply leb_trans; eassumption.
  - right. cbn [add SFadd sign_clear fits negb].
    split; [reflexivity|]. split; [apply Z.ltb_lt, Hma|].
    eapply leb_trans; eassumption.
  - destruct (add_finite ma ea mb eb) as (mz & e0 & H0a & H0b & Hmz & _ & ->).
    apply normal_inv in HA, HB.
    destruct HA as (mA & eA & -> & HmA & HeA), HB as (mB & eB & -> & HmB & HeB).
    pose proof HC as HC'. apply normal_inv in HC'.
    destruct HC' as (mC & eC & -> & HmC & HeC).
    destruct (leb_scaled _ _ _ _ e0 Hla Hma ltac:(lia) H0a) as [Hea Hva].
    destruct (leb_scaled _ _ _ _ e0 Hlb Hmb ltac:(lia) H0b) as [Heb Hvb].
    cbn [sum_le] in Hsum. cbv zeta in Hsum.
    apply andb_prop in Hsum. destruct Hsum as [Hsum H3]. apply andb_prop in Hsum.
    destruct Hsum as [H1 H2]. apply Z.leb_le in H1, H2, H3.
    right.
    split; [apply round_aux_sign_clear; lia|].
    split; [apply round_aux_fits; lia|].
    apply round_aux_le; [lia|exact HmC|exact HeC|lia|].
    rewrite Hmz.
    set (j := Z.min eA eB) in *.
    assert (Hj : 0 <= j - e0) by lia.
    replace (eA - e0) with (eA - j + (j - e0)) in Hva by lia.
    replace (eB - e0) with (eB - j + (j - e0)) in Hvb by lia.
    replace (eC - e0) with (eC - j + (j - e0)) by lia.
    rewrite Z.pow_add_r in * by lia.
    assert (0 < 2 ^ (j - e0)) by (apply Z.pow_pos_nonneg; lia).
    nia.
Qed.

(** Rounding from below a number of the format: the result is at least
    the normal number [mB * 2^eB] when the exact value is, and it is a
    normal number itself. *)
Lemma round_aux_ge m0 e0 mB eB :
  0 < m0 -> 2 ^ 52 <= Z.pos mB < 2 ^ 53 -> -1074 <= eB ->
  e0 <= eB -> e0 <= fexp64 (Zdigits2 m0 + e0) ->
  Z.pos mB * 2 ^ (eB - e0) <= m0 ->
  let r := binary_round_aux prec emax false m0 e0 loc_Exact in
  leb (S754_finite false mB eB) r = true /\
  (r = S754_infinity false \/
   exists m e, r = S754_finite false m e /\ 2 ^ 52 <= Z.pos m < 2 ^ 53).
Proof.
  intros Hm0 HmB HeB He Hpre Hv. cbv zeta.
  destruct (round_aux_cases false m0 e0 loc_Exact ltac:(lia))
    as (m2 & Hr & Hm1 & _ & ->).
  destruct m0 as [|p|p]; try lia.
  rewrite Zdigits2_pos in *.
  set (d := Z.pos (digits2_pos p)) in *.
  assert (Hp : 0 < 2 ^ (eB - e0)) by (apply Z.pow_pos_nonneg; lia).
  assert (Hd : 52 + (eB - e0) < d).
  { apply digits_gt; [lia|]. rewrite Z.pow_add_r by lia. nia. }
  rewrite fexp64_eq in *.
  replace (Z.max e0 (Z.max (d + e0 - 53) (-1074))) with (d + e0 - 53) in * by lia.
  replace (d + e0 - 53 - e0) with (d - 53) in * by lia.
  assert (Hk : 0 < 2 ^ (d - 53)) by (apply Z.pow_pos_nonneg; lia).
  destruct (digits_bounds p) as [Hl _]. fold d in Hl.
  assert (H52 : 2 ^ 52 <= Z.pos p / 2 ^ (d - 53)).
  { apply Z.div_le_lower_bound; [exact Hk|].
    rewrite <- Z.pow_add_r by lia. replace (d - 53 + 52) with (d - 1) by lia.
    exact Hl. }
  assert (HmBle : d + e0 - 53 = eB -> Z.pos mB <= Z.pos p / 2 ^ (d - 53)).
  { intros E. apply Z.div_le_lower_bound; [exact Hk|].
    replace (d - 53) with (eB - e0) by lia. lia. }
  unfold round_result.
  replace (m2 =? 0) with false by lia.
  destruct (Z.ltb_spec m2 (2 ^ 53)).
  - destruct (d + e0 - 53 <=? 971); [|split; [reflexivity|left; reflexivity]].
    split.
    + apply leb_finite. rewrite Z2Pos.id by lia.
      destruct (Z_lt_le_dec eB (d + e0 - 53)); [left; lia|right].
      split; [lia|]. specialize (HmBle ltac:(lia)). lia.
    + right. eexists _, _. split; [reflexivity|]. rewrite Z2Pos.id by lia. lia.
  - destruct (d + e0 - 53 + 1 <=? 971); [|split; [reflexivity|left; reflexivity]].
    split.
    + apply leb_finite. left. lia.
    + right. eexists _, _. split; [reflexivity|]. rewrite Z2Pos.id by lia. lia.
Qed.

(** Adding a number that is at least 0 to a normal constant gives at
    least the constant, and a normal number. *)
Lemma add_const_ge c y :
  normal c = true ->
  y = S754_zero false \/ (exists m e, y = S754_finite false m e) ->
  leb c (add c y) = true /\
  (add c y = S754_infinity false \/
   exists m e, add c y = S754_finite false m e /\ 2 ^ 52 <= Z.pos m < 2 ^ 53).
Proof.
  intros Hc Hy. apply normal_inv in Hc.
  destruct Hc as (mc & ec & -> & Hmc & Hec).
  destruct Hy as [->|(m & e & ->)].
  - cbn [add SFadd]. split.
    + apply leb_finite. right. lia.
    + right. exists mc, ec. split; [reflexivity|exact Hmc].
  - destruct (add_finite mc ec m e) as (mz & e0 & H0a & H0b & Hmz & Hpre & ->).
    apply round_aux_ge; [lia|lia|lia|lia|exact Hpre|].
    rewrite Hmz. assert (0 < 2 ^ (e - e0)) by (apply Z.pow_pos_nonneg; lia). nia.
Qed.

(** *** Division of two integers *)

Lemma new_location_zero n : new_location n 0 = loc_Exact.
Proof. unfold new_location. destruct (Z.even n); reflexivity. Qed.

(** The quotient of a count by a total that is at least the count is at
    most 1.0. *)
Lemma truediv_le_one v l :
  0 <= v <= l -> 1 <= l -> bounded_by one_f (truediv v l).
Proof.
  intros Hv Hl. unfold truediv.
  destruct l as [|pl|pl]; try lia.
  destruct v as [|pv|pv]; try lia.
  { apply bounded_zero. reflexivity. }
  cbn [int_float]. unfold div, SFdiv, SFdiv_core_binary. cbn [xorb].
  change (SpecFloat.fexp prec emax) with fexp64.
  rewrite !Zdigits2_pos, !Z.add_0_r, Z.sub_0_r.
  set (d1 := Z.pos (digits2_pos pv)). set (d2 := Z.pos (digits2_pos pl)).
  assert (Hd : d1 <= d2).
  { destruct (digits_bounds pl) as [_ Hu]. apply digits_le; [lia|]. fold d2 in Hu. lia. }
  rewrite fexp64_eq.
  set (e' := Z.min (Z.max (d1 - d2 - 53) (-1074)) 0).
  assert (He' : e' <= -53) by (subst e'; lia).
  replace (0 - e') with (- e') by lia.
  destruct (- e') as [|s|s] eqn:Es; try lia.
  rewrite Z.shiftl_mul_pow2 by lia.
  assert (Hs : 0 < 2 ^ Z.pos s) by (apply Z.pow_pos_nonneg; lia).
  pose proof (Z.div_mod (Z.pos pv * 2 ^ Z.pos s) (Z.pos pl) ltac:(lia)) as Hdm.
  pose proof (Z.mod_pos_bound (Z.pos pv * 2 ^ Z.pos s) (Z.pos pl) ltac:(lia)) as Hmb.
  pose proof (Z.div_pos (Z.pos pv * 2 ^ Z.pos s) (Z.pos pl) ltac:(lia) ltac:(lia)) as Hq0.
  unfold Z.div, Z.modulo in Hdm, Hmb, Hq0.
  destruct (Z.div_eucl (Z.pos pv * 2 ^ Z.pos s) (Z.pos pl)) as [q r].
  assert (Hq : q <= 2 ^ Z.pos s) by nia.
  destruct (round_aux_cases false q e' (new_location (Z.pos pl) r) Hq0)
    as (m2 & Hr & Hm1 & Hex & E).
  right. rewrite E.
  split; [apply round_result_sign|].
  split; [apply round_result_fits; lia|].
  destruct (Z_lt_le_dec q (2 ^ Z.pos s)) as [Hlt|Hge].
  - apply leb_round_result; [lia|lia|lia|]. left.
    assert (Zdigits2 q <= Z.pos s).
    { destruct q as [|pq|pq]; [cbn [Zdigits2]; lia| |lia].
      rewrite Zdigits2_pos. apply digits_le; [lia|exact Hlt]. }
    rewrite fexp64_eq. lia.
  - assert (Eq : q = 2 ^ Z.pos s) by lia.
    assert (Er : r = 0) by nia.
    assert (Edq : Zdigits2 q = 1 + Z.pos s).
    { rewrite Eq. replace (2 ^ Z.pos s) with (Z.pos 1 * 2 ^ Z.pos s) by lia.
      rewrite digits_shift by lia. reflexivity. }
    rewrite Edq, fexp64_eq in *.
    replace (Z.max e' (Z.max (1 + Z.pos s + e' - 53) (-1074))) with (-52) in * by lia.
    assert (Em1 : q / 2 ^ (-52 - e') = 2 ^ 52).
    { rewrite Eq. replace (Z.pos s) with (52 + (-52 - e')) by lia.
      rewrite Z.pow_add_r by lia. apply Z.div_mul.
      apply Z.pow_nonzero; lia. }
    assert (Em2 : m2 = 2 ^ 52).
    { rewrite <- Em1. apply Hex.
      - rewrite Er. apply new_location_zero.
      - rewrite Eq. replace (Z.pos s) with (52 + (-52 - e')) by lia.
        rewrite Z.pow_add_r by lia. apply Z.mod_mul.
        apply Z.pow_nonzero; lia. }
    rewrite Em2. reflexivity.
Qed.

(** *** Rounding to four decimals *)

Lemma in_range lo hi z : lo <= z < hi -> In z (range lo hi).
Proof.
  intros H. unfold range. apply List.in_map_iff.
  exists (Z.to_nat (z - lo)). split; [lia|].
  apply List.in_seq. lia.
Qed.

Lemma quotient_table : List.forallb quotient_ok (range 1 10001) = true.
Proof. vm_compute. reflexivity. Qed.

Lemma rounded_quotient_ok p :
  Z.pos p <= 10000 ->
  unit_score (rounded_quotient p) = true /\
  (9500 <= Z.pos p -> leb (fl "0.95") (rounded_quotient p) = true).
Proof.
  intros H.
  pose proof (proj1 (List.forallb_forall quotient_ok (range 1 10001)) quotient_table
                (Z.pos p) (in_range 1 10001 (Z.pos p) ltac:(lia))) as Hq.
  cbn [quotient_ok] in Hq. apply andb_prop in Hq. destruct Hq as [H1 H2].
  split; [exact H1|]. intros H95.
  apply orb_prop in H2. destruct H2 as [H2|H2]; [lia|exact H2].
Qed.

Lemma round_half_even_range num den :
  0 <= num -> 0 < den ->
  num / den <= round_half_even num den <= num / den + 1 /\
  (num mod den = 0 -> round_half_even num den = num / den).
Proof.
  intros Hn Hd. unfold round_half_even.
  pose proof (Z.mod_pos_bound num den Hd).
  destruct (Z.compare_spec (2 * (num mod den)) den); split; try lia;
    try (destruct (Z.even (num / den)); lia).
Qed.

(** [round(x, 4)] of a score that is at most 1.0000000000000002 is 0.0
    or one of the quotients of the table. *)
Lemma round_bounded x :
  bounded_by one_up x -> x <> S754_nan ->
  round x 4 = S754_zero false \/
  exists p, Z.pos p <= 10000 /\ round x 4 = rounded_quotient p.
Proof.
  intros Hx Hn.
  destruct (bounded_by_inv _ _ Hx eq_refl) as [->|[->|(m & e & -> & Hm & Hl)]];
    [congruence|left; reflexivity|].
  unfold one_up in Hl. apply leb_finite in Hl.
  unfold round. replace (0 <=? e) with false by lia.
  set (den := 2 ^ (- e)).
  assert (Hden : 0 < den) by (apply Z.pow_pos_nonneg; lia).
  destruct (round_half_even_range (Z.pos m * 10 ^ 4) den ltac:(lia) Hden)
    as [Hr Hex].
  assert (Hq0 : 0 <= Z.pos m * 10 ^ 4 / den) by (apply Z.div_pos; lia).
  assert (Hup : round_half_even (Z.pos m * 10 ^ 4) den <= 10000).
  { destruct Hl as [Hlt|[-> Hle]].
    - assert (2 ^ 53 <= den) by (apply Z.pow_le_mono_r; lia).
      assert (Z.pos m * 10 ^ 4 / den < 10000); [|lia].
      apply Z.div_lt_upper_bound; [exact Hden|]. change (10 ^ 4) with 10000. lia.
    - subst den. change (2 ^ (- -52)) with 4503599627370496 in *.
      change (10 ^ 4) with 10000 in *.
      unfold round_half_even.
      assert (Z.pos m = 4503599627370497 \/ Z.pos m <= 4503599627370496) as [E|E] by lia.
      + rewrite E. vm_compute. discriminate.
      + assert (Z.pos m * 10000 / 4503599627370496 <= 10000)
          by (apply Z.div_le_upper_bound; lia).
        destruct (Z_lt_le_dec (Z.pos m * 10000 / 4503599627370496) 10000) as [Hs|Hs].
        * destruct (_ ?= _); [destruct (Z.even _)| |]; lia.
        * assert (Em : Z.pos m = 4503599627370496).
          { pose proof (Z.mul_div_le (Z.pos m * 10000) 4503599627370496 ltac:(lia)).
            lia. }
          rewrite Em. vm_compute. discriminate. }
  destruct (round_half_even (Z.pos m * 10 ^ 4) den) as [|p|p] eqn:E;
    [left; reflexivity| |lia].
  right. exists p. split; [exact Hup|reflexivity].
Qed.

(** Lines 179-189 on a score that is NaN or bounded: the score that is
    output lies in (0, 1]. *)
Lemma final_floor : App.final_score_of (fl "0.01") = fl "0.01".
Proof. vm_compute. reflexivity. Qed.

Lemma final_score_unit s :
  bounded_by one_up s -> unit_score (App.final_score_of s) = true.
Proof.
  intros Hs. unfold App.final_score_of.
  destruct (bounded_by_inv _ _ Hs eq_refl) as [->|[->|(m & e & -> & Hm & Hl)]].
  - vm_compute. reflexivity.
  - vm_compute. reflexivity.
  - cbn [isnan isinf orb].
    replace (ltb (S754_finite false m e) (of_int 0)) with false by reflexivity.
    unfold py_max.
    destruct (ltb (fl "0.01") (S754_finite false m e)) eqn:E;
      [|vm_compute; reflexivity].
    destruct (round_bounded _ Hs ltac:(discriminate)) as [->|(p & Hp & ->)].
    + vm_compute. reflexivity.
    + destruct (rounded_quotient_ok p Hp) as [Hu _].
      pose proof Hu as Hu'. unfold unit_score in Hu'.
      apply andb_prop in Hu'. destruct Hu' as [Hpos _].
      replace (leb (rounded_quotient p) zero) with false; [exact Hu|].
      symmetry. destruct (leb (rounded_quotient p) zero) eqn:El; [|reflexivity].
      apply leb_not_ltb in El. congruence.
Qed.

(** The policy of lines 179-181: a score that is NaN, infinite or
    negative is replaced by 0.01, which is what is output for it. *)
Lemma final_score_replaced s :
  isnan s || isinf s || ltb s (of_int 0) = true ->
  App.final_score_of s = fl "0.01".
Proof.
  intros H. unfold App.final_score_of. rewrite H.
  vm_compute. reflexivity.
Qed.

Lemma fl_one : fl "1.0" = one_f.
Proof. vm_compute. reflexivity. Qed.

Lemma bounded_by_weaken B C x :
  normal B = true -> normal C = true -> leb B C = true ->
  bounded_by B x -> bounded_by C x.
Proof.
  intros HB HC HBC [->|(Hs & Hf & Hl)]; [left; reflexivity|right].
  repeat split; try assumption. eapply leb_trans; eassumption.
Qed.

Lemma ltb_sign_clear c x :
  normal c = true -> ltb c x = true -> sign_clear x = true.
Proof.
  intros Hc. apply normal_inv in Hc. destruct Hc as (mc & ec & -> & _).
  destruct x as [[]|[]| |[] m e]; intros H; try discriminate; reflexivity.
Qed.

Lemma bounded_const c : normal c = true -> bounded_by c c.
Proof.
  intros Hc. pose proof Hc as Hc'. apply normal_inv in Hc'.
  destruct Hc' as (mc & ec & -> & Hmc & Hec).
  right. repeat split.
  - cbn [fits]. apply Z.ltb_lt. lia.
  - apply leb_finite. right. lia.
Qed.

(** The two clamps of the scoring functions keep a number whose
    mantissa fits within [0.01, 1.0]. *)
Lemma max_min_bounded x :
  fits x = true -> bounded_by one_f (py_max (fl "0.01") (py_min (fl "1.0") x)).
Proof.
  intros Hx. unfold py_max, py_min.
  destruct (ltb x (fl "1.0")) eqn:E1.
  - destruct (ltb (fl "0.01") x) eqn:E2.
    + right. split; [eapply ltb_sign_clear; [|exact E2]; vm_compute; reflexivity|].
      split; [exact Hx|]. rewrite <- fl_one. apply ltb_leb, E1.
    + right. vm_compute. repeat split.
  - replace (ltb (fl "0.01") (fl "1.0")) with true by (vm_compute; reflexivity).
    right. vm_compute. repeat split.
Qed.

Lemma min_max_bounded x :
  fits x = true -> bounded_by one_f (py_min (fl "1.0") (py_max (fl "0.01") x)).
Proof.
  intros Hx. unfold py_max, py_min.
  destruct (ltb (fl "0.01") x) eqn:E2.
  - destruct (ltb x (fl "1.0")) eqn:E1.
    + right. split; [eapply ltb_sign_clear; [|exact E2]; vm_compute; reflexivity|].
      split; [exact Hx|]. rewrite <- fl_one. apply ltb_leb, E1.
    + right. vm_compute. repeat split.
  - replace (ltb (fl "0.01") (fl "1.0")) with true by (vm_compute; reflexivity).
    right. vm_compute. repeat split.
Qed.

Section WithRuntime.
Context {rt : PyRuntime}.

Lemma chi2_to_score_fits stat :
  exp_returns_double -> fits (Scoring.chi2_to_score stat) = true.
Proof.
  intros Hexp. unfold Scoring.chi2_to_score.
  destruct (ltb stat (of_int 1)); [vm_compute; reflexivity|].
  destruct (ltb stat (of_int 50)); [apply Hexp|apply div_fits].
Qed.

Lemma chi_squared_bounded text expected :
  exp_returns_double ->
  bounded_by one_f (Scoring.chi_squared_letter_score text expected).
Proof.
  intros Hexp. unfold Scoring.chi_squared_letter_score.
  destruct (len (Scoring.letters_of text) =? 0).
  - right. vm_compute. repeat split.
  - apply max_min_bounded, chi2_to_score_fits, Hexp.
Qed.

Lemma heuristic_score_bounded text resources :
  bounded_by one_f (Scoring.heuristic_score text resources).
Proof.
  unfold Scoring.heuristic_score, Scoring.weighted_score. cbv zeta.
  apply min_max_bounded.
  destruct (Scoring.h_is_single_word _); [|destruct (Scoring.h_is_short _)];
    repeat (apply add_fits); apply mul_fits.
Qed.

Lemma filter_len_le {A} (f : A -> bool) (l : list A) :
  0 <= len (List.filter f l) <= len l.
Proof.
  unfold len. induction l as [|x l IH]; cbn [List.filter List.length]; [lia|].
  destruct (f x); cbn [List.length]; lia.
Qed.

Lemma valid_word_ratio_bounded text vocabulary :
  bounded_by one_f (Scoring.valid_word_ratio text vocabulary).
Proof.
  unfold Scoring.valid_word_ratio.
  destruct (negb (Scoring.set_truth vocabulary)); [apply bounded_zero; reflexivity|].
  destruct (findall_words (lower text)) as [|w ws] eqn:E;
    [apply bounded_zero; reflexivity|].
  cbv zeta.
  set (words := w :: ws).
  pose proof (filter_len_le (fun w => bool_decide (w ∈ vocabulary)) words) as Hv.
  assert (Hl : 1 <= len words) by (unfold len, words; cbn [List.length]; lia).
  pose proof (truediv_le_one _ _ Hv Hl) as Hr.
  destruct (eqb _ (fl "1.0") && (len words >? 0)); [|exact Hr].
  unfold py_min.
  destruct (ltb (add _ (fl "0.05")) (fl "1.0")) eqn:Elt;
    [|rewrite fl_one; apply bounded_const; reflexivity].
  assert (Hb : bounded_by (S754_finite false 4503599627370496 (-51))
                 (add (truediv (len (List.filter (fun w => bool_decide (w ∈ vocabulary)) words))
                               (len words)) (fl "0.05"))).
  { apply (add_bounded one_f (fl "0.05"));
      [reflexivity|vm_compute; reflexivity|reflexivity|vm_compute; reflexivity
      |exact Hr|apply bounded_const; vm_compute; reflexivity]. }
  destruct Hb as [Hn|(Hs & Hf & _)].
  - rewrite Hn in Elt. discriminate.
  - right. split; [exact Hs|]. split; [exact Hf|].
    rewrite <- fl_one. apply ltb_leb, Elt.
Qed.

End WithRuntime.

(** The weighted sums of [combine_scores] stay at most
    1.0000000000000002 (the weights of the multi-word branches add up,
    exactly, to a little more than 1.0). *)
Ltac weigh c := apply (mul_bounded _ c); [assumption|vm_compute; reflexivity].

Ltac sum_of A B C :=
  apply (add_bounded A B C);
  [vm_compute; reflexivity|vm_compute; reflexivity|vm_compute; reflexivity
  |vm_compute; reflexivity| |].

Lemma combine_scores_bounded is_single_word is_dict_match h w f :
  bounded_by one_f h -> bounded_by one_f w -> bounded_by one_f f ->
  bounded_by one_up (App.combine_scores is_single_word is_dict_match h w f).
Proof.
  intros Hh Hw Hf. unfold App.combine_scores.
  destruct is_single_word; [destruct is_dict_match|].
  - apply (bounded_by_weaken one_f);
      [reflexivity|reflexivity|reflexivity|].
    sum_of (fl "0.95") (fl "0.05") one_f;
      [apply bounded_const; vm_compute; reflexivity|weigh (fl "0.05")].
  - cbv zeta.
    assert (Hs : bounded_by one_f (add (mul f (fl "0.65")) (mul h (fl "0.35")))).
    { sum_of (fl "0.65") (fl "0.35") one_f; [weigh (fl "0.65")|weigh (fl "0.35")]. }
    destruct (ltb _ (fl "0.2")).
    + apply (bounded_by_weaken (fl "0.3"));
        [vm_compute; reflexivity|reflexivity|vm_compute; reflexivity|].
      apply (mul_bounded _ (fl "0.3")); [exact Hs|vm_compute; reflexivity].
    + apply (bounded_by_weaken one_f);
        [reflexivity|reflexivity|reflexivity|exact Hs].
  - destruct (ltb (fl "0.7") w); [|destruct (ltb (fl "0.4") w);
                                    [|destruct (ltb (of_int 0) w)]].
    + sum_of (S754_finite false 7656119366529844 (-53)) (fl "0.15") one_up;
        [|weigh (fl "0.15")].
      sum_of (fl "0.55") (fl "0.30") (S754_finite false 7656119366529844 (-53));
        [weigh (fl "0.55")|weigh (fl "0.30")].
    + sum_of (S754_finite false 7205759403792794 (-53)) (fl "0.20") one_up;
        [|weigh (fl "0.20")].
      sum_of (fl "0.45") (fl "0.35") (S754_finite false 7205759403792794 (-53));
        [weigh (fl "0.45")|weigh (fl "0.35")].
    + sum_of (S754_finite false 6305039478318695 (-53)) (fl "0.30") one_up;
        [|weigh (fl "0.30")].
      sum_of (fl "0.30") (fl "0.40") (S754_finite false 6305039478318695 (-53));
        [weigh (fl "0.30")|weigh (fl "0.40")].
    + sum_of (fl "0.55") (fl "0.45") one_up; [weigh (fl "0.55")|weigh (fl "0.45")].
Qed.

Lemma fl_095 : fl "0.95" = S754_finite false 8556839292003942 (-53).
Proof. vm_compute. reflexivity. Qed.

(** [round(x, 4)] of a normal number between 0.95 and 1.0 is one of the
    quotients from 9500 on. *)
Lemma round_score_ge m e :
  2 ^ 52 <= Z.pos m < 2 ^ 53 ->
  leb (fl "0.95") (S754_finite false m e) = true ->
  leb (S754_finite false m e) one_f = true ->
  exists p, 9500 <= Z.pos p <= 10000 /\
            round (S754_finite false m e) 4 = rounded_quotient p.
Proof.
  intros Hm Hlo Hhi. rewrite fl_095 in Hlo.
  apply leb_finite in Hlo. unfold one_f in Hhi. apply leb_finite in Hhi.
  assert (He : (e = -53 /\ 8556839292003942 <= Z.pos m)
               \/ (e = -52 /\ Z.pos m = 4503599627370496)).
  { change (2 ^ 52) with 4503599627370496 in Hm. lia. }
  destruct He as [[-> Hge]|[-> Em]].
  - unfold round. change (0 <=? -53) with false. cbv iota.
    change (- -53) with 53.
    change (2 ^ 53) with 9007199254740992 in *. change (10 ^ 4) with 10000.
    assert (Hd : 0 < 9007199254740992) by lia.
    pose proof (Z.div_mod (Z.pos m * 10000) 9007199254740992 ltac:(lia)) as Hdm.
    pose proof (Z.mod_pos_bound (Z.pos m * 10000) 9007199254740992 Hd) as Hmb.
    assert (Hq : 9499 <= Z.pos m * 10000 / 9007199254740992 <= 9999).
    { split; [apply Z.div_le_lower_bound; lia|].
      assert (Z.pos m * 10000 / 9007199254740992 < 10000); [|lia].
      apply Z.div_lt_upper_bound; lia. }
    assert (Hr : 9500 <= round_half_even (Z.pos m * 10000) 9007199254740992 <= 10000).
    { unfold round_half_even.
      destruct (Z.compare_spec (2 * ((Z.pos m * 10000) mod 9007199254740992))
                               9007199254740992);
        [destruct (Z.even _)| |]; lia. }
    destruct (round_half_even (Z.pos m * 10000) 9007199254740992) as [|p|p] eqn:E;
      try lia.
    exists p. split; [lia|reflexivity].
  - assert (m = 4503599627370496%positive) by lia. subst m.
    exists 10000%positive. split; [lia|]. vm_compute. reflexivity.
Qed.

(** The product of two positive finite numbers is 0.0, positive and
    finite, or infinite. *)
Lemma mul_finite_cases m e m' e' :
  let y := mul (S754_finite false m e) (S754_finite false m' e') in
  y = S754_zero false \/ (exists my ey, y = S754_finite false my ey)
  \/ y = S754_infinity false.
Proof.
  cbv zeta. unfold mul, SFmul. cbn [xorb].
  destruct (round_aux_cases false (Z.pos (m * m')) (e + e') loc_Exact ltac:(lia))
    as (m2 & _ & _ & _ & ->).
  unfold round_result.
  destruct (m2 =? 0); [left; reflexivity|right].
  destruct (m2 <? 2 ^ 53);
    [destruct (_ <=? 971)|destruct (_ <=? 971)];
    try (left; eexists _, _; reflexivity); right; reflexivity.
Qed.

Lemma unit_score_sent x : unit_score x = true -> App.sent_score x = x.
Proof.
  unfold unit_score, App.sent_score. intros H. apply andb_prop in H.
  destruct H as [H _].
  destruct (leb x zero) eqn:E; [|reflexivity].
  apply leb_not_ltb in E. congruence.
Qed.

End FloatRounding.

(** * Properties of the scoring engine *)
Module ScoringEngineFacts.
Import Scoring App Spec FloatOrder FloatRounding.

Section WithRuntime.
Context {rt : PyRuntime}.

Lemma score_candidate_score resources av ef sw k p :
  score (fst (score_candidate resources av ef sw k p))
  = final_score_of
      (combine_scores sw (bool_decide (lower (strip p) ∈ av))
         (heuristic_score p resources)
         (if set_truth av then valid_word_ratio p av else zero)
         (chi_squared_letter_score p (Some ef))).
Proof. reflexivity. Qed.

Lemma score_candidate_unit resources av ef sw k p :
  exp_returns_double ->
  unit_score (score (fst (score_candidate resources av ef sw k p))) = true.
Proof.
  intros Hexp. rewrite score_candidate_score.
  apply final_score_unit, combine_scores_bounded.
  - apply heuristic_score_bounded.
  - destruct (set_truth av);
      [apply valid_word_ratio_bounded|apply bounded_zero; reflexivity].
  - apply chi_squared_bounded, Hexp.
Qed.

Lemma scored_candidates_unit get_resources req :
  exp_returns_double ->
  List.Forall (fun c => unit_score (score c) = true)
              (scored_candidates get_resources req).
Proof.
  intros Hexp. unfold scored_candidates. apply List.Forall_forall.
  intros c Hc. apply List.in_map_iff in Hc. destruct Hc as (kp & <- & _).
  apply score_candidate_unit, Hexp.
Qed.

(** *** The response of [analyze] *)

Lemma score_loop (f : Z -> str -> candidate * list event) l cs out :
  fold_left
    (fun '(candidates, out) '(k, plaintext) =>
       let '(c, o) := f k plaintext in (candidates ++ [c], out ++ o))
    l (cs, out)
  = (cs ++ List.map (fun kp => fst (f (fst kp) (snd kp))) l,
     out ++ List.flat_map (fun kp => snd (f (fst kp) (snd kp))) l).
Proof.
  revert cs out. induction l as [|[k p] l IH]; intros cs out.
  - cbn [fold_left List.map List.flat_map]. rewrite !app_nil_r. reflexivity.
  - cbn [fold_left List.map List.flat_map fst snd].
    destruct (f k p) as [c o] eqn:E. rewrite IH.
    cbn [fst snd]. rewrite <- !app_assoc. reflexivity.
Qed.

Lemma insert_desc_cons x l : exists b r, insert_desc x l = b :: r.
Proof.
  destruct l as [|y l]; cbn [insert_desc]; [eexists _, _; reflexivity|].
  destruct (ltb (score x) (score y)); eexists _, _; reflexivity.
Qed.

(** A request with a text is answered by the best of the ranked
    candidates and the first five of them. *)
Lemma analyze_response get_resources req :
  request_text req <> [] ->
  exists best rest,
    sort_desc (scored_candidates get_resources req) = best :: rest /\
    fst (analyze get_resources req)
    = Ok (firstn 500 (request_text req)) (key best)
         (firstn 500 (plaintext best))
         (sent_score (sent_score (score best)))
         (List.map sent (firstn 5 (best :: rest))).
Proof.
  intros Hne. unfold analyze. fold (request_text req). fold (request_lang req).
  destruct (request_text req) as [|c0 ct] eqn:Ect; [congruence|].
  cbv zeta. rewrite score_loop. cbn [app].
  fold (request_lang req).
  set (scored := List.map _ (Bruteforce.brute_force_caesar (c0 :: ct))).
  assert (Es : scored = scored_candidates get_resources req).
  { unfold scored_candidates. rewrite Ect. reflexivity. }
  assert (Hsc : exists s0 ss, scored = s0 :: ss).
  { subst scored. rewrite BruteforceFacts.brute_force_caesar_map.
    cbn [range Z.to_nat Z.sub Z.opp Z.add Pos.to_nat Pos.iter_op Nat.add seq List.map].
    eexists _, _. reflexivity. }
  destruct Hsc as (s0 & ss & Hsc). rewrite Hsc.
  assert (Hsort : exists best rest, sort_desc (s0 :: ss) = best :: rest).
  { cbn [sort_desc fold_right]. apply insert_desc_cons. }
  destruct Hsort as (best & rest & Hsort).
  exists best, rest. rewrite <- Es, Hsc. split; [exact Hsort|].
  rewrite Hsort. reflexivity.
Qed.

(** C3.  Given that [math.exp] returns binary64 numbers, every candidate
    that [analyze] scores gets a score in (0, 1], never 0.0; a computed
    score that is NaN, infinite or negative is replaced by 0.01, which
    is the score output for it; and the scores of the response (the best
    score and those of the top five) lie in (0, 1] as well. *)
Theorem produced_scores_in_unit_interval (get_resources : str -> Resources)
    (req : request) :
  exp_returns_double ->
  List.Forall
    (fun c => ltb zero (score c) = true /\ leb (score c) (fl "1.0") = true
              /\ eqb (score c) zero = false)
    (scored_candidates get_resources req) /\
  (forall s, isnan s || isinf s || ltb s (of_int 0) = true ->
             final_score_of s = fl "0.01") /\
  match fst (analyze get_resources req) with
  | Ok _ _ _ best_score candidates =>
      unit_score best_score = true /\
      List.Forall (fun c => unit_score (score c) = true) candidates
  | Error _ _ => True
  end.
Proof.
  intros Hexp.
  pose proof (scored_candidates_unit get_resources req Hexp) as Hall.
  split; [|split].
  - eapply List.Forall_impl; [|exact Hall].
    intros c Hc. cbv beta in Hc. unfold unit_score in Hc.
    apply andb_prop in Hc. destruct Hc as [H1 H2].
    repeat split; try assumption.
    rewrite RankingFacts.eqb_sym. apply ltb_not_eqb, H1.
  - apply final_score_replaced.
  - destruct (request_text req) as [|c0 ct] eqn:Ect.
    + unfold analyze. fold (request_text req). rewrite Ect. exact I.
    + destruct (analyze_response get_resources req ltac:(congruence))
        as (best & rest & Hsort & ->).
      assert (Hranked : List.Forall (fun c => unit_score (score c) = true)
                          (best :: rest)).
      { rewrite <- Hsort.
        eapply Permutation_Forall;
          [symmetry; apply RankingFacts.sort_desc_perm|exact Hall]. }
      inversion Hranked as [|? ? Hb Hr]; subst.
      split.
      * rewrite !unit_score_sent by (rewrite ?unit_score_sent; exact Hb). exact Hb.
      * apply List.Forall_forall. intros c Hc.
        apply List.in_map_iff in Hc. destruct Hc as (c' & <- & Hc').
        cbn [sent score]. 
        assert (Hu : unit_score (score c') = true).
        { pose proof (Forall_take _ 5 _ Hranked) as Htop.
          rewrite List.Forall_forall in Htop. apply Htop, Hc'. }
        rewrite unit_score_sent; exact Hu.
Qed.

(** The branch of lines 151-155: with the flag [is_single_word] set, a
    candidate whose stripped and lower-cased plaintext is in the
    vocabulary is scored 0.95 plus the letter-frequency score times
    0.05, which is at least 0.95 and at most 1.0, before and after the
    rounding. *)
Lemma dict_match_score (resources : Resources) (augmented_vocab : gset str)
    (expected_freq : gmap str float) (k : Z) (plaintext : str) :
  exp_returns_double ->
  lower (strip plaintext) ∈ augmented_vocab ->
  let freq_score := chi_squared_letter_score plaintext (Some expected_freq) in
  let raw := add (fl "0.95") (mul freq_score (fl "0.05")) in
  let c := fst (score_candidate resources augmented_vocab expected_freq true
                  k plaintext) in
  score c = final_score_of raw /\
  leb (fl "0.95") raw = true /\ leb raw (fl "1.0") = true /\
  leb (fl "0.95") (score c) = true /\ leb (score c) (fl "1.0") = true.
Proof.
  intros Hexp Hin. cbv zeta.
  rewrite score_candidate_score. rewrite (bool_decide_eq_true_2 _ Hin).
  cbn [combine_scores].
  set (f := chi_squared_letter_score plaintext (Some expected_freq)).
  pose proof (chi_squared_bounded plaintext (Some expected_freq) Hexp) as Hf.
  fold f in Hf.
  destruct (ChiSquaredFacts.chi_squared_bounds plaintext (Some expected_freq))
    as [Hlo _]. fold f in Hlo.
  assert (Hy : bounded_by (fl "0.05") (mul f (fl "0.05")))
    by (apply mul_bounded; [exact Hf|vm_compute; reflexivity]).
  assert (Hycases : mul f (fl "0.05") = S754_zero false
                    \/ exists m e, mul f (fl "0.05") = S754_finite false m e).
  { destruct (bounded_by_inv _ _ Hf eq_refl) as [E|[E|(m & e & E & _)]];
      rewrite E in *.
    - discriminate Hlo.
    - discriminate Hlo.
    - replace (fl "0.05") with (S754_finite false 7205759403792794 (-57)) in *
        by (vm_compute; reflexivity).
      destruct (mul_finite_cases m e 7205759403792794 (-57)) as [Ey|[Ey|Ey]];
        [left; exact Ey|right; exact Ey|].
      rewrite Ey in Hy. destruct Hy as [Hy|(_ & _ & Hy)]; discriminate Hy. }
  set (raw := add (fl "0.95") (mul f (fl "0.05"))).
  assert (Hup : bounded_by one_f raw).
  { apply (add_bounded (fl "0.95") (fl "0.05") one_f);
      [vm_compute; reflexivity|vm_compute; reflexivity|reflexivity
      |vm_compute; reflexivity|apply bounded_const; vm_compute; reflexivity
      |exact Hy]. }
  destruct (add_const_ge (fl "0.95") (mul f (fl "0.05"))
              ltac:(vm_compute; reflexivity) Hycases) as [Hge Hform].
  fold raw in Hge, Hform.
  assert (Hle : leb raw (fl "1.0") = true).
  { destruct Hup as [E|(_ & _ & Hl)].
    - rewrite E in Hge. discriminate Hge.
    - rewrite fl_one. exact Hl. }
  destruct Hform as [E|(m & e & E & Hm)];
    [rewrite E in Hle; discriminate Hle|].
  assert (Hfinal : exists p, 9500 <= Z.pos p <= 10000
                             /\ final_score_of raw = rounded_quotient p).
  { rewrite E in *.
    destruct (round_score_ge m e Hm Hge ltac:(rewrite <- fl_one; exact Hle))
      as (p & Hp & Hround).
    exists p. split; [exact Hp|].
    unfold final_score_of. cbn [isnan isinf orb].
    replace (ltb (S754_finite false m e) (of_int 0)) with false by reflexivity.
    unfold py_max.
    replace (ltb (fl "0.01") (S754_finite false m e)) with true.
    - rewrite Hround.
      destruct (rounded_quotient_ok p ltac:(lia)) as [Hu _].
      pose proof (unit_score_sent _ Hu) as Hs. unfold sent_score in Hs. exact Hs.
    - symmetry.
      destruct (ltb (fl "0.01") (S754_finite false m e)) eqn:El; [reflexivity|].
      apply not_ltb_leb in El; [|reflexivity|reflexivity].
      pose proof (leb_trans _ _ _ Hge El) as Hbad.
      vm_compute in Hbad. discriminate Hbad. }
  destruct Hfinal as (p & Hp & Hfinal).
  split; [reflexivity|]. split; [exact Hge|]. split; [exact Hle|].
  rewrite Hfinal.
  destruct (rounded_quotient_ok p ltac:(lia)) as [Hu H95].
  split; [apply H95; lia|].
  unfold unit_score in Hu. apply andb_prop in Hu. tauto.
Qed.

(** C8, as the code has it.  When the stripped text of the request is a
    single white-space-delimited token that consists of word characters
    only (it matches the pattern of line 104), every one of the 26
    candidates whose stripped and lower-cased plaintext is an entry of
    the augmented vocabulary (the lower-cased word list of the language
    and its common words) is scored 0.95 plus the letter-frequency score
    against the table of the language times 0.05; this score is at
    least 0.95 and at most 1.0, and so is the score that is output
    after rounding. *)
Theorem exact_match_score (get_resources : str -> Resources) (req : request) :
  exp_returns_double ->
  len (split (request_text req)) = 1 ->
  match_word_token (request_text req) = true ->
  let lang := request_lang req in
  let augmented_vocab : gset str :=
    set_map lower (vocab (get_resources lang)) ∪ COMMON_WORDS lang in
  let expected_freq :=
    if bool_decide (lang = lit "fr")
    then FRENCH_LETTER_FREQ else ENGLISH_LETTER_FREQ in
  List.Forall
    (fun c =>
       lower (strip (plaintext c)) ∈ augmented_vocab ->
       let freq_score :=
         chi_squared_letter_score (plaintext c) (Some expected_freq) in
       let raw := add (fl "0.95") (mul freq_score (fl "0.05")) in
       score c = final_score_of raw /\
       leb (fl "0.95") raw = true /\ leb raw (fl "1.0") = true /\
       leb (fl "0.95") (score c) = true /\ leb (score c) (fl "1.0") = true)
    (scored_candidates get_resources req).
Proof.
  intros Hexp Hone Hword. cbv zeta.
  unfold scored_candidates. cbv zeta. rewrite Hone, Hword.
  change ((1 =? 1) && true) with true.
  apply List.Forall_forall. intros c Hc.
  apply List.in_map_iff in Hc. destruct Hc as ([k p] & <- & _).
  cbn [fst snd]. intros Hin.
  exact (dict_match_score (get_resources (request_lang req)) _ _ k p Hexp Hin).
Qed.

End WithRuntime.
End ScoringEngineFacts.

(** * The scoring engine on the example runtime *)
Module ExampleFacts.
Import Scoring App Spec FloatOrder FloatRounding ScoringEngineFacts ExampleRuntime.

Lemma exp_series_fits n k term acc x :
  fits acc = true -> fits (exp_series n k term acc x) = true.
Proof.
  revert k term acc. induction n as [|n IH]; intros k term acc H; cbn [exp_series].
  - exact H.
  - apply IH, add_fits; [exact H|apply div_fits].
Qed.

Lemma example_exp_returns_double : exp_returns_double (rt := example_runtime).
Proof.
  intros x. change (math_exp x) with (ex_exp x). unfold ex_exp.
  destruct x as [s|[]| |s m e]; try reflexivity; apply exp_series_fits; reflexivity.
Qed.

(** "Khoor" is "Hello" shifted by 3: with no word list but the common
    words, the key 3 comes first with the score 1.0 of an exact match. *)
Example analyze_khoor :
  exists rest,
    fst (analyze no_resources example_request)
    = Ok (lit "Khoor") 3 (lit "Hello") (fl "1.0")
         ({| key := 3; plaintext := lit "Hello"; score := fl "1.0" |} :: rest)
    /\ List.map key rest = [10; 14; 0; 6].
Proof. eexists. split; vm_compute; reflexivity. Qed.

Lemma produced_scores_witness :
  exp_returns_double (rt := example_runtime) /\
  (List.Forall
     (fun c => ltb zero (score c) = true /\ leb (score c) (fl "1.0") = true
               /\ eqb (score c) zero = false)
     (scored_candidates no_resources example_request) /\
   (forall s, isnan s || isinf s || ltb s (of_int 0) = true ->
              final_score_of s = fl "0.01") /\
   match fst (analyze no_resources example_request) with
   | Ok _ _ _ best_score candidates =>
       unit_score best_score = true /\
       List.Forall (fun c => unit_score (score c) = true) candidates
   | Error _ _ => True
   end).
Proof.
  split; [exact example_exp_returns_double|].
  exact (produced_scores_in_unit_interval no_resources example_request
           example_exp_returns_double).
Defined.

Lemma hello_in_common_words :
  lower (strip (lit "hello")) ∈ COMMON_WORDS (lit "en").
Proof.
  refine (proj1 (bool_decide_eq_true
                   (lower (strip (lit "hello")) ∈ COMMON_WORDS (lit "en"))) _).
  vm_compute. reflexivity.
Qed.

(** The request "Khoor": one token of word characters, whose candidate
    of the key 3, "Hello", is a common word and is scored 1.0. *)
Lemma exact_match_score_witness :
  exp_returns_double (rt := example_runtime) /\
  len (split (request_text example_request)) = 1 /\
  match_word_token (request_text example_request) = true /\
  (exists c,
      In c (scored_candidates no_resources example_request) /\
      key c = 3 /\ plaintext c = lit "Hello" /\
      lower (strip (plaintext c))
      ∈ (set_map lower (vocab (no_resources (request_lang example_request)))
         ∪ COMMON_WORDS (request_lang example_request) : gset str) /\
      score c = fl "1.0") /\
  (let lang := request_lang example_request in
   let augmented_vocab : gset str :=
     set_map lower (vocab (no_resources lang)) ∪ COMMON_WORDS lang in
   let expected_freq :=
     if bool_decide (lang = lit "fr")
     then FRENCH_LETTER_FREQ else ENGLISH_LETTER_FREQ in
   List.Forall
     (fun c =>
        lower (strip (plaintext c)) ∈ augmented_vocab ->
        let freq_score :=
          chi_squared_letter_score (plaintext c) (Some expected_freq) in
        let raw := add (fl "0.95") (mul freq_score (fl "0.05")) in
        score c = final_score_of raw /\
        leb (fl "0.95") raw = true /\ leb raw (fl "1.0") = true /\
        leb (fl "0.95") (score c) = true /\ leb (score c) (fl "1.0") = true)
     (scored_candidates no_resources example_request)).
Proof.
  assert (H1 : len (split (request_text example_request)) = 1)
    by (vm_compute; reflexivity).
  assert (H2 : match_word_token (request_text example_request) = true)
    by (vm_compute; reflexivity).
  split; [exact example_exp_returns_double|].
  split; [exact H1|]. split; [exact H2|]. split.
  - exists {| key := 3; plaintext := lit "Hello"; score := fl "1.0" |}.
    split; [vm_compute; do 3 right; left; reflexivity|].
    split; [reflexivity|]. split; [reflexivity|]. split; [|reflexivity].
    cbn [plaintext].
    refine (proj1 (bool_decide_eq_true _) _). vm_compute. reflexivity.
  - exact (exact_match_score no_resources example_request
             example_exp_returns_double H1 H2).
Defined.

(** The request "phvvdjh." is a single white-space-delimited token, but
    not one of word characters only.  Its candidate of the key 3,
    "message.", is an entry of the augmented vocabulary, and it is
    scored 0.8968 by the branch of the texts of several words, below
    0.95. *)
Lemma single_token_below_base_score :
  len (split (request_text punctuated_request)) = 1 /\
  match_word_token (request_text punctuated_request) = false /\
  exists c,
    nth_error (scored_candidates punctuated_resources punctuated_request) 3
    = Some c /\
    key c = 3 /\ plaintext c = lit "message." /\
    lower (strip (plaintext c))
    ∈ (set_map lower
         (vocab (punctuated_resources (request_lang punctuated_request)))
       ∪ COMMON_WORDS (request_lang punctuated_request) : gset str) /\
    score c = fl "0.8968" /\
    ltb (score c) (fl "0.95") = true /\
    score c
    <> final_score_of
         (add (fl "0.95")
              (mul (chi_squared_letter_score (plaintext c)
                      (Some ENGLISH_LETTER_FREQ))
                   (fl "0.05"))).
Proof.
  split; [vm_compute; reflexivity|]. split; [vm_compute; reflexivity|].
  exists {| key := 3; plaintext := lit "message."; score := fl "0.8968" |}.
  split; [vm_compute; reflexivity|].
  split; [reflexivity|]. split; [reflexivity|]. split.
  - cbn [plaintext].
    refine (proj1 (bool_decide_eq_true _) _). vm_compute. reflexivity.
  - split; [reflexivity|]. split; [vm_compute; reflexivity|].
    cbn [score plaintext]. vm_compute. discriminate.
Qed.

End ExampleFacts.

(** * Further properties of the shift transform and of its callers *)
Module CipherFacts.
Import Caesar Bruteforce CaesarFacts BruteforceFacts.

Lemma encrypt_undoes_decrypt x k : encrypt (decrypt x k) k = x.
Proof.
  unfold decrypt, encrypt. cbv zeta. rewrite List.map_map.
  induction x as [|c x IH]; cbn [List.map]; [reflexivity|].
  rewrite IH. f_equal.
  rewrite shift_char_compose.
  replace (((- k) mod 26 + k mod 26) mod 26) with 0.
  - apply shift_char_zero.
  - rewrite <- Zplus_mod. replace (- k + k) with 0 by lia. reflexivity.
Qed.

(** X1.  [encrypt] also undoes [decrypt], for every integer key: the two are
    inverse bijections on texts (crypto/caesar.py). *)
Theorem encrypt_decrypt_any (x : str) (k : Z) :
  encrypt (decrypt x k) k = x /\ decrypt (encrypt x k) k = x.
Proof. split; [apply encrypt_undoes_decrypt|apply decrypt_encrypt_any]. Qed.

(** X2.  Two encryptions in a row are one with the sum of the keys, and keys
    that differ by a multiple of 26 encrypt alike (crypto/caesar.py). *)
Theorem encrypt_compose (x : str) (j k n : Z) :
  encrypt (encrypt x j) k = encrypt x (j + k) /\
  encrypt x (k + 26 * n) = encrypt x k.
Proof.
  split.
  - unfold encrypt. cbv zeta. rewrite List.map_map.
    apply List.map_ext. intros c.
    rewrite shift_char_compose, <- Zplus_mod. reflexivity.
  - unfold encrypt. cbv zeta.
    replace (k + 26 * n) with (k + n * 26) by lia.
    rewrite Z.mod_add by lia. reflexivity.
Qed.

(** X3.  [encrypt] keeps the length of the text and the class of every
    character: a capital becomes a capital, a small letter a small
    letter, and any other character is left as it is
    (crypto/caesar.py). *)
Theorem encrypt_keeps_shape (x : str) (k : Z) :
  List.length (encrypt x k) = List.length x /\
  List.Forall2
    (fun c c' =>
       (65 <= c <= 90 -> 65 <= c' <= 90) /\
       (97 <= c <= 122 -> 97 <= c' <= 122) /\
       (~ 65 <= c <= 90 -> ~ 97 <= c <= 122 -> c' = c))
    x (encrypt x k).
Proof.
  unfold encrypt. cbv zeta. split; [apply List.length_map|].
  induction x as [|c x IH]; cbn [List.map]; constructor; [|exact IH].
  pose proof (Z.mod_pos_bound k 26 ltac:(lia)) as Hk.
  split; [|split].
  - intros H. rewrite shift_upper by lia. unfold chr, ord.
    pose proof (Z.mod_pos_bound (c - 65 + k mod 26) 26 ltac:(lia)). lia.
  - intros H. rewrite shift_lower by lia. unfold chr, ord.
    pose proof (Z.mod_pos_bound (c - 97 + k mod 26) 26 ltac:(lia)). lia.
  - intros H1 H2. apply shift_other; assumption.
Qed.

Lemma in_range_26 k : In (k mod 26) (range 0 26).
Proof.
  pose proof (Z.mod_pos_bound k 26 ltac:(lia)) as H.
  unfold range. apply List.in_map_iff.
  exists (Z.to_nat (k mod 26)). split; [lia|]. apply List.in_seq. lia.
Qed.

Lemma decrypt_mod x k : decrypt x (k mod 26) = decrypt x k.
Proof.
  unfold decrypt, encrypt. cbv zeta.
  replace ((- (k mod 26)) mod 26) with ((- k) mod 26); [reflexivity|].
  change (- k) with (0 - k). change (- (k mod 26)) with (0 - k mod 26).
  symmetry. apply Zminus_mod_idemp_r.
Qed.

(** X4.  The generator recovers every plaintext: among the candidates of
    [encrypt x k] is [x], under the key [k mod 26], which is [k] itself
    for a key in [0, 25] (crypto/bruteforce.py). *)
Theorem brute_force_finds_plaintext (x : str) (k : Z) :
  In (k mod 26, x) (brute_force_caesar (encrypt x k)).
Proof.
  rewrite brute_force_caesar_map. apply List.in_map_iff.
  exists (k mod 26). split; [|apply in_range_26].
  rewrite decrypt_mod, decrypt_encrypt_any. reflexivity.
Qed.

(** X5.  Every candidate is a preimage of the ciphertext: its key is in
    [0, 25] and encrypting its plaintext with its key gives the
    ciphertext back (crypto/bruteforce.py). *)
Theorem brute_force_candidates_encrypt_back (ciphertext : str) :
  List.Forall
    (fun kp => 0 <= fst kp <= 25 /\ encrypt (snd kp) (fst kp) = ciphertext)
    (brute_force_caesar ciphertext).
Proof.
  rewrite brute_force_caesar_map. apply List.Forall_forall.
  intros [k p] H. apply List.in_map_iff in H. destruct H as (k' & E & Hk).
  inversion E; subst. cbn [fst snd]. split.
  - unfold range in Hk. apply List.in_map_iff in Hk.
    destruct Hk as (i & <- & Hi). apply List.in_seq in Hi. lia.
  - apply encrypt_undoes_decrypt.
Qed.

(** X6.  The first candidate is the ciphertext itself, under the key 0
    (crypto/bruteforce.py). *)
Theorem brute_force_first_is_ciphertext (ciphertext : str) :
  head (brute_force_caesar ciphertext) = Some (0, ciphertext).
Proof.
  rewrite brute_force_caesar_map.
  change (range 0 26) with (0 :: range 1 26).
  cbn [List.map head].
  unfold decrypt. change (- 0) with 0. rewrite encrypt_zero.
  reflexivity.
Qed.

(** X7.  [excerpt] returns a prefix of the text; with a bound that is not
    negative its length is the smaller of the bound and of the length of
    the text, and with a negative one the last [- length] characters are
    left out (crypto/bruteforce.py). *)
Theorem excerpt_prefix (text : str) (length : Z) :
  (exists rest, text = excerpt text length ++ rest) /\
  len (excerpt text length)
  = if length <? 0 then Z.max (len text + length) 0
    else Z.min length (len text).
Proof.
  unfold excerpt, len. cbv zeta. split.
  - eexists. symmetry. apply List.firstn_skipn.
  - rewrite List.length_firstn.
    destruct (length <? 0) eqn:E; [apply Z.ltb_lt in E|apply Z.ltb_ge in E]; lia.
Qed.

End CipherFacts.

(** * Properties of the frequency attack *)
Module FrequencyFacts.
Import Caesar Frequency Spec CaesarFacts CipherFacts FloatOrder FloatRounding.

(** *** Division of two integers *)

Lemma round_result_not_nan s m2 E1 : isnan (round_result s m2 E1) = false.
Proof.
  unfold round_result.
  destruct (m2 =? 0); [reflexivity|].
  destruct (m2 <? 2 ^ 53); [destruct (E1 <=? 971)|destruct (E1 + 1 <=? 971)];
    reflexivity.
Qed.

Lemma div_core_nonneg m1 e1 m2 e2 :
  0 <= fst (fst (SFdiv_core_binary prec emax (Z.pos m1) e1 (Z.pos m2) e2)).
Proof.
  unfold SFdiv_core_binary.
  set (s := e1 - e2 - _).
  set (m' := match s with Z.pos _ => Z.shiftl (Z.pos m1) s | Z0 => Z.pos m1 | Z.neg _ => 0 end).
  assert (Hm : 0 <= m').
  { subst m'. destruct s; [lia| |lia]. apply Z.shiftl_nonneg. lia. }
  pose proof (Z.div_pos m' (Z.pos m2) Hm ltac:(lia)) as Hq.
  unfold Z.div in Hq. destruct (Z.div_eucl m' (Z.pos m2)) as [q r].
  exact Hq.
Qed.

(** A quotient of two integers with a divisor that is not 0 is a
    number. *)
Lemma truediv_not_nan a b : b <> 0 -> isnan (truediv a b) = false.
Proof.
  intros Hb. unfold truediv.
  destruct b as [|pb|pb]; [congruence| |];
    destruct a as [|pa|pa]; cbn [int_float]; try reflexivity;
    unfold div, SFdiv;
    match goal with
    | |- context [SFdiv_core_binary prec emax (Z.pos ?m1) ?e1 (Z.pos ?m2) ?e2] =>
        pose proof (div_core_nonneg m1 e1 m2 e2) as Hq;
        destruct (SFdiv_core_binary prec emax (Z.pos m1) e1 (Z.pos m2) e2)
          as [[q e] l]
    end;
    cbn [fst] in Hq;
    match goal with
    | Hq' : 0 <= ?q' |- context [binary_round_aux prec emax ?s ?q' ?e' ?l'] =>
        destruct (round_aux_cases s q' e' l' Hq') as (m2' & _ & _ & _ & ->)
    end;
    apply round_result_not_nan.
Qed.

Lemma sign_clear_nonneg x :
  isnan x = false -> sign_clear x = true -> leb zero x = true.
Proof. destruct x as [[]|[]| |[] m e]; intros H1 H2; try discriminate; reflexivity. Qed.

(** A quotient [v / l] with [0 <= v <= l] and [l] positive lies in
    [0, 1]. *)
Lemma truediv_unit v l :
  0 <= v <= l -> 1 <= l ->
  leb zero (truediv v l) = true /\ leb (truediv v l) (fl "1.0") = true.
Proof.
  intros Hv Hl.
  pose proof (truediv_not_nan v l ltac:(lia)) as Hn.
  destruct (truediv_le_one v l Hv Hl) as [E|(Hs & _ & Hle)].
  - rewrite E in Hn. discriminate.
  - split; [apply sign_clear_nonneg; assumption|].
    rewrite fl_one. exact Hle.
Qed.

(** *** The counts of [Counter] *)

Lemma sum_Z_from l a : fold_left Z.add l a = a + sum_Z l.
Proof.
  unfold sum_Z. revert a. induction l as [|x l IH]; intros a; cbn [fold_left].
  - lia.
  - rewrite IH, (IH (0 + x)). lia.
Qed.

Lemma sum_Z_cons x l : sum_Z (x :: l) = x + sum_Z l.
Proof. unfold sum_Z at 1. cbn [fold_left]. rewrite sum_Z_from. lia. Qed.

Section CounterFacts.
Context {A : Type} `{EqDecision A}.

Lemma counter_add_sum (x : A) c :
  sum_Z (counter_values (counter_add x c)) = sum_Z (counter_values c) + 1.
Proof.
  unfold counter_values. induction c as [|[y n] c IH]; cbn [counter_add List.map snd].
  - reflexivity.
  - destruct (decide (x = y)); cbn [List.map snd]; rewrite !sum_Z_cons; lia.
Qed.

Lemma counter_add_in (x : A) c y n :
  In (y, n) (counter_add x c) ->
  (y = x \/ In y (counter_keys c)) /\
  (List.Forall (fun e => 1 <= snd e) c -> 1 <= n).
Proof.
  unfold counter_keys. induction c as [|[z m] c IH]; cbn [counter_add List.map fst].
  - intros [E|[]]. inversion E; subst. split; [left; reflexivity|intros _; lia].
  - destruct (decide (x = z)) as [->|Hne].
    + intros [E|Hin].
      * inversion E; subst. split; [left; reflexivity|].
        intros Hall. inversion Hall; subst. cbn [snd] in *. lia.
      * split; [right; right; apply List.in_map_iff; exists (y, n); tauto|].
        intros Hall. inversion Hall as [|? ? _ Hc]; subst.
        apply (proj1 (List.Forall_forall _ _) Hc (y, n) Hin).
    + intros [E|Hin].
      * inversion E; subst. split; [right; left; reflexivity|].
        intros Hall. inversion Hall; subst. assumption.
      * destruct (IH Hin) as [Hk Hn]. split; [cbn [In]; tauto|].
        intros Hall. inversion Hall; subst. auto.
Qed.

Lemma counter_add_pos (x : A) c :
  List.Forall (fun e => 1 <= snd e) c ->
  List.Forall (fun e => 1 <= snd e) (counter_add x c).
Proof.
  intros Hall. apply List.Forall_forall. intros [y n] Hin.
  apply (proj2 (counter_add_in x c y n Hin) Hall).
Qed.

Lemma counter_loop (l : list A) c :
  List.Forall (fun e => 1 <= snd e) c ->
  let c' := fold_left (fun c x => counter_add x c) l c in
  List.Forall (fun e => 1 <= snd e) c' /\
  sum_Z (counter_values c') = sum_Z (counter_values c) + len l /\
  (forall y, In y (counter_keys c') -> In y l \/ In y (counter_keys c)).
Proof.
  revert c. induction l as [|x l IH]; intros c Hc; cbn [fold_left].
  - cbv zeta. split; [exact Hc|]. split; [unfold len; cbn [List.length]; lia|tauto].
  - destruct (IH (counter_add x c) (counter_add_pos x c Hc)) as (H1 & H2 & H3).
    cbv zeta. split; [exact H1|]. split.
    + rewrite H2, counter_add_sum. unfold len. cbn [List.length]. lia.
    + intros y Hy. destruct (H3 y Hy) as [Hin|Hin]; [left; right; exact Hin|].
      unfold counter_keys in Hin. apply List.in_map_iff in Hin.
      destruct Hin as ([y' n] & <- & Hin). cbn [fst].
      destruct (proj1 (counter_add_in x c y' n Hin)) as [->|Hk];
        [left; left; reflexivity|right; exact Hk].
Qed.

Lemma sum_Z_ge (c : list (A * Z)) y n :
  List.Forall (fun e => 1 <= snd e) c -> In (y, n) c ->
  n <= sum_Z (counter_values c).
Proof.
  unfold counter_values. induction 1 as [|[z m] c Hz Hc IH]; [intros []|].
  cbn [List.map snd] in *. rewrite sum_Z_cons. intros [E|Hin].
  - inversion E; subst.
    assert (0 <= sum_Z (List.map snd c)); [|lia].
    clear IH. induction Hc as [|[z' m'] c Hz' Hc IH]; [reflexivity|].
    cbn [List.map snd] in *. rewrite sum_Z_cons. lia.
  - specialize (IH Hin). lia.
Qed.

(** Every count of [Counter l] is the count of an element of [l], at
    least 1 and at most the length of [l]. *)
Lemma Counter_entry (l : list A) y n :
  In (y, n) (Counter l) -> In y l /\ 1 <= n <= len l.
Proof.
  intros Hin. unfold Counter in Hin.
  destruct (counter_loop l [] (List.Forall_nil _)) as (H1 & H2 & H3).
  cbv zeta in H1, H2, H3. split.
  - destruct (H3 y) as [H|[]]; [|exact H].
    unfold counter_keys. apply List.in_map_iff. exists (y, n). tauto.
  - split.
    + apply (proj1 (List.Forall_forall _ _) H1 (y, n) Hin).
    + pose proof (sum_Z_ge _ y n H1 Hin) as Hle. rewrite H2 in Hle.
      change (sum_Z (counter_values [])) with 0 in Hle. lia.
Qed.

End CounterFacts.

(** *** The most frequent letter *)

Lemma argmax_max best l :
  List.Forall (fun x => isnan (snd x) = false) (best :: l) ->
  exists f, In (argmax best l, f) (best :: l) /\
            List.Forall (fun x => leb (snd x) f = true) (best :: l).
Proof.
  revert best. induction l as [|x l IH]; intros best Hall.
  - inversion Hall as [|? ? Hb _]; subst. exists (snd best). cbn [argmax].
    split; [left; destruct best; reflexivity|].
    constructor; [apply leb_refl, Hb|constructor].
  - inversion Hall as [|? ? Hb Hxl]; subst.
    inversion Hxl as [|? ? Hx Hl]; subst. cbn [argmax].
    destruct (ltb (snd best) (snd x)) eqn:E.
    + destruct (IH x Hxl) as (f & Hin & Hle).
      exists f. split; [right; exact Hin|].
      constructor; [|exact Hle].
      inversion Hle; subst. eapply leb_trans; [apply ltb_leb, E|assumption].
    + destruct (IH best (List.Forall_cons _ _ _ Hb Hl)) as (f & Hin & Hle).
      exists f. split; [destruct Hin as [Hin|Hin]; [left|right; right]; exact Hin|].
      inversion Hle as [|? ? Hbf Hlf]; subst.
      constructor; [exact Hbf|]. constructor; [|exact Hlf].
      eapply leb_trans; [|exact Hbf]. apply not_ltb_leb; assumption.
Qed.

Section WithRuntime.
Context {rt : PyRuntime}.

(** X8.  The frequency attack proposes a key in [0, 25] and the decryption
    under that key; encrypting its plaintext with its key gives the
    ciphertext back (crypto/frequency.py). *)
Theorem decrypt_with_frequency_consistent (ciphertext language : str) :
  0 <= snd (decrypt_with_frequency ciphertext language) <= 25 /\
  fst (decrypt_with_frequency ciphertext language)
  = decrypt ciphertext (snd (decrypt_with_frequency ciphertext language)) /\
  encrypt (fst (decrypt_with_frequency ciphertext language))
          (snd (decrypt_with_frequency ciphertext language)) = ciphertext.
Proof.
  unfold decrypt_with_frequency. cbv zeta. cbn [fst snd].
  split; [|split; [reflexivity|apply encrypt_undoes_decrypt]].
  unfold best_key_by_frequency. cbv zeta.
  destruct (letter_frequency ciphertext true) as [|p l]; [lia|].
  match goal with
  | |- 0 <= ?a mod 26 <= 25 =>
      pose proof (Z.mod_pos_bound a 26 ltac:(lia)); lia
  end.
Qed.

(** X9.  The language given to the frequency attack has no effect on its
    result: both branches of the reference letter are 'E'
    (crypto/frequency.py). *)
Theorem frequency_language_ignored (ciphertext language language' : str) :
  decrypt_with_frequency ciphertext language
  = decrypt_with_frequency ciphertext language'.
Proof.
  unfold decrypt_with_frequency, best_key_by_frequency. cbv zeta.
  destruct (letter_frequency ciphertext true) as [|p l]; [reflexivity|].
  destruct (bool_decide (upper language = lit "EN")
            || bool_decide (upper language = lit "FR"));
    destruct (bool_decide (upper language' = lit "EN")
              || bool_decide (upper language' = lit "FR")); reflexivity.
Qed.

(** X10.  A text whose upper-cased form has no letter gets the key 0 and is
    returned as it is (crypto/frequency.py). *)
Theorem decrypt_with_frequency_no_letters (ciphertext language : str) :
  List.Forall (fun c => isalpha c = false) (upper ciphertext) ->
  decrypt_with_frequency ciphertext language = (ciphertext, 0).
Proof.
  intros H.
  assert (E : List.filter isalpha (upper ciphertext) = []).
  { induction H as [|c l Hc _ IH]; cbn [List.filter]; [reflexivity|].
    rewrite Hc. exact IH. }
  unfold decrypt_with_frequency, best_key_by_frequency, letter_frequency.
  cbv zeta. rewrite E. cbn [len List.length Z.of_nat Z.gtb Z.compare].
  unfold decrypt. change (- 0) with 0. rewrite encrypt_zero. reflexivity.
Qed.

Lemma letter_frequency_entry text alphabet_only c f :
  In (c, f) (letter_frequency text alphabet_only) ->
  exists n total,
    f = truediv n total /\ 1 <= n <= total /\
    In c (if alphabet_only then List.filter isalpha (upper text) else upper text).
Proof.
  unfold letter_frequency. cbv zeta.
  set (t := if alphabet_only then List.filter isalpha (upper text) else upper text).
  destruct (len t >? 0); [|intros []].
  intros Hin. apply List.in_map_iff in Hin. destruct Hin as ([c' n] & E & Hin).
  cbn [fst snd] in E. inversion E; subst.
  destruct (Counter_entry t c n Hin) as [Hc Hn].
  exists n, (len t). tauto.
Qed.

(** X11.  Every entry of [letter_frequency] is for a character of the
    upper-cased text, a letter when only letters are asked for, and its
    frequency lies in [0, 1] (crypto/frequency.py). *)
Theorem letter_frequency_range (text : str) (alphabet_only : bool)
    (c : char) (f : float) :
  In (c, f) (letter_frequency text alphabet_only) ->
  In c (upper text) /\ (alphabet_only = true -> isalpha c = true) /\
  leb zero f = true /\ leb f (fl "1.0") = true.
Proof.
  intros Hin.
  destruct (letter_frequency_entry _ _ _ _ Hin) as (n & total & -> & Hn & Hc).
  split; [|split].
  - destruct alphabet_only; [|exact Hc].
    apply List.filter_In in Hc. tauto.
  - intros ->. apply List.filter_In in Hc. tauto.
  - apply truediv_unit; lia.
Qed.

(** X12.  When the text has letters and all of them are capitals of A..Z
    once upper-cased, the key of the frequency attack is the one under
    which a letter of the highest frequency decrypts to E
    (crypto/frequency.py). *)
Theorem best_key_maps_top_letter (ciphertext language : str) :
  letter_frequency ciphertext true <> [] ->
  List.Forall (fun c => isalpha c = true -> 65 <= c <= 90) (upper ciphertext) ->
  exists Lmax f,
    In (Lmax, f) (letter_frequency ciphertext true) /\
    List.Forall (fun cg => leb (snd cg) f = true)
                (letter_frequency ciphertext true) /\
    decrypt [Lmax] (best_key_by_frequency ciphertext language) = lit "E".
Proof.
  intros Hne Hcap. unfold best_key_by_frequency. cbv zeta.
  destruct (letter_frequency ciphertext true) as [|first rest] eqn:Ef;
    [congruence|].
  assert (Hnan : List.Forall (fun x => isnan (snd x) = false) (first :: rest)).
  { apply List.Forall_forall. intros [c f] Hin. rewrite <- Ef in Hin.
    destruct (letter_frequency_entry _ _ _ _ Hin) as (n & total & -> & Hn & _).
    apply truediv_not_nan. lia. }
  destruct (argmax_max first rest Hnan) as (f & Hin & Hle).
  exists (argmax first rest), f. split; [exact Hin|]. split; [exact Hle|].
  assert (HL : 65 <= argmax first rest <= 90).
  { rewrite <- Ef in Hin.
    destruct (letter_frequency_entry _ _ _ _ Hin) as (n & total & _ & _ & Hc).
    apply List.filter_In in Hc. destruct Hc as [Hc Ha].
    apply (proj1 (List.Forall_forall _ _) Hcap _ Hc Ha). }
  set (L := argmax first rest) in *.
  replace (if bool_decide (upper language = lit "EN")
              || bool_decide (upper language = lit "FR")
           then 69 else 69) with 69
    by (destruct (bool_decide _ || bool_decide _); reflexivity).
  unfold decrypt, encrypt, ord. cbv zeta. cbn [List.map].
  rewrite shift_upper by exact HL.
  rewrite Zplus_mod_idemp_r.
  replace (L - 65 + - ((L - 69) mod 26)) with (L - 65 - (L - 69) mod 26) by lia.
  rewrite Zminus_mod_idemp_r.
  replace (L - 65 - (L - 69)) with 4 by lia. reflexivity.
Qed.

End WithRuntime.

Import ExampleRuntime.

Lemma decrypt_with_frequency_no_letters_witness :
  List.Forall (fun c => isalpha c = false) (upper (lit "12:30 ?")) /\
  decrypt_with_frequency (lit "12:30 ?") (lit "EN") = (lit "12:30 ?", 0).
Proof.
  assert (H : List.Forall (fun c => isalpha c = false) (upper (lit "12:30 ?")))
    by (vm_compute; repeat constructor).
  split; [exact H|].
  exact (decrypt_with_frequency_no_letters (lit "12:30 ?") (lit "EN") H).
Defined.


Lemma letter_frequency_range_witness :
  In (66, fl "0.75") (letter_frequency (lit "b-a-b-b") true) /\
  (In 66 (upper (lit "b-a-b-b")) /\ (true = true -> isalpha 66 = true) /\
   leb zero (fl "0.75") = true /\ leb (fl "0.75") (fl "1.0") = true).
Proof.
  assert (H : In (66, fl "0.75") (letter_frequency (lit "b-a-b-b") true))
    by (vm_compute; left; reflexivity).
  split; [exact H|].
  exact (letter_frequency_range (lit "b-a-b-b") true 66 (fl "0.75") H).
Defined.

Lemma best_key_maps_top_letter_witness :
  letter_frequency (lit "Phhw ph khuh") true <> [] /\
  List.Forall (fun c => isalpha c = true -> 65 <= c <= 90)
              (upper (lit "Phhw ph khuh")) /\
  exists Lmax f,
    In (Lmax, f) (letter_frequency (lit "Phhw ph khuh") true) /\
    List.Forall (fun cg => leb (snd cg) f = true)
                (letter_frequency (lit "Phhw ph khuh") true) /\
    decrypt [Lmax] (best_key_by_frequency (lit "Phhw ph khuh") (lit "EN"))
    = lit "E".
Proof.
  assert (H1 : letter_frequency (lit "Phhw ph khuh") true <> [])
    by (vm_compute; discriminate).
  assert (H2 : List.Forall (fun c => isalpha c = true -> 65 <= c <= 90)
                           (upper (lit "Phhw ph khuh"))).
  { vm_compute. repeat constructor; intros; discriminate. }
  split; [exact H1|]. split; [exact H2|].
  exact (best_key_maps_top_letter (lit "Phhw ph khuh") (lit "EN") H1 H2).
Defined.

(** The frequency attack on the sentence and the key of
    tests/test_pipeline.py: E is the most frequent letter of the
    sentence, so the key 7 and the sentence are recovered. *)
Example frequency_attack_example :
  decrypt_with_frequency
    (encrypt (lit "This is a secret message for testing the pipeline") 7)
    (lit "EN")
  = (lit "This is a secret message for testing the pipeline", 7).
Proof. vm_compute. reflexivity. Qed.

End FrequencyFacts.

(** * Further properties of the feature extractors *)
Module ScoringFacts.
Import Scoring Spec FloatOrder FloatSign FloatRounding FrequencyFacts.

(** The quotient of a positive integer by itself is 1.0. *)
Lemma truediv_same n : 1 <= n -> truediv n n = one_f.
Proof.
  intros Hn. unfold truediv. destruct n as [|p|p]; try lia.
  cbn [int_float]. unfold div, SFdiv, SFdiv_core_binary. cbn [xorb].
  change (SpecFloat.fexp prec emax) with fexp64.
  rewrite !Zdigits2_pos, !Z.add_0_r, Z.sub_0_r, Z.sub_diag, fexp64_eq.
  change (Z.min (Z.max (0 - 53) (-1074)) 0) with (-53).
  change (0 - -53) with 53. cbv iota.
  rewrite Z.shiftl_mul_pow2 by lia.
  pose proof (Z.div_mod (Z.pos p * 2 ^ 53) (Z.pos p) ltac:(lia)) as Hdm.
  pose proof (Z.mod_pos_bound (Z.pos p * 2 ^ 53) (Z.pos p) ltac:(lia)) as Hmb.
  unfold Z.div, Z.modulo in Hdm, Hmb.
  destruct (Z.div_eucl (Z.pos p * 2 ^ 53) (Z.pos p)) as [q r].
  assert (Hq : q = 2 ^ 53) by nia.
  assert (Hr : r = 0) by nia.
  subst q r. cbv beta iota. rewrite new_location_zero.
  vm_compute. reflexivity.
Qed.

Lemma filter_idem {A} (f : A -> bool) l :
  List.filter f (List.filter f l) = List.filter f l.
Proof.
  induction l as [|x l IH]; cbn [List.filter]; [reflexivity|].
  destruct (f x) eqn:E; cbn [List.filter]; [rewrite E, IH|]; trivial.
Qed.

Lemma filter_all {A} (f : A -> bool) l :
  List.Forall (fun x => f x = true) l -> List.filter f l = l.
Proof.
  induction 1 as [|x l Hx _ IH]; cbn [List.filter]; [reflexivity|].
  rewrite Hx, IH. reflexivity.
Qed.

Section WithRuntime.
Context {rt : PyRuntime}.

(** X13.  [heuristic_score] returns a number of [0.01, 1.0] for every text,
    every set of resources and every runtime: the final clamp also
    catches a weighted sum that is NaN or infinite
    (crypto/scoring.py, lines 303-305). *)
Theorem heuristic_score_range (text : str) (resources : Resources) :
  leb (fl "0.01") (heuristic_score text resources) = true /\
  leb (heuristic_score text resources) (fl "1.0") = true.
Proof.
  unfold heuristic_score, weighted_score. cbv zeta. split.
  - apply py_min_ge; [vm_compute; reflexivity|].
    apply py_max_ge_l. vm_compute. reflexivity.
  - apply py_min_le_l. vm_compute. reflexivity.
Qed.

Lemma valid_word_ratio_not_nan text vocabulary :
  isnan (valid_word_ratio text vocabulary) = false.
Proof.
  unfold valid_word_ratio.
  destruct (negb (set_truth vocabulary)); [reflexivity|].
  destruct (findall_words (lower text)) as [|w ws]; [reflexivity|].
  cbv zeta. destruct (eqb _ _ && _).
  - apply py_min_not_nan. vm_compute. reflexivity.
  - apply truediv_not_nan. unfold len. cbn [List.length]. lia.
Qed.

(** X14.  [valid_word_ratio] returns a number of [0, 1], never NaN
    (crypto/scoring.py, lines 42-65). *)
Theorem valid_word_ratio_range (text : str) (vocabulary : gset str) :
  leb zero (valid_word_ratio text vocabulary) = true /\
  leb (valid_word_ratio text vocabulary) (fl "1.0") = true.
Proof.
  pose proof (valid_word_ratio_not_nan text vocabulary) as Hn.
  destruct (valid_word_ratio_bounded text vocabulary) as [E|(Hs & _ & Hle)].
  - rewrite E in Hn. discriminate.
  - split; [apply sign_clear_nonneg; assumption|].
    rewrite fl_one. exact Hle.
Qed.

(** X15.  When the text has words and all of them are in the vocabulary, the
    ratio is exactly 1.0: the bonus of 0.05 is cut off by the [min] and
    changes nothing (crypto/scoring.py, lines 61-63). *)
Theorem valid_word_ratio_all_valid (text : str) (vocabulary : gset str) :
  findall_words (lower text) <> [] ->
  List.Forall (fun w => w ∈ vocabulary) (findall_words (lower text)) ->
  valid_word_ratio text vocabulary = fl "1.0".
Proof.
  intros Hne Hall. unfold valid_word_ratio.
  destruct (findall_words (lower text)) as [|w ws] eqn:Ew; [congruence|].
  assert (Hv : set_truth vocabulary = true).
  { unfold set_truth. apply negb_true_iff, bool_decide_eq_false.
    intros ->. inversion Hall as [|? ? Hw _]; subst. set_solver. }
  rewrite Hv. cbn [negb]. cbv zeta.
  rewrite filter_all.
  2:{ eapply List.Forall_impl; [|exact Hall].
      intros a Ha. apply bool_decide_eq_true. exact Ha. }
  rewrite truediv_same by (unfold len; cbn [List.length]; lia).
  replace (len (w :: ws) >? 0) with true
    by (symmetry; apply Z.gtb_lt; unfold len; cbn [List.length]; lia).
  vm_compute. reflexivity.
Qed.

Lemma stopwords_count_bounds text stopwords :
  0 <= stopwords_count text stopwords <= len (findall_words (lower text)).
Proof.
  unfold stopwords_count.
  destruct (negb (set_truth stopwords)); [unfold len; lia|].
  cbv zeta. apply filter_len_le.
Qed.

(** X16.  [stopwords_count] lies between 0 and the number of words that the
    pattern finds in the lower-cased text, and is 0 for an empty set
    (crypto/scoring.py, lines 34-39). *)
Theorem stopwords_count_range (text : str) (stopwords : gset str) :
  0 <= stopwords_count text stopwords <= len (findall_words (lower text)) /\
  (stopwords = ∅ -> stopwords_count text stopwords = 0).
Proof.
  split; [apply stopwords_count_bounds|].
  intros ->. reflexivity.
Qed.

(** X17.  The stop-word signal of [heuristic_score] lies in [0, 1]: the count
    of stop words is taken over the words of the pattern and divided by
    the number of words of [split], and the [min] cuts the quotient at
    1.0 (crypto/scoring.py, lines 216-217). *)
Theorem sw_norm_range (text : str) (resources : Resources) :
  leb zero (h_sw_norm (heuristic_signals text resources)) = true /\
  leb (h_sw_norm (heuristic_signals text resources)) (fl "1.0") = true.
Proof.
  unfold heuristic_signals. cbv zeta. cbn [h_sw_norm].
  destruct (len (split (lower text)) >? 0) eqn:Ew;
    [|split; vm_compute; reflexivity].
  apply Z.gtb_lt in Ew.
  set (sw := stopwords_count (lower text) (stopwords resources)).
  set (wc := Z.max (len (split (lower text))) 1).
  assert (Hsw : 0 <= sw) by apply stopwords_count_bounds.
  assert (Hwc : 1 <= wc) by (subst wc; lia).
  pose proof (truediv_not_nan sw wc ltac:(lia)) as Hn.
  assert (Hs : sign_clear (truediv sw wc) = true).
  { unfold truediv. apply div_sign; apply int_float_sign; lia. }
  unfold py_min. destruct (ltb (fl "1.0") (truediv sw wc)) eqn:E.
  - split; vm_compute; reflexivity.
  - split; [apply sign_clear_nonneg; assumption|].
    apply not_ltb_leb; [vm_compute; reflexivity|exact Hn|exact E].
Qed.

(** X18.  On a text whose lower-cased form is shorter than [n],
    [ngram_likelihood] returns 0.0: there is no n-gram to look up
    (crypto/scoring.py, lines 68-74). *)
Theorem ngram_likelihood_short_text (text : str) (ngrams : gmap str float)
    (n : Z) :
  len (lower text) < n -> ngram_likelihood text ngrams n = zero.
Proof.
  intros H. unfold ngram_likelihood, range. cbv zeta.
  replace (Z.to_nat (len (lower text) - n + 1 - 0)) with 0%nat by lia.
  reflexivity.
Qed.

(** X19.  The letter-frequency score reads the letters of the text only:
    removing every other character does not change it
    (crypto/scoring.py, lines 128-189). *)
Theorem chi_squared_ignores_non_letters (text : str)
    (expected : option (gmap str float)) :
  chi_squared_letter_score (List.filter isalpha text) expected
  = chi_squared_letter_score text expected.
Proof.
  unfold chi_squared_letter_score, normalized_chi2_of, letters_of,
    get_letter_frequencies_for_alphabet.
  rewrite filter_idem. reflexivity.
Qed.

(** X20.  On a text of at most 20 characters the pattern signal of
    [heuristic_score] is all or nothing: 0.0 when no entry of the list
    occurs in the text and 1.0 as soon as one does
    (crypto/scoring.py, lines 258-269). *)
Theorem pattern_score_short_text (text : str) (resources : Resources) :
  len (lower text) <= 20 ->
  h_pattern_score (heuristic_signals text resources)
  = if pattern_count_of (lower text) =? 0 then zero else fl "1.0".
Proof.
  intros Hlen. unfold heuristic_signals. cbv zeta. cbn [h_pattern_score].
  unfold pattern_score_of. cbv zeta.
  pose proof (PatternFacts.pattern_count_range (lower text)) as Hc.
  assert (HL : 1 <= Z.max (len (lower text)) 1 <= 20) by lia.
  set (L := Z.max (len (lower text)) 1) in *.
  set (c := pattern_count_of (lower text)) in *.
  clearbody L c. clear Hlen.
  assert (HL' : In L (range 1 21)) by (apply in_range; lia).
  assert (Hc' : In c (range 0 29)) by (apply in_range; lia).
  clear HL Hc. vm_compute in HL', Hc'.
  repeat (destruct HL' as [<-|HL']; [|]); try contradiction;
    repeat (destruct Hc' as [<-|Hc']; [|]); try contradiction;
    vm_compute; reflexivity.
Qed.

End WithRuntime.

Import ExampleRuntime.

Lemma valid_word_ratio_all_valid_witness :
  findall_words (lower (lit "Hello, the World")) <> [] /\
  List.Forall (fun w => w ∈ ({[ lit "hello"; lit "the"; lit "world" ]} : gset str))
              (findall_words (lower (lit "Hello, the World"))) /\
  valid_word_ratio (lit "Hello, the World")
                   {[ lit "hello"; lit "the"; lit "world" ]} = fl "1.0".
Proof.
  assert (H1 : findall_words (lower (lit "Hello, the World")) <> [])
    by (vm_compute; discriminate).
  assert (H2 : List.Forall
                 (fun w => w ∈ ({[ lit "hello"; lit "the"; lit "world" ]} : gset str))
                 (findall_words (lower (lit "Hello, the World")))).
  { change (findall_words (lower (lit "Hello, the World")))
      with (ex_findall_words (ex_lower (lit "Hello, the World"))).
    replace (ex_findall_words (ex_lower (lit "Hello, the World")))
      with [lit "hello"; lit "the"; lit "world"] by (vm_compute; reflexivity).
    repeat constructor; set_solver. }
  split; [exact H1|]. split; [exact H2|].
  exact (valid_word_ratio_all_valid _ _ H1 H2).
Defined.

Lemma ngram_likelihood_short_text_witness :
  len (lower (lit "a")) < 2 /\ ngram_likelihood (lit "a") ∅ 2 = zero.
Proof.
  assert (H : len (lower (lit "a")) < 2) by (vm_compute; reflexivity).
  split; [exact H|].
  exact (ngram_likelihood_short_text (lit "a") ∅ 2 H).
Defined.

Lemma pattern_score_short_text_witness :
  len (lower (lit "Hello")) <= 20 /\
  h_pattern_score (heuristic_signals (lit "Hello") (no_resources (lit "en")))
  = if pattern_count_of (lower (lit "Hello")) =? 0 then zero else fl "1.0".
Proof.
  assert (H : len (lower (lit "Hello")) <= 20) by (vm_compute; discriminate).
  split; [exact H|].
  exact (pattern_score_short_text (lit "Hello") (no_resources (lit "en")) H).
Defined.

End ScoringFacts.

(** * Further properties of the scoring engine and of the HTTP boundary *)
Module EngineFacts.
Import Caesar Bruteforce Scoring App Spec.
Import FloatOrder FloatRounding RankingFacts ScoringEngineFacts.
Import BruteforceFacts CipherFacts FrequencyFacts.

(** *** The score that is output is a positive number *)

Lemma div_finite_not_nan s1 m1 e1 s2 m2 e2 :
  isnan (div (S754_finite s1 m1 e1) (S754_finite s2 m2 e2)) = false.
Proof.
  unfold div, SFdiv.
  pose proof (div_core_nonneg m1 e1 m2 e2) as Hq.
  destruct (SFdiv_core_binary prec emax (Z.pos m1) e1 (Z.pos m2) e2)
    as [[q e] l].
  cbn [fst] in Hq.
  destruct (round_aux_cases (xorb s1 s2) q e l Hq) as (m2' & _ & _ & _ & ->).
  apply round_result_not_nan.
Qed.

Lemma round_not_nan x : isnan x = false -> isnan (round x 4) = false.
Proof.
  destruct x as [s|s| |s m e]; intros H; try exact H. unfold round.
  destruct (0 <=? e); [reflexivity|].
  destruct (round_half_even (Z.pos m * 10 ^ 4) (2 ^ (- e))); try reflexivity.
  replace (of_int (10 ^ 4)) with (S754_finite false 5497558138880000 (-39))
    by (vm_compute; reflexivity).
  apply div_finite_not_nan.
Qed.

Lemma final_score_positive s : ltb zero (final_score_of s) = true.
Proof.
  unfold final_score_of. cbv zeta.
  set (s1 := if isnan s || isinf s || ltb s (of_int 0) then fl "0.01" else s).
  assert (Hn : isnan (round (py_max (fl "0.01") s1) 4) = false).
  { apply round_not_nan, py_max_not_nan. vm_compute. reflexivity. }
  destruct (leb (round (py_max (fl "0.01") s1) 4) zero) eqn:E;
    [vm_compute; reflexivity|].
  destruct (ltb zero (round (py_max (fl "0.01") s1) 4)) eqn:El; [reflexivity|].
  rewrite (not_ltb_leb zero _ (eq_refl false) Hn El) in E. discriminate.
Qed.

Lemma positive_sent x : ltb zero x = true -> sent_score x = x.
Proof.
  intros H. unfold sent_score.
  destruct (leb x zero) eqn:E; [|reflexivity].
  apply leb_not_ltb in E. congruence.
Qed.

Lemma map_id_on {A} (f : A -> A) l :
  List.Forall (fun x => f x = x) l -> List.map f l = l.
Proof.
  induction 1 as [|x l Hx _ IH]; cbn [List.map]; [reflexivity|].
  rewrite Hx, IH. reflexivity.
Qed.

Lemma flat_map_nil {A B} (f : A -> list B) l :
  List.Forall (fun x => f x = []) l -> List.flat_map f l = [].
Proof.
  induction 1 as [|x l Hx _ IH]; cbn [List.flat_map]; [reflexivity|].
  rewrite Hx, IH. reflexivity.
Qed.

(** *** White space around the text *)

Section Strip.
Context {rt : PyRuntime}.

Lemma lstrip_idem s : lstrip (lstrip s) = lstrip s.
Proof.
  induction s as [|c s IH]; cbn [lstrip]; [reflexivity|].
  destruct (isspace c) eqn:E; [exact IH|].
  cbn [lstrip]. rewrite E. reflexivity.
Qed.

Lemma lstrip_snoc l c :
  isspace c = false -> lstrip (l ++ [c]) = lstrip l ++ [c].
Proof.
  intros Hc. induction l as [|a l IH]; cbn [lstrip app].
  - rewrite Hc. reflexivity.
  - destruct (isspace a); [exact IH|reflexivity].
Qed.

Lemma lstrip_rstrip y : lstrip y = y -> lstrip (rstrip y) = rstrip y.
Proof.
  destruct y as [|c y]; [reflexivity|].
  cbn [lstrip]. destruct (isspace c) eqn:E.
  - intros H. exfalso.
    assert (Hlen : (List.length (lstrip y) <= List.length y)%nat).
    { clear. induction y as [|a y IH]; cbn [lstrip]; [lia|].
      destruct (isspace a); cbn [List.length]; lia. }
    rewrite H in Hlen. cbn [List.length] in Hlen. lia.
  - intros _. unfold rstrip. cbn [rev].
    rewrite lstrip_snoc by exact E. rewrite rev_app_distr. cbn [rev app].
    cbn [lstrip]. rewrite E. reflexivity.
Qed.

Lemma rstrip_idem y : rstrip (rstrip y) = rstrip y.
Proof. unfold rstrip. rewrite rev_involutive, lstrip_idem. reflexivity. Qed.

Lemma strip_idem s : strip (strip s) = strip s.
Proof.
  unfold strip. rewrite (lstrip_rstrip (lstrip s)) by apply lstrip_idem.
  apply rstrip_idem.
Qed.

End Strip.

Section WithRuntime.
Context {rt : PyRuntime}.

(** X21.  The score given to a candidate is a positive number, never NaN,
    whatever its three signals are and whatever the runtime returns
    (app.py, lines 179-189). *)
Theorem candidate_score_positive (resources : Resources)
    (augmented_vocab : gset str) (expected_freq : gmap str float)
    (is_single_word : bool) (k : Z) (plaintext : str) :
  let c := fst (score_candidate resources augmented_vocab expected_freq
                                is_single_word k plaintext) in
  ltb zero (score c) = true /\ isnan (score c) = false.
Proof.
  cbv zeta. rewrite score_candidate_score.
  match goal with
  | |- ltb zero (final_score_of ?s) = true /\ _ =>
      pose proof (final_score_positive s) as H
  end.
  split; [exact H|]. apply ltb_not_nan in H. tauto.
Qed.

Lemma scored_positive get_resources req :
  List.Forall (fun c => ltb zero (score c) = true)
              (scored_candidates get_resources req).
Proof.
  unfold scored_candidates. apply List.Forall_forall.
  intros c Hc. apply List.in_map_iff in Hc. destruct Hc as (kp & <- & _).
  rewrite score_candidate_score. apply final_score_positive.
Qed.

Lemma scored_keys get_resources req :
  List.map (fun c => (key c, plaintext c)) (scored_candidates get_resources req)
  = List.map (fun k => (k, decrypt (request_text req) k)) (range 0 26).
Proof.
  unfold scored_candidates. cbv zeta.
  rewrite brute_force_caesar_map, !List.map_map. reflexivity.
Qed.

(** The whole result of [analyze] on a request with a text. *)
Lemma analyze_result get_resources req :
  request_text req <> [] ->
  exists best rest h w f,
    sort_desc (scored_candidates get_resources req) = best :: rest /\
    analyze get_resources req
    = (Ok (firstn 500 (request_text req)) (key best)
          (firstn 500 (plaintext best)) (score best)
          (firstn 5 (best :: rest)),
       [DebugScores 0 h w f; DebugFinal 0 (final_score_of (combine_scores
            ((len (split (request_text req)) =? 1)
             && match_word_token (request_text req))
            (bool_decide
               (lower (strip (decrypt (request_text req) 0))
                ∈ set_map lower (vocab (get_resources (request_lang req)))
                  ∪ COMMON_WORDS (request_lang req)))
            h w f));
        DebugTop5 (List.map (fun c => (key c, score c))
                            (firstn 5 (best :: rest)))]).
Proof.
  intros Hne.
  pose proof (scored_positive get_resources req) as Hpos.
  unfold analyze. fold (request_text req). fold (request_lang req).
  destruct (request_text req) as [|c0 ct] eqn:Ect; [congruence|].
  cbv zeta. rewrite score_loop. cbn [app].
  fold (request_lang req).
  set (scored := List.map _ (brute_force_caesar (c0 :: ct))).
  assert (Es : scored = scored_candidates get_resources req).
  { unfold scored_candidates. rewrite Ect. reflexivity. }
  set (out := List.flat_map _ (brute_force_caesar (c0 :: ct))).
  assert (Hsc : exists s0 ss, scored = s0 :: ss).
  { subst scored. rewrite brute_force_caesar_map.
    change (range 0 26) with (0 :: range 1 26). cbn [List.map].
    eexists _, _. reflexivity. }
  destruct Hsc as (s0 & ss & Hsc). rewrite Hsc.
  destruct (insert_desc_cons s0 (sort_desc ss)) as (best & rest & Hsort).
  change (insert_desc s0 (sort_desc ss)) with (sort_desc (s0 :: ss)) in Hsort.
  assert (Hranked : List.Forall (fun c => ltb zero (score c) = true)
                                (best :: rest)).
  { rewrite <- Hsort, <- Hsc, Es.
    eapply Permutation_Forall; [symmetry; apply sort_desc_perm|exact Hpos]. }
  assert (Htop : List.map
                   (fun c => {| key := key c; plaintext := plaintext c;
                                score := sent_score (score c) |})
                   (firstn 5 (best :: rest))
                 = firstn 5 (best :: rest)).
  { apply map_id_on. apply Forall_take.
    eapply List.Forall_impl; [|exact Hranked].
    intros [k p s] Hs. cbn [key plaintext score] in *.
    rewrite positive_sent by exact Hs. reflexivity. }
  rewrite Hsort, Htop.
  exists best, rest.
  exists (heuristic_score (decrypt (c0 :: ct) 0)
            (get_resources (request_lang req))).
  exists (if set_truth (set_map lower (vocab (get_resources (request_lang req)))
                        ∪ COMMON_WORDS (request_lang req))
          then valid_word_ratio (decrypt (c0 :: ct) 0)
                 (set_map lower (vocab (get_resources (request_lang req)))
                  ∪ COMMON_WORDS (request_lang req))
          else zero).
  exists (chi_squared_letter_score (decrypt (c0 :: ct) 0)
            (Some (if bool_decide (request_lang req = lit "fr")
                   then FRENCH_LETTER_FREQ else ENGLISH_LETTER_FREQ))).
  rewrite <- Es, Hsc. split; [exact Hsort|].
  cbn [firstn].
  inversion Hranked as [|? ? Hb _]; subst.
  rewrite (positive_sent _ Hb).
  reflexivity.
Qed.

(** X22.  A request with a text is answered with the best of the 26 scored
    candidates and with the first five of the ranking, scores as they
    were computed: the replacement of scores that are not positive
    (lines 223-229 and 234-236) never applies, and neither do the two
    error exits with the status 500 (app.py, lines 211-244). *)
Theorem analyze_answers_top_five (get_resources : str -> Resources)
    (req : request) :
  request_text req <> [] ->
  exists best rest,
    sort_desc (scored_candidates get_resources req) = best :: rest /\
    fst (analyze get_resources req)
    = Ok (firstn 500 (request_text req)) (key best)
         (firstn 500 (plaintext best)) (score best)
         (firstn 5 (best :: rest)) /\
    List.length (firstn 5 (best :: rest)) = 5%nat /\
    List.Forall
      (fun c => 0 <= key c <= 25 /\
                plaintext c = decrypt (request_text req) (key c))
      (best :: rest) /\
    List.NoDup (List.map key (best :: rest)).
Proof.
  intros Hne.
  destruct (analyze_result get_resources req Hne)
    as (best & rest & h & w & f & Hsort & E).
  exists best, rest. split; [exact Hsort|]. split; [rewrite E; reflexivity|].
  pose proof (sort_desc_perm (scored_candidates get_resources req)) as Hperm.
  rewrite Hsort in Hperm.
  pose proof (scored_keys get_resources req) as Hkeys.
  assert (Hpairs : Permutation
                     (List.map (fun c => (key c, plaintext c)) (best :: rest))
                     (List.map (fun k => (k, decrypt (request_text req) k))
                               (range 0 26))).
  { rewrite <- Hkeys. apply Permutation_map, Hperm. }
  split; [|split].
  - rewrite List.length_firstn.
    pose proof (Permutation_length Hpairs) as Hl.
    rewrite !List.length_map in Hl.
    change (List.length (range 0 26)) with 26%nat in Hl. lia.
  - apply List.Forall_forall. intros c Hc.
    assert (Hin : In (key c, plaintext c)
                     (List.map (fun k => (k, decrypt (request_text req) k))
                               (range 0 26))).
    { eapply Permutation_in; [exact Hpairs|].
      apply List.in_map_iff. exists c. tauto. }
    apply List.in_map_iff in Hin. destruct Hin as (k & Ek & Hk).
    inversion Ek as [[Ek1 Ek2]]. rewrite <- Ek1. split; [|reflexivity].
    unfold range in Hk. apply List.in_map_iff in Hk.
    destruct Hk as (i & <- & Hi). apply List.in_seq in Hi. lia.
  - assert (Hk : Permutation (List.map key (best :: rest)) (range 0 26)).
    { replace (List.map key (best :: rest))
        with (List.map fst (List.map (fun c => (key c, plaintext c)) (best :: rest)))
        by (rewrite List.map_map; reflexivity).
      replace (range 0 26)
        with (List.map fst (List.map (fun k => (k, decrypt (request_text req) k))
                                     (range 0 26)))
        by (rewrite List.map_map; apply List.map_id).
      apply Permutation_map, Hpairs. }
    eapply Permutation_NoDup; [symmetry; exact Hk|].
    unfold range. apply Finite.Injective_map_NoDup; [|apply List.seq_NoDup].
    intros a b Hab. lia.
Qed.

(** X23.  The key of the response is a key of the highest score among the 26
    candidates, and the smallest such key (app.py, lines 215-218). *)
Theorem analyze_best_is_maximal (get_resources : str -> Resources)
    (req : request) :
  request_text req <> [] ->
  exists best cs,
    In best (scored_candidates get_resources req) /\
    fst (analyze get_resources req)
    = Ok (firstn 500 (request_text req)) (key best)
         (firstn 500 (plaintext best)) (score best) cs /\
    List.Forall
      (fun c => leb (score c) (score best) = true /\
                (eqb (score c) (score best) = true -> key best <= key c))
      (scored_candidates get_resources req).
Proof.
  intros Hne.
  destruct (analyze_result get_resources req Hne)
    as (best & rest & h & w & f & Hsort & E).
  pose proof (sort_desc_perm (scored_candidates get_resources req)) as Hperm.
  rewrite Hsort in Hperm.
  exists best, (firstn 5 (best :: rest)).
  split; [eapply Permutation_in; [exact Hperm|left; reflexivity]|].
  split; [rewrite E; reflexivity|].
  assert (Hnan : List.Forall (fun c => isnan (score c) = false)
                             (scored_candidates get_resources req)).
  { eapply List.Forall_impl; [|apply scored_positive].
    intros c Hc. apply ltb_not_nan in Hc. tauto. }
  pose proof (sort_desc_sorted _ Hnan) as Hsorted.
  assert (Hkeys : StronglySorted Z.lt
                    (List.map key (scored_candidates get_resources req))).
  { replace (List.map key (scored_candidates get_resources req))
      with (List.map fst (List.map (fun c => (key c, plaintext c))
                                   (scored_candidates get_resources req)))
      by (rewrite List.map_map; reflexivity).
    rewrite scored_keys, List.map_map. cbn [fst]. rewrite List.map_id.
    vm_compute. repeat constructor. }
  pose proof (sort_desc_ties _ Hkeys) as Hties.
  rewrite Hsort in Hsorted, Hties.
  apply StronglySorted_inv in Hsorted. destruct Hsorted as [_ Hs].
  apply StronglySorted_inv in Hties. destruct Hties as [_ Ht].
  eapply Permutation_Forall; [exact Hperm|].
  constructor.
  - split; [|intros _; lia].
    apply leb_refl.
    assert (Hb : In best (scored_candidates get_resources req))
      by (eapply Permutation_in; [exact Hperm|left; reflexivity]).
    apply (proj1 (List.Forall_forall _ _) Hnan best Hb).
  - apply List.Forall_forall. intros c Hc.
    pose proof (proj1 (List.Forall_forall _ _) Hs c Hc) as H1.
    pose proof (proj1 (List.Forall_forall _ _) Ht c Hc) as H2.
    unfold score_desc in H1. unfold ties_by_key in H2.
    split; [exact H1|]. intros He. rewrite eqb_sym in He.
    specialize (H2 He). lia.
Qed.

(** X24.  The DEBUG lines of [analyze] (the prints of lines 144, 193 and
    232; the line that [get_resources] prints when a load fails is not
    one of them): none for a request that is rejected, which is always
    the rejection of an empty text with the status 400, and otherwise
    exactly three, the two lines of the key 0, with no line for another
    key, and then the line of the top five as they are sent. *)
Theorem analyze_debug_output (get_resources : str -> Resources)
    (req : request) :
  match fst (analyze get_resources req) with
  | Ok _ _ _ _ candidates =>
      exists h w f s,
        snd (analyze get_resources req)
        = [DebugScores 0 h w f; DebugFinal 0 s;
           DebugTop5 (List.map (fun c => (key c, score c)) candidates)]
  | Error message status =>
      message = lit "Empty cipher text" /\ status = 400 /\
      snd (analyze get_resources req) = []
  end.
Proof.
  destruct (request_text req) as [|c0 ct] eqn:Ect.
  - unfold analyze. fold (request_text req). rewrite Ect.
    cbn [fst snd]. repeat split.
  - destruct (analyze_result get_resources req ltac:(congruence))
      as (best & rest & h & w & f & _ & ->).
    cbn [fst snd]. eexists h, w, f, _. reflexivity.
Qed.

(** X25.  A language other than 'en' and 'fr', or none, is handled as 'en'
    (app.py, lines 85-96). *)
Theorem analyze_unknown_lang (get_resources : str -> Resources)
    (text : option str) (l : str) :
  l <> lit "en" -> l <> lit "fr" ->
  analyze get_resources {| cipherText := text; lang := Some l |}
  = analyze get_resources {| cipherText := text; lang := Some (lit "en") |} /\
  analyze get_resources {| cipherText := text; lang := None |}
  = analyze get_resources {| cipherText := text; lang := Some (lit "en") |}.
Proof.
  intros H1 H2. unfold analyze. cbn [cipherText lang default].
  rewrite (bool_decide_eq_false_2 _ H1), (bool_decide_eq_false_2 _ H2).
  cbn [orb]. split; reflexivity.
Qed.

(** X26.  White space around the text of the request has no effect on the
    answer: [analyze] works on the stripped text only
    (app.py, line 84). *)
Theorem analyze_ignores_surrounding_space (get_resources : str -> Resources)
    (text : str) (l : option str) :
  analyze get_resources {| cipherText := Some (strip text); lang := l |}
  = analyze get_resources {| cipherText := Some text; lang := l |}.
Proof.
  unfold analyze. cbn [cipherText lang default].
  unfold id. rewrite strip_idem. reflexivity.
Qed.

End WithRuntime.

Import ExampleRuntime.

Lemma analyze_answers_top_five_witness :
  request_text example_request <> [] /\
  exists best rest,
    sort_desc (scored_candidates no_resources example_request) = best :: rest /\
    fst (analyze no_resources example_request)
    = Ok (firstn 500 (request_text example_request)) (key best)
         (firstn 500 (plaintext best)) (score best)
         (firstn 5 (best :: rest)) /\
    List.length (firstn 5 (best :: rest)) = 5%nat /\
    List.Forall
      (fun c => 0 <= key c <= 25 /\
                plaintext c = decrypt (request_text example_request) (key c))
      (best :: rest) /\
    List.NoDup (List.map key (best :: rest)).
Proof.
  assert (H : request_text example_request <> [])
    by (vm_compute; discriminate).
  split; [exact H|].
  exact (analyze_answers_top_five no_resources example_request H).
Defined.

Lemma analyze_best_is_maximal_witness :
  request_text example_request <> [] /\
  exists best cs,
    In best (scored_candidates no_resources example_request) /\
    fst (analyze no_resources example_request)
    = Ok (firstn 500 (request_text example_request)) (key best)
         (firstn 500 (plaintext best)) (score best) cs /\
    List.Forall
      (fun c => leb (score c) (score best) = true /\
                (eqb (score c) (score best) = true -> key best <= key c))
      (scored_candidates no_resources example_request).
Proof.
  assert (H : request_text example_request <> [])
    by (vm_compute; discriminate).
  split; [exact H|].
  exact (analyze_best_is_maximal no_resources example_request H).
Defined.

Lemma analyze_unknown_lang_witness :
  lit "auto" <> lit "en" /\ lit "auto" <> lit "fr" /\
  analyze no_resources {| cipherText := Some (lit "Khoor"); lang := Some (lit "auto") |}
  = analyze no_resources {| cipherText := Some (lit "Khoor"); lang := Some (lit "en") |} /\
  analyze no_resources {| cipherText := Some (lit "Khoor"); lang := None |}
  = analyze no_resources {| cipherText := Some (lit "Khoor"); lang := Some (lit "en") |}.
Proof.
  assert (H1 : lit "auto" <> lit "en") by (vm_compute; discriminate).
  assert (H2 : lit "auto" <> lit "fr") by (vm_compute; discriminate).
  split; [exact H1|]. split; [exact H2|].
  exact (analyze_unknown_lang no_resources (Some (lit "Khoor")) (lit "auto") H1 H2).
Defined.

End EngineFacts.
